(** * newcollector: the catalog, the downloader, the renamer and the
      per-task runtime of [main_v3.py], embedded and verified.

    The development follows the Python sources:
    - [db/target_db.py]        (module [TargetDb])
    - [db/source_db.py], [sync/incremental_sync.py]  (module [Sync])
    - [storage/downloader.py]  (module [Downloader])
    - [processor/llm_renamer.py] (module [Renamer])
    - [main_v3.py]             (module [MainV3])

    Further parts of the same sources follow the examples: the retry
    decorator (module [Retry]), more queries of the two catalogs (modules
    [Tasks], [SourceDb]), [download_to_memory] and [batch_download] (module
    [Fetch]), storage paths (module [Storage]) and the task loop of [run]
    (module [Controller]).

    Python [str] values are lists of characters.  A Rocq string literal
    holds the UTF-8 bytes of the text; every operation the sources apply to
    file names and URLs ([split], [rsplit], [endswith], the two [re.sub]
    calls, [strip]) keys on ASCII characters only, so it acts on the UTF-8
    bytes exactly as Python acts on the code points.  [lower] is modelled on
    ASCII letters: the sources only compare lowered text against the
    suffixes [.pdf .doc .docx .xls .xlsx], and no non-ASCII character
    lowers to one of their letters. *)

From Stdlib Require Import ZArith List String Ascii Bool Lia.
From stdpp Require Import gmap strings list fin_maps sorting.

Open Scope Z_scope.

(** ** Python strings *)

Module PyStr.

Abbreviation str := (list ascii).

Definition L (s : string) : str := list_ascii_of_string s.

Definition to_lower (c : ascii) : ascii :=
  let n := nat_of_ascii c in
  if ((65 <=? n) && (n <=? 90))%nat then ascii_of_nat (n + 32) else c.

(** [s.lower()] *)
Definition lower (s : str) : str := map to_lower s.

(** [s.startswith(p)] *)
Fixpoint startswith (s p : str) {struct p} : bool :=
  match p, s with
  | [], _ => true
  | _ :: _, [] => false
  | c :: p', d :: s' => if decide (c = d) then startswith s' p' else false
  end.

(** [s.endswith(p)] *)
Definition endswith (s p : str) : bool := startswith (rev s) (rev p).

(** [sub in s] *)
Fixpoint contains (s sub : str) : bool :=
  startswith s sub ||
  match s with
  | [] => false
  | _ :: s' => contains s' sub
  end.

(** [s.split(sep)] for a one-character separator: never empty. *)
Fixpoint split (sep : ascii) (s : str) : list str :=
  match s with
  | [] => [[]]
  | c :: s' =>
      if decide (c = sep) then [] :: split sep s'
      else match split sep s' with
           | p :: ps => (c :: p) :: ps
           | [] => [[c]]
           end
  end.

(** [sep.join(parts)] *)
Fixpoint join (sep : str) (parts : list str) : str :=
  match parts with
  | [] => []
  | p :: ps =>
      match ps with
      | [] => p
      | _ :: _ => p ++ sep ++ join sep ps
      end
  end.

(** Cut at the first occurrence of [sep]. *)
Fixpoint break_at (sep : ascii) (s : str) : option (str * str) :=
  match s with
  | [] => None
  | c :: s' =>
      if decide (c = sep) then Some ([], s')
      else match break_at sep s' with
           | Some (a, b) => Some (c :: a, b)
           | None => None
           end
  end.

(** [s.rsplit(sep, 1)]: the text before the last [sep] and, when there is
    a [sep], the text after it ([parts[0]] and [parts[1]]). *)
Definition rsplit1 (sep : ascii) (s : str) : str * option str :=
  match break_at sep (rev s) with
  | None => (s, None)
  | Some (a, b) => (rev b, Some (rev a))
  end.

(** [s.lstrip(c)], [s.rstrip(c)], [s.strip(c)] for one character. *)
Fixpoint lstrip (c : ascii) (s : str) : str :=
  match s with
  | [] => []
  | d :: s' => if decide (d = c) then lstrip c s' else s
  end.

Definition rstrip (c : ascii) (s : str) : str := rev (lstrip c (rev s)).

Definition strip (c : ascii) (s : str) : str := rstrip c (lstrip c s).

(** Python truthiness of an optional string: [None] and [''] are false. *)
Definition truthy (o : option str) : bool :=
  match o with
  | Some (_ :: _) => true
  | _ => false
  end.

(** [o or d] *)
Definition or_default (o : option str) (d : str) : str :=
  match o with
  | Some (c :: s) => c :: s
  | _ => d
  end.

End PyStr.

Export PyStr.

(** ** The catalog: [db/target_db.py] *)

Module TargetDb.

(** [ORDER BY key] of a query result. *)
Definition order_by {A} (key : A → Z) (rows : list A) : list A :=
  @merge_sort A (λ a b, key a ≤ key b) (λ a b, decide (key a ≤ key b)) rows.

(** *** crawl_tasks *)

Record TaskRow := mkTaskRow {
  t_source_link_id : Z;
  t_source_url : str;
  t_url_hash : str;
  t_school_name : option str;
  t_status : str;
  t_node_count : Z;
  t_pruned_count : Z;
  t_file_count : Z;
  t_error_message : option str;
  t_started : bool;      (* started_at is set *)
  t_completed : bool     (* completed_at is set *)
}.

(** The keyword arguments of [update_task_status]: a key that is absent
    from [kwargs] is [None]; [error_message=None] cannot be told from an
    absent key by any caller in the sources, which always pass a string. *)
Record TaskPatch := mkTaskPatch {
  p_node_count : option Z;
  p_pruned_count : option Z;
  p_file_count : option Z;
  p_error_message : option str
}.

Definition no_patch : TaskPatch := mkTaskPatch None None None None.

Definition update_task_row (status : str) (kw : TaskPatch) (r : TaskRow) : TaskRow :=
  {| t_source_link_id := t_source_link_id r;
     t_source_url := t_source_url r;
     t_url_hash := t_url_hash r;
     t_school_name := t_school_name r;
     t_status := status;
     t_node_count := default (t_node_count r) (p_node_count kw);
     t_pruned_count := default (t_pruned_count r) (p_pruned_count kw);
     t_file_count := default (t_file_count r) (p_file_count kw);
     t_error_message :=
       match p_error_message kw with
       | Some e => Some e
       | None => t_error_message r
       end;
     t_started :=
       if decide (status = L "crawling") then true else t_started r;
     t_completed :=
       if decide (status = L "crawling") then t_completed r
       else if decide (status = L "completed") then true
       else if decide (status = L "failed") then true
       else t_completed r |}.

(** [update_task_status(task_id, status, **kwargs)]:
    [UPDATE crawl_tasks SET status = ..., ... WHERE id = task_id]. *)
Definition update_task_status (tasks : gmap Z TaskRow) (task_id : Z)
    (status : str) (kw : TaskPatch) : gmap Z TaskRow :=
  alter (update_task_row status kw) task_id tasks.

(** *** crawl_nodes *)

(** The columns of a crawl_nodes row other than its key
    [(task_id, node_index)]. *)
Record NodeRow := mkNodeRow {
  n_id : Z;
  n_father_index : option Z;
  n_depth : option Z;
  n_title : option str;
  n_breadcrumb : option str;
  n_url : str;
  n_father_title : option str;
  n_is_pruned : bool;
  n_is_file : bool;
  n_file_extension : option str
}.

(** The table with its [id] sequence. *)
Record NodeTable := mkNodeTable {
  nt_rows : gmap (Z * Z) NodeRow;
  nt_next_id : Z
}.

(** What a query hands back: [NodeRecord]. *)
Record NodeRecord := mkNodeRecord {
  nr_task_id : Z;
  nr_node_index : Z;
  nr_row : NodeRow
}.

(** One element of the [nodes] argument of [batch_insert_nodes]: a dict,
    given by the value stored under each key the function looks up
    ([None]: the key is absent or holds [None]). *)
Record PyNode := mkPyNode {
  k_Index : option Z;        k_node_index : option Z;
  k_FatherIndex : option Z;  k_father_index : option Z;
  k_Depth : option Z;        k_depth : option Z;
  k_title : option str;
  k_Breadcrumb : option str; k_breadcrumb : option str;
  k_Url : option str;        k_url : option str;
  k_FatherTitle : option str; k_father_title : option str
}.

(** [safe_get(d, key1, key2)] on the looked-up values. *)
Definition safe_get {A} (v1 v2 : option A) : option A :=
  match v1 with
  | Some v => Some v
  | None => v2
  end.

Definition file_extensions : list str :=
  [L ".pdf"; L ".doc"; L ".docx"; L ".xls"; L ".xlsx"].

(** [any(url_lower.endswith(ext) for ext in file_extensions)] *)
Definition detect_is_file (url_val : str) : bool :=
  existsb (endswith (lower url_val)) file_extensions.

(** The [for ext in file_extensions: ... break] loop. *)
Definition detect_file_ext (url_val : str) : option str :=
  if detect_is_file url_val then
    match find (λ ext, endswith (lower url_val) ext) file_extensions with
    | Some ext => Some (lstrip "."%char ext)
    | None => None
    end
  else None.

Definition node_url_val (node : PyNode) : str :=
  or_default (safe_get (k_Url node) (k_url node)) [].

(** [safe_get(node, 'Index', 'node_index')] *)
Definition node_index (node : PyNode) : option Z :=
  safe_get (k_Index node) (k_node_index node).

(** The [DO UPDATE SET] list: the six columns taken from the payload. *)
Definition overwrite (node : PyNode) (r : NodeRow) : NodeRow :=
  let url_val := node_url_val node in
  {| n_id := n_id r;
     n_father_index := n_father_index r;
     n_depth := n_depth r;
     n_title := k_title node;
     n_breadcrumb := safe_get (k_Breadcrumb node) (k_breadcrumb node);
     n_url := url_val;
     n_father_title := safe_get (k_FatherTitle node) (k_father_title node);
     n_is_pruned := n_is_pruned r;
     n_is_file := detect_is_file url_val;
     n_file_extension := detect_file_ext url_val |}.

(** The [VALUES] row of a node that is not yet in the table. *)
Definition inserted (node : PyNode) (fresh_id : Z) : NodeRow :=
  let url_val := node_url_val node in
  {| n_id := fresh_id;
     n_father_index := safe_get (k_FatherIndex node) (k_father_index node);
     n_depth := safe_get (k_Depth node) (k_depth node);
     n_title := k_title node;
     n_breadcrumb := safe_get (k_Breadcrumb node) (k_breadcrumb node);
     n_url := url_val;
     n_father_title := safe_get (k_FatherTitle node) (k_father_title node);
     n_is_pruned := false;
     n_is_file := detect_is_file url_val;
     n_file_extension := detect_file_ext url_val |}.

(** Modelled from the spec: the [crawl_nodes] table declaration is not in
    the sources.  The spec gives a Node the identity [(task_id, node_index)]
    (so [node_index] is not null, and the statement fails on a null one) and
    lets [is_pruned] be set only by prune marking (so a new row has
    [is_pruned = FALSE]).

    [INSERT INTO crawl_nodes ... ON CONFLICT (task_id, node_index) DO UPDATE
    SET title, breadcrumb, url, father_title, is_file, file_extension].
    The [id] sequence advances for every executed statement. *)
Definition upsert_node (task_id : Z) (node : PyNode) (t : NodeTable)
    : option NodeTable :=
  match node_index node with
  | None => None
  | Some idx =>
      let row' :=
        match nt_rows t !! (task_id, idx) with
        | Some r => overwrite node r
        | None => inserted node (nt_next_id t)
        end in
      Some {| nt_rows := <[(task_id, idx) := row']> (nt_rows t);
              nt_next_id := nt_next_id t + 1 |}
  end.

(** The [for node in nodes] loop inside one transaction. *)
Fixpoint upsert_nodes (task_id : Z) (nodes : list PyNode) (t : NodeTable)
    : option NodeTable :=
  match nodes with
  | [] => Some t
  | node :: rest =>
      match upsert_node task_id node t with
      | Some t' => upsert_nodes task_id rest t'
      | None => None
      end
  end.

(** [batch_insert_nodes(task_id, nodes)].  [None]: a statement raised, the
    transaction was never committed and the table is as before. *)
Definition batch_insert_nodes (t : NodeTable) (task_id : Z)
    (nodes : list PyNode) : option NodeTable :=
  match nodes with
  | [] => Some t
  | _ :: _ => upsert_nodes task_id nodes t
  end.

Definition set_pruned (b : bool) (r : NodeRow) : NodeRow :=
  {| n_id := n_id r;
     n_father_index := n_father_index r;
     n_depth := n_depth r;
     n_title := n_title r;
     n_breadcrumb := n_breadcrumb r;
     n_url := n_url r;
     n_father_title := n_father_title r;
     n_is_pruned := b;
     n_is_file := n_is_file r;
     n_file_extension := n_file_extension r |}.

(** [UPDATE crawl_nodes SET is_pruned = FALSE WHERE task_id = :task_id] *)
Definition reset_pruned (task_id : Z) (rows : gmap (Z * Z) NodeRow)
    : gmap (Z * Z) NodeRow :=
  map_imap (λ k r, Some (if decide (k.1 = task_id) then set_pruned false r else r)) rows.

(** [UPDATE crawl_nodes SET is_pruned = TRUE
     WHERE task_id = :task_id AND node_index = ANY(:indices)] *)
Definition set_pruned_listed (task_id : Z) (indices : list Z)
    (rows : gmap (Z * Z) NodeRow) : gmap (Z * Z) NodeRow :=
  map_imap (λ k r,
    Some (if decide (k.1 = task_id ∧ k.2 ∈ indices) then set_pruned true r else r))
    rows.

(** [mark_nodes_pruned(task_id, pruned_indices)] *)
Definition mark_nodes_pruned (t : NodeTable) (task_id : Z)
    (pruned_indices : list Z) : NodeTable :=
  match pruned_indices with
  | [] => t
  | _ :: _ =>
      {| nt_rows := set_pruned_listed task_id pruned_indices
                      (reset_pruned task_id (nt_rows t));
         nt_next_id := nt_next_id t |}
  end.

(** [get_file_nodes(task_id, pruned_only)] *)
Definition get_file_nodes (t : NodeTable) (task_id : Z) (pruned_only : bool)
    : list NodeRecord :=
  order_by nr_node_index
    (omap (λ kr : (Z * Z) * NodeRow,
       let '(k, r) := kr in
       if decide (k.1 = task_id) then
         if n_is_file r && (negb pruned_only || n_is_pruned r)
         then Some (mkNodeRecord k.1 k.2 r) else None
       else None)
     (map_to_list (nt_rows t))).

(** *** crawl_files *)

Record FileRow := mkFileRow {
  f_task_id : Z;
  f_node_id : Z;
  f_original_url : str;
  f_original_name : option str;
  f_renamed_name : option str;
  f_file_extension : option str;
  f_file_size : option Z;
  f_storage_path : option str;
  f_llm_processed : bool;
  f_llm_model : option str;
  f_llm_confidence : option str;   (* the float, stored and never computed with *)
  f_llm_raw_response : option str;
  f_download_status : str;
  f_process_status : str;
  f_error_message : option str
}.

Record FileTable := mkFileTable {
  ft_rows : gmap Z FileRow;
  ft_next_id : Z
}.

(** Modelled from the spec: the [crawl_files] table declaration is not in
    the sources; a new File starts with both status axes [pending], which is
    also what [get_pending_files] and [get_pending_process_files] select.

    [create_file_record(task_id, node_id, original_url, original_name,
    file_extension)]: an unconditional insert returning the new id. *)
Definition create_file_record (t : FileTable) (task_id node_id : Z)
    (original_url : str) (original_name file_extension : option str)
    : FileTable * Z :=
  let row :=
    {| f_task_id := task_id; f_node_id := node_id;
       f_original_url := original_url; f_original_name := original_name;
       f_renamed_name := None; f_file_extension := file_extension;
       f_file_size := None; f_storage_path := None;
       f_llm_processed := false; f_llm_model := None;
       f_llm_confidence := None; f_llm_raw_response := None;
       f_download_status := L "pending"; f_process_status := L "pending";
       f_error_message := None |} in
  ({| ft_rows := <[ft_next_id t := row]> (ft_rows t);
      ft_next_id := ft_next_id t + 1 |}, ft_next_id t).

(** The [SET] list built by [update_file_download]: a column is in the list
    only when its argument is truthy. *)
Definition update_file_download_row (status : str)
    (storage_path : option str) (file_size : option Z)
    (error_message : option str) (r : FileRow) : FileRow :=
  {| f_task_id := f_task_id r; f_node_id := f_node_id r;
     f_original_url := f_original_url r; f_original_name := f_original_name r;
     f_renamed_name := f_renamed_name r; f_file_extension := f_file_extension r;
     f_file_size :=
       match file_size with
       | Some n => if decide (n = 0) then f_file_size r else Some n
       | None => f_file_size r
       end;
     f_storage_path :=
       if truthy storage_path then storage_path else f_storage_path r;
     f_llm_processed := f_llm_processed r; f_llm_model := f_llm_model r;
     f_llm_confidence := f_llm_confidence r;
     f_llm_raw_response := f_llm_raw_response r;
     f_download_status := status;
     f_process_status := f_process_status r;
     f_error_message :=
       if truthy error_message then error_message else f_error_message r |}.

(** [update_file_download(file_id, status, storage_path, file_size,
    error_message)] *)
Definition update_file_download (t : FileTable) (file_id : Z) (status : str)
    (storage_path : option str) (file_size : option Z)
    (error_message : option str) : FileTable :=
  {| ft_rows := alter (update_file_download_row status storage_path file_size
                         error_message) file_id (ft_rows t);
     ft_next_id := ft_next_id t |}.

Definition with_rename (renamed_name : option str) (llm : option (option str * option str * option str))
    (process_status : option str) (err : option (option str)) (r : FileRow) : FileRow :=
  {| f_task_id := f_task_id r; f_node_id := f_node_id r;
     f_original_url := f_original_url r; f_original_name := f_original_name r;
     f_renamed_name := default (f_renamed_name r) (Some <$> renamed_name);
     f_file_extension := f_file_extension r;
     f_file_size := f_file_size r; f_storage_path := f_storage_path r;
     f_llm_processed :=
       match process_status with Some _ => true | None => f_llm_processed r end;
     f_llm_model := match llm with Some (m, _, _) => m | None => f_llm_model r end;
     f_llm_confidence :=
       match llm with Some (_, c, _) => c | None => f_llm_confidence r end;
     f_llm_raw_response :=
       match llm with Some (_, _, w) => w | None => f_llm_raw_response r end;
     f_download_status := f_download_status r;
     f_process_status := default (f_process_status r) process_status;
     f_error_message := default (f_error_message r) err |}.

(** [update_file_renamed(file_id, renamed_name, llm_model, llm_confidence,
    llm_raw_response)] *)
Definition update_file_renamed (t : FileTable) (file_id : Z) (renamed_name : str)
    (llm_model llm_confidence llm_raw_response : option str) : FileTable :=
  {| ft_rows := alter (with_rename (Some renamed_name)
                         (Some (llm_model, llm_confidence, llm_raw_response))
                         (Some (L "completed")) None) file_id (ft_rows t);
     ft_next_id := ft_next_id t |}.

(** [update_file_process_failed(file_id, error_message)] *)
Definition update_file_process_failed (t : FileTable) (file_id : Z)
    (error_message : option str) : FileTable :=
  {| ft_rows := alter (with_rename None None (Some (L "failed"))
                         (Some error_message)) file_id (ft_rows t);
     ft_next_id := ft_next_id t |}.

(** [update_renamed_name_only(file_id, renamed_name)] *)
Definition update_renamed_name_only (t : FileTable) (file_id : Z)
    (renamed_name : str) : FileTable :=
  {| ft_rows := alter (with_rename (Some renamed_name) None None None)
                  file_id (ft_rows t);
     ft_next_id := ft_next_id t |}.

(** A row of a [SELECT] on crawl_files, with its id. *)
Definition file_rows_of (t : FileTable) (keep : FileRow → bool)
    : list (Z * FileRow) :=
  order_by fst (filter (λ kr, keep kr.2 = true) (map_to_list (ft_rows t))).

(** [get_pending_process_files(task_id)]; the task filter is added only
    for a truthy [task_id]. *)
Definition get_pending_process_files (t : FileTable) (task_id : option Z)
    : list (Z * FileRow) :=
  file_rows_of t (λ r,
    bool_decide (f_download_status r = L "completed") &&
    bool_decide (f_process_status r = L "pending") &&
    match task_id with
    | Some i => bool_decide (i = 0) || bool_decide (f_task_id r = i)
    | None => true
    end).

(** [get_task_files_with_llm_result(task_id)] *)
Definition get_task_files_with_llm_result (t : FileTable) (task_id : Z)
    : list (Z * FileRow) :=
  file_rows_of t (λ r, bool_decide (f_task_id r = task_id) && f_llm_processed r).

End TargetDb.

(** ** Library functions the sources call

    [hashlib], [urllib.parse], [re], the f-string number formats and
    [json_repair] are not part of the repository; the code is verified for
    every behaviour of them. *)

Module Lib.

(** A [confidence] entry as [float(result_dict.get('confidence', 0.5))]
    treats it: absent, a value [float()] accepts (with the text of the
    float), or a value on which [float()] raises (with the error text). *)
Inductive JConfidence :=
  | ConfAbsent
  | ConfNumber (text : str)
  | ConfBad (err : str).

(** What [json_repair.loads] makes of an LLM answer, as far as the sources
    read it: the string stored under each key ([None]: absent or null).
    [j_renamed] is [result_dict.get('renamed', '')]: [None] for a null
    entry, the empty string for an absent one. *)
Record LlmDict := mkLlmDict {
  j_renamed : option str;
  j_university : option str;
  j_department : option str;
  j_major : option str;
  j_course : option str;
  j_year : option str;
  j_semester : option str;
  j_doc_type : option str;
  j_detail : option str;
  j_confidence : JConfidence;
  j_reason : option str
}.

Record t := mk {
  (** [hashlib.md5(s.encode()).hexdigest()] *)
  md5_hexdigest : str → str;
  (** [unquote(urlparse(url).path)] *)
  url_path : str → str;
  (** [unquote(s)] *)
  unquote : str → str;
  (** group 1 of the [filename\*?=...] search in [_get_filename_from_headers] *)
  re_filename : str → option str;
  (** [f"{n}"] *)
  fmt_int : Z → str;
  (** [f"{n / 1024 / 1024:.1f}"] *)
  fmt_mb : Z → str;
  (** [json_loads(raw)]; [None]: the result is not a dict, so that the
      first [.get] raises *)
  json_loads : str → option LlmDict
}.

End Lib.

(** ** The downloader: [storage/downloader.py] *)

Module Downloader.

Record DownloadResult := mkDownloadResult {
  success : bool;
  url : str;
  local_path : option str;
  file_size : option Z;
  file_name : option str;
  error_message : option str
}.

Definition SUPPORTED_EXTENSIONS : list str :=
  [L ".pdf"; L ".doc"; L ".docx"; L ".xls"; L ".xlsx"].

(** The [FileDownloader] object. *)
Record FileDownloader := mkFileDownloader {
  download_dir : str;
  timeout : Z;
  max_size : Z
}.


(** *** The network and the disk *)

Inductive Request :=
  | HEAD (u : str)
  | GET (u : str).

(** A [Content-Length] header as the code reads it: absent (or empty, which
    is falsy), a number [int()] accepts, or text on which [int()] raises
    (with the text of the [ValueError]). *)
Inductive ContentLength :=
  | CLAbsent
  | CLInt (n : Z)
  | CLMalformed (msg : str).

(** How [iter_content] ends after its chunks. *)
Inductive StreamEnd :=
  | EndOk
  | EndTimeout
  | EndRequestError (msg : str)
  | EndOther (msg : str).

Record Response := mkResponse {
  status_code : Z;
  content_length : ContentLength;
  content_type : option str;
  content_disposition : option str;
  body : list (list Byte.byte);
  body_end : StreamEnd
}.

Inductive GetOutcome :=
  | GetResponse (r : Response)
  | GetTimeout
  | GetRequestError (msg : str)
  | GetOther (msg : str).

(** [requests.head]: the headers of a response, or an exception. *)
Inductive HeadOutcome :=
  | HeadResponse (status : Z) (cl : ContentLength) (ct : option str)
  | HeadRaises.

Record Net := mkNet {
  http_get : str → GetOutcome;
  http_head : str → HeadOutcome;
  (** whether [open(path, 'wb')] succeeds; the message of the error if not *)
  os_open : str → option str
}.

(** The files on disk. *)
Abbreviation Disk := (gmap str (list Byte.byte)).

(** [os.path.basename(p)] *)
Definition basename (p : str) : str :=
  match rsplit1 "/"%char p with
  | (_, Some t) => t
  | (h, None) => h
  end.

(** [os.path.join(a, b)] *)
Definition path_join (a b : str) : str :=
  if startswith b (L "/") then b
  else if decide (a = []) then b
  else if endswith a (L "/") then a ++ b
  else a ++ L "/" ++ b.

Section WithLib.

Variable lib : Lib.t.

(** [_get_filename_from_url(url)] *)
Definition _get_filename_from_url (url : str) : str :=
  let filename := basename (Lib.url_path lib url) in
  if bool_decide (filename = []) || negb (contains filename (L "."))
  then take 16 (Lib.md5_hexdigest lib url)
  else filename.

(** [_get_filename_from_headers(headers)]: [cd] is the [Content-Disposition]
    header, [None] when absent. *)
Definition _get_filename_from_headers (cd : option str) : option str :=
  let content_disposition := default [] cd in
  if contains content_disposition (L "filename=") then
    match Lib.re_filename lib content_disposition with
    | Some g => Some (Lib.unquote lib g)
    | None => None
    end
  else None.

Definition type_map : list (str * str) :=
  [ (L "application/pdf", L ".pdf");
    (L "application/msword", L ".doc");
    (L "application/vnd.openxmlformats-officedocument.wordprocessingml.document", L ".docx");
    (L "application/vnd.ms-excel", L ".xls");
    (L "application/vnd.openxmlformats-officedocument.spreadsheetml.sheet", L ".xlsx") ].

(** [_get_extension(url, content_type)] *)
Definition _get_extension (url : str) (content_type : option str) : str :=
  let filename := _get_filename_from_url url in
  match find (λ ext, endswith (lower filename) ext) SUPPORTED_EXTENSIONS with
  | Some ext => ext
  | None =>
      match content_type with
      | Some (c :: ct) =>
          match find (λ me : str * str, contains (c :: ct) me.1) type_map with
          | Some (_, ext) => ext
          | None => L ".pdf"
          end
      | _ => L ".pdf"
      end
  end.


Definition failed (url : str) (size : option Z) (name : option str)
    (msg : str) : DownloadResult :=
  mkDownloadResult false url None size name (Some msg).

Definition too_large_message (n : Z) : str :=
  L "文件过大: " ++ Lib.fmt_mb lib n ++ L "MB".

(** The outcome of the [for chunk in response.iter_content(...)] loop. *)
Inductive Streamed :=
  | StreamDone (written : list Byte.byte) (file_size : Z)
  | StreamOversize (file_size : Z).

(** The loop body: an empty chunk is skipped, a chunk is written and
    counted, and the loop is left as soon as the count passes [max_size]. *)
Fixpoint stream_chunks (max_size : Z) (chunks : list (list Byte.byte))
    (written : list Byte.byte) (file_size : Z) : Streamed :=
  match chunks with
  | [] => StreamDone written file_size
  | chunk :: rest =>
      match chunk with
      | [] => stream_chunks max_size rest written file_size
      | _ :: _ =>
          let file_size' := file_size + Z.of_nat (length chunk) in
          if decide (file_size' > max_size) then StreamOversize file_size'
          else stream_chunks max_size rest (written ++ chunk) file_size'
      end
  end.

(** The [if save_name: ... else: ...] block: the caller's name, else the
    name of the [Content-Disposition] header, else the name from the URL. *)
Definition choose_filename (url : str) (save_name cd : option str) : str :=
  match save_name with
  | Some (c :: s) => c :: s
  | _ =>
      match _get_filename_from_headers cd with
      | Some (c :: s) => c :: s
      | _ => _get_filename_from_url url
      end
  end.

(** The block that makes sure of the extension. *)
Definition with_extension (url : str) (content_type : option str)
    (filename : str) : str :=
  let ext := _get_extension url content_type in
  if existsb (endswith (lower filename)) SUPPORTED_EXTENSIONS
  then filename else filename ++ ext.

(** [if content_length and int(content_length) > self.max_size] *)
Definition oversize_header (self : FileDownloader) (cl : ContentLength)
    : option Z :=
  match cl with
  | CLInt n => if decide (n > max_size self) then Some n else None
  | _ => None
  end.

(** [download_file(url, save_name, task_folder)]: the result, the disk
    afterwards and the requests sent. *)
Definition download_file (self : FileDownloader) (net : Net) (disk : Disk)
    (url : str) (save_name : option str) (task_folder : option str)
    : DownloadResult * Disk * list Request :=
  let save_dir :=
    match task_folder with
    | Some (c :: f) => path_join (path_join (download_dir self) (c :: f)) (L "raw")
    | _ => path_join (download_dir self) (L "raw")
    end in
  match http_get net url with
  | GetTimeout =>
      (failed url None None
         (L "下载超时 (" ++ Lib.fmt_int lib (timeout self) ++ L "s)"), disk, [GET url])
  | GetRequestError msg =>
      (failed url None None (L "请求错误: " ++ msg), disk, [GET url])
  | GetOther msg =>
      (failed url None None (L "未知错误: " ++ msg), disk, [GET url])
  | GetResponse response =>
      if decide (status_code response ≠ 200) then
        (failed url None None (L "HTTP " ++ Lib.fmt_int lib (status_code response)),
         disk, [GET url])
      else
        match content_length response with
        | CLMalformed msg =>
            (failed url None None (L "未知错误: " ++ msg), disk, [GET url])
        | cl =>
            match oversize_header self cl with
            | Some n =>
                (failed url (Some n) None (too_large_message n), disk, [GET url])
            | None =>
                let filename := choose_filename url save_name (content_disposition response) in
                let filename := with_extension url (content_type response) filename in
                let local_path := path_join save_dir filename in
                match os_open net local_path with
                | Some msg =>
                    (failed url None None (L "未知错误: " ++ msg), disk, [GET url])
                | None =>
                    match stream_chunks (max_size self) (body response) [] 0 with
                    | StreamOversize n =>
                        (failed url (Some n) (Some filename) (too_large_message n),
                         delete local_path disk, [GET url])
                    | StreamDone written n =>
                        let disk' := <[local_path := written]> disk in
                        match body_end response with
                        | EndOk =>
                            (mkDownloadResult true url (Some local_path) (Some n)
                               (Some filename) None, disk', [GET url])
                        | EndTimeout =>
                            (failed url None None
                               (L "下载超时 (" ++ Lib.fmt_int lib (timeout self) ++ L "s)"),
                             disk', [GET url])
                        | EndRequestError msg =>
                            (failed url None None (L "请求错误: " ++ msg), disk', [GET url])
                        | EndOther msg =>
                            (failed url None None (L "未知错误: " ++ msg), disk', [GET url])
                        end
                    end
                end
            end
        end
  end.

End WithLib.

End Downloader.

(** ** The renamer: [processor/llm_renamer.py] *)

Module Renamer.

Record RenameResult := mkRenameResult {
  success : bool;
  original_name : str;
  renamed_name : option str;
  university : option str;
  department : option str;
  major : option str;
  course : option str;
  year : option str;
  semester : option str;
  doc_type : option str;
  detail : option str;
  confidence : str;
  reason : option str;
  raw_response : option str;
  error_message : option str
}.



(** The character class of [illegal_chars]: slash, backslash, colon, star,
    question mark, double quote, less-than, greater-than and bar. *)
Definition illegal_char (c : ascii) : bool :=
  bool_decide (c ∈ ["/"; "\"; ":"; "*"; "?"; "034"; "<"; ">"; "|"]%char).

Definition is_us (c : ascii) : bool := bool_decide (c = "_"%char).

(** [re.sub(illegal_chars, '_', filename)] *)
Definition replace_illegal (s : str) : str :=
  map (λ c, if illegal_char c then "_"%char else c) s.

(** [re.sub(r'_+', '_', s)] *)
Fixpoint collapse_us (s : str) : str :=
  match s with
  | [] => []
  | c :: s' =>
      match s' with
      | d :: _ => if is_us c && is_us d then collapse_us s' else c :: collapse_us s'
      | [] => [c]
      end
  end.

(** [_sanitize_filename(filename)] *)
Definition _sanitize_filename (filename : str) : str :=
  strip "_"%char (collapse_us (replace_illegal filename)).






Section WithLib.

Variable lib : Lib.t.


End WithLib.

End Renamer.

(** ** The upstream catalog and the sync detector:
       [db/source_db.py], [sync/incremental_sync.py] *)

Module Sync.

Import TargetDb.

Record LinkRecord := mkLinkRecord {
  id : Z;
  table_name : str;
  row_id : Z;
  url : str;
  user_id : Z;
  created_at : str;
  has_guideline : bool;
  has_past_exam : bool;
  has_result : bool;
  has_material_check : bool;
  has_pdf : bool;
  is_page_info : bool
}.

(** Dataclass equality, as used by [link not in pending_links]. *)
#[global] Instance LinkRecord_eq_dec : EqDecision LinkRecord.
Proof. solve_decision. Defined.

(** The rows of the upstream [links] table. *)
Abbreviation SourceDatabase := (list LinkRecord).

(** [get_all_links()]:
    [SELECT * FROM links WHERE table_name IN ('graduate', 'undergraduate')
     ORDER BY id] *)
Definition get_all_links (src : SourceDatabase) : list LinkRecord :=
  order_by id
    (filter (λ l, table_name l = L "graduate" ∨ table_name l = L "undergraduate") src).

(** [get_links_by_ids(link_ids)] *)
Definition get_links_by_ids (src : SourceDatabase) (link_ids : list Z)
    : list LinkRecord :=
  match link_ids with
  | [] => []
  | _ :: _ => order_by id (filter (λ l, id l ∈ link_ids) src)
  end.

(** [get_total_count()] *)
Definition get_total_count (src : SourceDatabase) : Z :=
  Z.of_nat (length src).

(** [get_all_task_source_ids()] *)
Definition get_all_task_source_ids (tasks : gmap Z TaskRow) : list Z :=
  (λ kr : Z * TaskRow, t_source_link_id kr.2) <$> map_to_list tasks.

(** [get_changed_tasks(url_hashes)], with the dict [url_hashes] given by its
    items in insertion order. *)
Definition get_changed_tasks (tasks : gmap Z TaskRow)
    (url_hashes : list (Z * str)) : list Z :=
  match url_hashes with
  | [] => []
  | _ :: _ =>
      let existing_tasks : gmap Z str :=
        foldl (λ m (kr : Z * TaskRow),
                 <[t_source_link_id kr.2 := t_url_hash kr.2]> m)
              ∅ (map_to_list tasks) in
      omap (λ kv : Z * str,
              match existing_tasks !! kv.1 with
              | Some h => if decide (h ≠ kv.2) then Some kv.1 else None
              | None => None
              end) url_hashes
  end.

(** [get_tasks_by_status(status)], with the task ids. *)
Definition get_tasks_by_status (tasks : gmap Z TaskRow) (status : str)
    : list (Z * TaskRow) :=
  order_by fst (filter (λ kr, t_status kr.2 = status) (map_to_list tasks)).

(** A dict built by a comprehension: a later item replaces the value of an
    equal earlier key and keeps the earlier position. *)
Fixpoint dict_set {V} (k : Z) (v : V) (d : list (Z * V)) : list (Z * V) :=
  match d with
  | [] => [(k, v)]
  | (k', v') :: d' =>
      if decide (k' = k) then (k, v) :: d' else (k', v') :: dict_set k v d'
  end.

Record SyncResult := mkSyncResult {
  new_links : list LinkRecord;
  changed_links : list LinkRecord;
  failed_tasks : list (Z * TaskRow);
  total_source : Z;
  total_synced : Z
}.

(** A row appended to [sync_log] by [log_sync]. *)
Record SyncLogRow := mkSyncLogRow {
  sync_type : str;
  source_count : Z;
  new_count : Z;
  changed_count : Z
}.

Section WithLib.

Variable lib : Lib.t.
Variable src : SourceDatabase.
Variable tasks : gmap Z TaskRow.

(** [detect_new_links()] *)
Definition detect_new_links : list LinkRecord :=
  let all_links := get_all_links src in
  let all_source_ids : gset Z := list_to_set (id <$> all_links) in
  let existing_ids : gset Z := list_to_set (get_all_task_source_ids tasks) in
  let new_ids := all_source_ids ∖ existing_ids in
  filter (λ link, id link ∈ new_ids) all_links.

(** [detect_changed_links()] *)
Definition detect_changed_links : list LinkRecord :=
  let all_links := get_all_links src in
  let url_hashes :=
    foldl (λ d link, dict_set (id link) (Lib.md5_hexdigest lib (url link)) d)
          [] all_links in
  let changed_ids := get_changed_tasks tasks url_hashes in
  filter (λ link, id link ∈ changed_ids) all_links.

(** [detect_failed_tasks()] *)
Definition detect_failed_tasks : list (Z * TaskRow) :=
  get_tasks_by_status tasks (L "failed").

(** [run_detection(include_failed)]: the result and the logged row. *)
Definition run_detection (include_failed : bool) : SyncResult * SyncLogRow :=
  let total_source := get_total_count src in
  let new_links := detect_new_links in
  let changed_links := detect_changed_links in
  let failed_tasks := if include_failed then detect_failed_tasks else [] in
  let total_synced := total_source - Z.of_nat (length new_links) in
  ({| new_links := new_links; changed_links := changed_links;
      failed_tasks := failed_tasks; total_source := total_source;
      total_synced := total_synced |},
   {| sync_type := L "incremental"; source_count := total_source;
      new_count := Z.of_nat (length new_links);
      changed_count := Z.of_nat (length changed_links) |}).

(** [for link in links: if link not in pending_links: pending_links.append(link)] *)
Definition append_missing (pending_links links : list LinkRecord)
    : list LinkRecord :=
  foldl (λ acc link, if decide (link ∈ acc) then acc else acc ++ [link])
        pending_links links.

(** The URL de-duplication loop: [(seen_urls, unique_links)] after the
    links of [links]. *)
Definition dedup_by_url (links : list LinkRecord) : list LinkRecord :=
  (foldl (λ (st : list str * list LinkRecord) link,
            if decide (url link ∈ st.1) then st
            else (url link :: st.1, st.2 ++ [link]))
         ([], []) links).2.

(** The merged list of [get_pending_links] before the type filter and the
    de-duplication. *)
Definition merged_links (include_failed include_changed : bool)
    : list LinkRecord :=
  let result := (run_detection include_failed).1 in
  let pending_links := new_links result in
  let pending_links :=
    if include_changed then append_missing pending_links (changed_links result)
    else pending_links in
  if include_failed then
    let failed_source_ids :=
      (λ kr : Z * TaskRow, t_source_link_id kr.2) <$> failed_tasks result in
    match failed_source_ids with
    | [] => pending_links
    | _ :: _ => append_missing pending_links (get_links_by_ids src failed_source_ids)
    end
  else pending_links.

(** The links of the failed tasks, looked up in the upstream catalog. *)
Definition failed_links : list LinkRecord :=
  get_links_by_ids src
    ((λ kr : Z * TaskRow, t_source_link_id kr.2) <$> detect_failed_tasks).

(** [if link_type: pending_links = [link for link in pending_links if
    link.table_name == link_type]] *)
Definition filter_by_type (link_type : option str)
    (pending_links : list LinkRecord) : list LinkRecord :=
  match link_type with
  | Some (c :: ty) => filter (λ link, table_name link = c :: ty) pending_links
  | _ => pending_links
  end.

(** [get_pending_links(include_failed, include_changed, link_type,
    deduplicate)] *)
Definition get_pending_links (include_failed include_changed : bool)
    (link_type : option str) (deduplicate : bool) : list LinkRecord :=
  let pending_links :=
    filter_by_type link_type (merged_links include_failed include_changed) in
  if deduplicate then dedup_by_url pending_links else pending_links.

End WithLib.

End Sync.

(** ** The per-task runtime: [main_v3.py] *)

Module MainV3.

Import TargetDb.

(** Everything a task run reads and writes: the catalog tables, the local
    download directory and the object store. *)
Record World := mkWorld {
  tasks : gmap Z TaskRow;
  next_task_id : Z;
  nodes : NodeTable;
  files : FileTable;
  disk : Downloader.Disk;
  blob : gmap str (list Byte.byte)
}.

Definition set_tasks (f : gmap Z TaskRow → gmap Z TaskRow) (w : World) : World :=
  mkWorld (f (tasks w)) (next_task_id w) (nodes w) (files w) (disk w) (blob w).
Definition set_nodes (f : NodeTable → NodeTable) (w : World) : World :=
  mkWorld (tasks w) (next_task_id w) (f (nodes w)) (files w) (disk w) (blob w).
Definition set_files (f : FileTable → FileTable) (w : World) : World :=
  mkWorld (tasks w) (next_task_id w) (nodes w) (f (files w)) (disk w) (blob w).
Definition set_disk (f : Downloader.Disk → Downloader.Disk) (w : World) : World :=
  mkWorld (tasks w) (next_task_id w) (nodes w) (files w) (f (disk w)) (blob w).
Definition set_blob (f : gmap str (list Byte.byte) → gmap str (list Byte.byte))
    (w : World) : World :=
  mkWorld (tasks w) (next_task_id w) (nodes w) (files w) (disk w) (f (blob w)).

(** The statements of the [try] block of [crawl_single_link] that can
    raise. *)
Inductive CrawlStep :=
  | AtSetCrawling    (* update_task_status(task_id, 'crawling') *)
  | AtStart          (* OverView(...), SetOriUrl, ov.start(chrome) *)
  | AtSeek           (* ov.Seek() and the nodes_data loop *)
  | AtInsertNodes    (* batch_insert_nodes *)
  | AtPruning        (* ov.Pruning() *)
  | AtMarkPruned     (* mark_nodes_pruned *)
  | AtSetCompleted   (* update_task_status(task_id, 'completed', ...) *)
  | AtEnd            (* ov.end() *)
  | AtNoise.         (* CHECK_Noise() *)

#[global] Instance CrawlStep_eq_dec : EqDecision CrawlStep.
Proof. solve_decision. Defined.

(** What the crawler collaborator does for one seed: the nodes [Seek]
    leaves in [URL_RLAB], the indices read back from the pruned CSV (none
    when the file cannot be read), and the statement that raises, if any,
    with [str(e)[:500]]. *)
Record CrawlEnv := mkCrawlEnv {
  seek_nodes : list PyNode;
  pruned_csv : list Z;
  fault : option (CrawlStep * str)
}.

(** What [_process_single_file] gets from [rename_file]. *)
Inductive ProcessOutcome :=
  | Renamed (r : Renamer.RenameResult) (model : str)
  | ProcessRaises (msg : str).

Record Env := mkEnv {
  net : Downloader.Net;
  crawl : CrawlEnv;
  (** whether [storage.upload_file] returns rather than raises *)
  upload_ok : str → bool;
  bucket : str;
  rename_file : Z → FileRow → ProcessOutcome
}.

(** The controller's configuration. *)
Record Config := mkConfig {
  enable_download : bool;
  enable_rename : bool;
  downloader : Downloader.FileDownloader
}.

(** A computation of the [try] block: the world so far and either the text
    of the exception raised or a value. *)
Definition Try (A : Type) : Type := World → World * (str + A).

Definition ret {A} (a : A) : Try A := λ w, (w, inr a).
Definition bind {A B} (m : Try A) (k : A → Try B) : Try B :=
  λ w, match m w with
       | (w', inl e) => (w', inl e)
       | (w', inr a) => k a w'
       end.
Definition raise {A} (e : str) : Try A := λ w, (w, inl e).
Definition modify (f : World → World) : Try unit := λ w, (f w, inr tt).

Notation "m ;;; k" := (bind m (λ _, k))
  (at level 100, right associativity).

(** The statement [step] raises when the environment says so. *)
Definition may_raise (ce : CrawlEnv) (step : CrawlStep) : Try unit :=
  match fault ce with
  | Some (s, msg) => if decide (s = step) then raise msg else ret tt
  | None => ret tt
  end.

Section WithLib.

Variable lib : Lib.t.

(** [create_task(source_link_id, source_url, school_name)]:
    [INSERT ... ON CONFLICT (source_link_id) DO UPDATE ... RETURNING id]. *)
Definition create_task (w : World) (source_link_id : Z) (source_url : str)
    (school_name : option str) : World * Z :=
  let url_hash := Lib.md5_hexdigest lib source_url in
  match filter (λ kr : Z * TaskRow, t_source_link_id kr.2 = source_link_id)
               (map_to_list (tasks w)) with
  | (i, r) :: _ =>
      (set_tasks (λ _, <[i := {| t_source_link_id := source_link_id;
                                 t_source_url := source_url;
                                 t_url_hash := url_hash;
                                 t_school_name := school_name;
                                 t_status := L "pending";
                                 t_node_count := t_node_count r;
                                 t_pruned_count := t_pruned_count r;
                                 t_file_count := t_file_count r;
                                 t_error_message := t_error_message r;
                                 t_started := t_started r;
                                 t_completed := t_completed r |}]> (tasks w)) w, i)
  | [] =>
      let i := next_task_id w in
      (mkWorld (<[i := {| t_source_link_id := source_link_id;
                          t_source_url := source_url;
                          t_url_hash := url_hash;
                          t_school_name := school_name;
                          t_status := L "pending";
                          t_node_count := 0; t_pruned_count := 0;
                          t_file_count := 0; t_error_message := None;
                          t_started := false; t_completed := false |}]> (tasks w))
               (i + 1) (nodes w) (files w) (disk w) (blob w), i)
  end.

(** [delete_task_data(task_id)]: the task row and, by [ON DELETE CASCADE],
    its nodes and files. *)
Definition delete_task_data (w : World) (task_id : Z) : World :=
  mkWorld (delete task_id (tasks w)) (next_task_id w)
    (mkNodeTable (filter (λ kr, kr.1.1 ≠ task_id) (nt_rows (nodes w)))
                 (nt_next_id (nodes w)))
    (mkFileTable (filter (λ kr, f_task_id kr.2 ≠ task_id) (ft_rows (files w)))
                 (ft_next_id (files w)))
    (disk w) (blob w).

(** [prepare_task_for_link(link)], with the school name already looked up. *)
Definition prepare_task_for_link (w : World) (link : Sync.LinkRecord)
    (school_name : option str) : World * Z :=
  let w :=
    match filter (λ kr : Z * TaskRow, t_source_link_id kr.2 = Sync.id link)
                 (map_to_list (tasks w)) with
    | (i, _) :: _ => delete_task_data w i
    | [] => w
    end in
  create_task w (Sync.id link) (Sync.url link) school_name.

(** The [try] block of [crawl_single_link]. *)
Definition crawl_try (ce : CrawlEnv) (task_id : Z) : Try (list PyNode * list Z) :=
  may_raise ce AtSetCrawling ;;;
  modify (set_tasks (λ t, update_task_status t task_id (L "crawling") no_patch)) ;;;
  may_raise ce AtStart ;;;
  may_raise ce AtSeek ;;;
  let nodes_data := seek_nodes ce in
  may_raise ce AtInsertNodes ;;;
  (λ w, match batch_insert_nodes (nodes w) task_id nodes_data with
        | Some nt => (set_nodes (λ _, nt) w, inr tt)
        | None => (w, inl (L "null value in column node_index"))
        end) ;;;
  may_raise ce AtPruning ;;;
  let pruned_indices := pruned_csv ce in
  may_raise ce AtMarkPruned ;;;
  modify (set_nodes (λ n, mark_nodes_pruned n task_id pruned_indices)) ;;;
  may_raise ce AtSetCompleted ;;;
  modify (set_tasks (λ t, update_task_status t task_id (L "completed")
            (mkTaskPatch (Some (Z.of_nat (length nodes_data)))
                         (Some (Z.of_nat (length pruned_indices))) None None))) ;;;
  may_raise ce AtEnd ;;;
  may_raise ce AtNoise ;;;
  ret (nodes_data, pruned_indices).

(** Whether the crawl step of the task failed: its [try] block raised. *)
Definition crawl_failed (ce : CrawlEnv) (task_id : Z) (w : World) : bool :=
  match (crawl_try ce task_id w).2 with
  | inl _ => true
  | inr _ => false
  end.

(** [crawl_single_link(link, task_id)] *)
Definition crawl_single_link (ce : CrawlEnv) (task_id : Z) (w : World) : World :=
  match crawl_try ce task_id w with
  | (w', inr _) => w'
  | (w', inl e) =>
      set_tasks (λ t, update_task_status t task_id (L "failed")
                        (mkTaskPatch None None None (Some e))) w'
  end.

Definition task_folder (task_id : Z) : str := L "task_" ++ Lib.fmt_int lib task_id.

(** The body of the [for node in file_nodes] loop of [download_files]. *)
Definition download_one (cfg : Config) (env : Env) (task_id : Z)
    (w : World) (node : NodeRecord) : World :=
  let '(ft, file_id) :=
    create_file_record (files w) task_id (n_id (nr_row node))
      (n_url (nr_row node)) (n_title (nr_row node))
      (n_file_extension (nr_row node)) in
  let w := set_files (λ _, ft) w in
  let '(result, disk', _) :=
    Downloader.download_file lib (downloader cfg) (net env) (disk w)
      (n_url (nr_row node)) None (Some (task_folder task_id)) in
  let w := set_disk (λ _, disk') w in
  if Downloader.success result then
    let remote_path :=
      task_folder task_id ++ L "/raw/" ++ default [] (Downloader.file_name result) in
    if upload_ok env remote_path then
      let data := default []
        (Downloader.local_path result ≫= λ p, disk w !! p) in
      let w := set_blob (insert remote_path data) w in
      let storage_path := bucket env ++ L "/" ++ remote_path in
      set_files (λ t, update_file_download t file_id (L "completed")
                        (Some storage_path) (Downloader.file_size result) None) w
    else w
  else
    set_files (λ t, update_file_download t file_id (L "failed") None None
                      (Downloader.error_message result)) w.

(** [download_files(task_id)] *)
Definition download_files (cfg : Config) (env : Env) (task_id : Z) (w : World)
    : World :=
  if enable_download cfg then
    match get_file_nodes (nodes w) task_id true with
    | [] => w
    | file_nodes =>
        let w := foldl (download_one cfg env task_id) w file_nodes in
        set_tasks (λ t, update_task_status t task_id (L "completed")
                          (mkTaskPatch None None (Some (Z.of_nat (length file_nodes))) None)) w
    end
  else w.

(** [_process_single_file(file_record, task_id, school_name)] *)
Definition _process_single_file (env : Env) (w : World) (file : Z * FileRow)
    : World :=
  match rename_file env file.1 file.2 with
  | Renamed result model =>
      if Renamer.success result && truthy (Renamer.renamed_name result) then
        set_files (λ t, update_file_renamed t file.1
                          (default [] (Renamer.renamed_name result))
                          (Some model) (Some (Renamer.confidence result))
                          (Renamer.raw_response result)) w
      else
        let error_msg :=
          or_default (Renamer.error_message result) (L "LLM 返回空文件名") in
        set_files (λ t, update_file_process_failed t file.1 (Some error_msg)) w
  | ProcessRaises msg =>
      set_files (λ t, update_file_process_failed t file.1
                        (Some (L "处理异常: " ++ msg))) w
  end.

(** [process_files(task_id)] *)
Definition process_files (cfg : Config) (env : Env) (task_id : Z) (w : World)
    : World :=
  if enable_rename cfg then
    foldl (_process_single_file env) w
      (get_pending_process_files (files w) (Some task_id))
  else w.

(** *** The imputation pass *)

(** [counter[key] += 1] on a [Counter], kept in insertion order. *)
Fixpoint counter_incr (key : str) (c : list (str * nat)) : list (str * nat) :=
  match c with
  | [] => [(key, 1%nat)]
  | (k, n) :: c' =>
      if decide (k = key) then (k, S n) :: c' else (k, n) :: counter_incr key c'
  end.

(** [counter.most_common(1)[0][0] if counter else None]: the first entry of
    greatest count. *)
Definition most_common1 (c : list (str * nat)) : option str :=
  fst <$> foldl (λ best kv,
                   match best with
                   | None => Some kv
                   | Some b => if (b.2 <? kv.2)%nat then Some kv else Some b
                   end) None c.

(** Whether a value of the LLM answer is counted. *)
Definition counted (also_excluded : list str) (v : option str) : option str :=
  match v with
  | Some (c :: s) =>
      if decide (c :: s = L "Unknown") then None
      else if decide (c :: s ∈ also_excluded) then None
      else Some (c :: s)
  | _ => None
  end.

(** The values counted for the three fields over the files of the task. *)
Definition collect (files : list (Z * FileRow))
    : list (str * nat) * list (str * nat) * list (str * nat) :=
  foldl (λ '(universities, departments, majors) (f : Z * FileRow),
           match f_llm_raw_response f.2 with
           | Some (c :: raw) =>
               match Lib.json_loads lib (c :: raw) with
               | Some result =>
                   let add v cnt :=
                     match v with
                     | Some k => counter_incr k cnt
                     | None => cnt
                     end in
                   (add (counted [] (Lib.j_university result)) universities,
                    add (counted [] (Lib.j_department result)) departments,
                    add (counted [L "全専攻"] (Lib.j_major result)) majors)
               | None => (universities, departments, majors)
               end
           | _ => (universities, departments, majors)
           end)
        ([], [], []) files.

(** [if fill and len(parts) > i and parts[i] == 'Unknown': parts[i] = fill] *)
Definition fill_position (fill : option str) (i : nat) (parts : list str)
    : list str * bool :=
  match fill with
  | Some (c :: v) =>
      if decide (parts !! i = Some (L "Unknown"))
      then (<[i := c :: v]> parts, true)
      else (parts, false)
  | _ => (parts, false)
  end.

(** The body of the second loop of [fill_unknown_names]: the new name to
    store, if the file is updated. *)
Definition imputed_name (fill_university fill_department fill_major : option str)
    (renamed : option str) : option str :=
  match renamed with
  | Some (c :: r) =>
      let renamed := c :: r in
      if contains renamed (L "Unknown") then
        let '(name_part, ext_part) :=
          match rsplit1 "."%char renamed with
          | (h, Some e) => (h, L "." ++ e)
          | (h, None) => (h, [])
          end in
        let parts := split "_"%char name_part in
        let '(parts, u0) := fill_position fill_university 0 parts in
        let '(parts, u1) := fill_position fill_department 1 parts in
        let '(parts, u2) := fill_position fill_major 2 parts in
        if u0 || u1 || u2 then
          let new_name := join (L "_") parts ++ ext_part in
          if decide (new_name ≠ renamed) then Some new_name else None
        else None
      else None
  | _ => None
  end.

(** One round of the second loop of [fill_unknown_names]. *)
Definition store_imputed (fu fd fm : option str) (t : FileTable)
    (f : Z * FileRow) : FileTable :=
  match imputed_name fu fd fm (f_renamed_name f.2) with
  | Some new_name => update_renamed_name_only t f.1 new_name
  | None => t
  end.

(** [fill_unknown_names(task_id)] on the files table. *)
Definition fill_unknown_names (ft : FileTable) (task_id : Z) : FileTable :=
  match get_task_files_with_llm_result ft task_id with
  | [] => ft
  | files =>
      let '(universities, departments, majors) := collect files in
      match universities, departments, majors with
      | [], [], [] => ft
      | _, _, _ =>
          let fill_university := most_common1 universities in
          let fill_department := most_common1 departments in
          let fill_major := most_common1 majors in
          foldl (store_imputed fill_university fill_department fill_major) ft files
      end
  end.

(** [cleanup_task_temp_files(task_id)] *)
Definition cleanup_task_temp_files (cfg : Config) (task_id : Z) (w : World)
    : World :=
  let dir := Downloader.path_join
               (Downloader.download_dir (downloader cfg)) (task_folder task_id) in
  set_disk (filter (λ kv, ¬ (startswith kv.1 (dir ++ L "/") = true))) w.

(** The body of the task loop of [run] after [prepare_task_for_link]:
    crawl, download, rename, imputation and clean-up. *)
Definition run_phases (cfg : Config) (env : Env) (task_id : Z) (w : World)
    : World :=
  let w := crawl_single_link (crawl env) task_id w in
  let w := if enable_download cfg then download_files cfg env task_id w else w in
  let w :=
    if enable_rename cfg then
      let w := process_files cfg env task_id w in
      set_files (λ t, fill_unknown_names t task_id) w
    else w in
  cleanup_task_temp_files cfg task_id w.

(** The body of the task loop of [run]; the task id comes with the final
    world. *)
Definition run_task (cfg : Config) (env : Env) (link : Sync.LinkRecord)
    (school_name : option str) (w : World) : World * Z :=
  let '(w, task_id) := prepare_task_for_link w link school_name in
  (run_phases cfg env task_id w, task_id).

End WithLib.

End MainV3.

(** ** Statements of the specification, and the inputs of the examples *)

Module Spec.

Import TargetDb.


(** [s] ends with [ext], letter case aside. *)
Definition ends_with_ci (s ext : str) : Prop :=
  ∃ p q, s = p ++ q ∧ lower q = lower ext.

(** The URL ends, letter case aside, with one of the document extensions. *)
Definition is_document_url (u : str) : Prop :=
  ∃ ext, ext ∈ file_extensions ∧ ends_with_ci u ext.

(** The payload node that decides the row of index [idx]: the last one
    carrying that index. *)
Definition last_with_index (idx : Z) (nodes : list PyNode) : option PyNode :=
  last (filter (λ n, node_index n = Some idx) nodes).







(** A post-processed name: no illegal path character, no run of
    underscores, no underscore at either end. *)
Definition sanitized (name : str) : Prop :=
  Forall (λ c, Renamer.illegal_char c = false) name
  ∧ (∀ a b, name ≠ a ++ "_"%char :: "_"%char :: b)
  ∧ head name ≠ Some "_"%char
  ∧ last name ≠ Some "_"%char.




(** Whether a name has two underscores in a row. *)
Fixpoint has_run (s : str) : bool :=
  match s with
  | [] => false
  | c :: s' =>
      match s' with
      | d :: _ => (Renamer.is_us c && Renamer.is_us d) || has_run s'
      | [] => false
      end
  end.



(** How often [v] occurs in [l]. *)
Definition occurrences (v : str) (l : list str) : nat :=
  length (filter (λ w, w = v) l).

(** The count a [Counter] holds for [k]. *)
Definition clookup (c : list (str * nat)) (k : str) : option nat :=
  snd <$> find (λ kv : str * nat, bool_decide (kv.1 = k)) c.

(** The [Counter] after counting the values of [l] one by one. *)
Definition tally (l : list str) : list (str * nat) :=
  foldl (λ c k, MainV3.counter_incr k c) [] l.

(** [v] is a most common value of [l]. *)
Definition most_common (l : list str) (v : str) : Prop :=
  v ∈ l ∧ ∀ w, (occurrences w l ≤ occurrences v l)%nat.

(** The value a file contributes to a field, if any: the string under the
    field in its parsed [llm_raw_response], unless it is empty, ['Unknown']
    or one of [also_excluded]. *)
Definition contribution (lib : Lib.t) (field : Lib.LlmDict → option str)
    (also_excluded : list str) (f : Z * TargetDb.FileRow) : option str :=
  match TargetDb.f_llm_raw_response f.2 with
  | Some (c :: raw) =>
      Lib.json_loads lib (c :: raw) ≫= λ d, MainV3.counted also_excluded (field d)
  | _ => None
  end.

Definition contributions (lib : Lib.t) (field : Lib.LlmDict → option str)
    (also_excluded : list str) (files : list (Z * TargetDb.FileRow)) : list str :=
  omap (contribution lib field also_excluded) files.

(** The fill value of a position of the name schema. *)
Definition fill_for (fu fd fm : option str) (k : nat) : option str :=
  match k with
  | 0%nat => fu
  | 1%nat => fd
  | 2%nat => fm
  | _ => None
  end.

(** The fields of a name after imputation: a field that reads ['Unknown']
    takes the fill value of its position, when there is one. *)
Definition impute (fu fd fm : option str) (parts : list str) : list str :=
  imap (λ k p,
          if decide (p = L "Unknown") then
            match fill_for fu fd fm k with
            | Some (c :: v) => c :: v
            | _ => p
            end
          else p) parts.

(** A name cut into its fields and its extension (with the dot), as
    [fill_unknown_names] cuts it. *)
Definition name_fields (renamed : str) : list str * str :=
  match rsplit1 "."%char renamed with
  | (h, Some e) => (split "_"%char h, "."%char :: e)
  | (h, None) => (split "_"%char h, [])
  end.

(** The imputed major as the claim words it: a most common value among
    the majors of the files that are not ['Unknown']. *)
Definition major_is_most_common_non_unknown (lib : Lib.t)
    (files : list (Z * TargetDb.FileRow)) : Prop :=
  ∀ v, MainV3.most_common1 (MainV3.collect lib files).2 = Some v →
       most_common (contributions lib Lib.j_major [] files) v.

(** The links kept when only the first link of each URL is kept, the URLs
    of [seen] counting as met before. *)
Fixpoint first_by_url (seen : list str) (links : list Sync.LinkRecord)
    : list Sync.LinkRecord :=
  match links with
  | [] => []
  | x :: rest =>
      if decide (Sync.url x ∈ seen) then first_by_url seen rest
      else x :: first_by_url (Sync.url x :: seen) rest
  end.

(** Of the candidates that share its URL, a retained link has the lowest
    [source_id]. *)
Definition retains_lowest_source_id (candidates retained : list Sync.LinkRecord)
    : Prop :=
  ∀ l l', l ∈ retained → l' ∈ candidates → Sync.url l' = Sync.url l →
          Sync.id l ≤ Sync.id l'.

(** The link passes the optional kind filter. *)
Definition kind_ok (link_type : option str) (x : Sync.LinkRecord) : Prop :=
  match link_type with
  | Some (c :: ty) => Sync.table_name x = c :: ty
  | _ => True
  end.

(** Ascending [source_id]. *)
Definition by_id (a b : Sync.LinkRecord) : Prop := Sync.id a ≤ Sync.id b.


End Spec.

Module Examples.

Import TargetDb.

Definition node_row (i : Z) (u : str) (pruned : bool) : NodeRow :=
  mkNodeRow i (Some (-1)) (Some 0) (Some (L "root")) None u None pruned false None.

(** One task with a single node, of index 0. *)
Definition one_node : NodeTable :=
  mkNodeTable {[ (1, 0) := node_row 1 (L "http://u.example/") false ]} 2.

Definition file_row : FileRow :=
  mkFileRow 1 1 (L "http://u.example/a.pdf") (Some (L "a")) None (Some (L "pdf"))
    None None false None None None (L "pending") (L "pending") None.

Definition one_file : FileTable := mkFileTable {[ 7 := file_row ]} 8.

Definition py_node (i : Z) (u : str) : PyNode :=
  mkPyNode (Some i) None (Some (-1)) None (Some 0) None (Some (L "t"))
    None None (Some u) None None None.

(** Stand-ins for the library functions, for the examples. *)
Definition lib0 : Lib.t :=
  Lib.mk (λ _, L "9e107d9d372bb6826bd81d3542a419d6")
         (λ u, u) (λ s, s) (λ _, None)
         (λ _, L "1") (λ _, L "0.0") (λ _, None).

Definition b (n : nat) : list Byte.byte := replicate n Byte.x00.

Definition response (cl : Downloader.ContentLength) (body : list (list Byte.byte))
    : Downloader.Response :=
  Downloader.mkResponse 200 cl (Some (L "application/pdf")) None body
    Downloader.EndOk.

(** A server that answers every GET with [r] and fails every HEAD. *)
Definition net_of (r : Downloader.Response) : Downloader.Net :=
  Downloader.mkNet (λ _, Downloader.GetResponse r)
                   (λ _, Downloader.HeadRaises) (λ _, None).

(** A downloader that accepts at most 4 bytes. *)
Definition tiny : Downloader.FileDownloader :=
  Downloader.mkFileDownloader (L "./temp_downloads") 60 4.

(** An empty catalog, disk and object store. *)
Definition w0 : MainV3.World :=
  MainV3.mkWorld ∅ 1 (mkNodeTable ∅ 1) (mkFileTable ∅ 1) ∅ ∅.

Definition cfg0 : MainV3.Config := MainV3.mkConfig true true tiny.

(** A crawl that finds the seed page and one PDF under it, keeps both when
    pruning, and raises at [fault], if any. *)
Definition crawl_env (fault : option (MainV3.CrawlStep * str)) : MainV3.CrawlEnv :=
  MainV3.mkCrawlEnv
    [py_node 0 (L "http://u.example/admissions");
     py_node 1 (L "http://u.example/guide.pdf")]
    [0; 1] fault.

(** The collaborators of a run: the server answers every GET with [r],
    uploads succeed and the renamer raises. *)
Definition env_of (r : Downloader.Response)
    (fault : option (MainV3.CrawlStep * str)) : MainV3.Env :=
  MainV3.mkEnv (net_of r) (crawl_env fault) (λ _, true) (L "university-files")
    (λ _ _, MainV3.ProcessRaises (L "no text")).

Definition seed : Sync.LinkRecord :=
  Sync.mkLinkRecord 1 (L "graduate") 10 (L "http://u.example/admissions") 1
    (L "2025-01-01") false false false false true false.

(** The PDF node as [get_file_nodes] returns it. *)
Definition pdf_node : NodeRecord :=
  mkNodeRecord 1 1
    (mkNodeRow 2 (Some (-1)) (Some 0) (Some (L "t")) None
       (L "http://u.example/guide.pdf") None true true (Some (L "pdf"))).




(** A JSON parser for the examples: the answer ["A"] names the major
    [全専攻], every other answer the major [数学専攻]. *)
Definition lib2 : Lib.t :=
  Lib.mk (Lib.md5_hexdigest lib0) (Lib.url_path lib0) (Lib.unquote lib0)
         (Lib.re_filename lib0) (Lib.fmt_int lib0) (Lib.fmt_mb lib0)
         (λ raw, Some (Lib.mkLlmDict None (Some (L "Unknown")) (Some (L "Unknown"))
                         (Some (if decide (raw = L "A") then L "全専攻"
                                else L "数学専攻"))
                         None None None None None Lib.ConfAbsent None)).

Definition renamed_row (name raw : str) : FileRow :=
  mkFileRow 1 1 (L "http://u.example/a.pdf") (Some (L "a")) (Some name)
    (Some (L "pdf")) (Some 1) (Some (L "b/task_1/raw/a.pdf")) true None None
    (Some raw) (L "completed") (L "completed") None.

(** Three renamed files of task 1: two name the major [全専攻], one names
    [数学専攻]; the first name has [Unknown] in position 2. *)
Definition three_files : FileTable :=
  mkFileTable
    (<[1 := renamed_row (L "東京大学_理学部_Unknown_修士_2025_4月_募集要項_概要.pdf") (L "A")]>
     (<[2 := renamed_row (L "東京大学_理学部_全専攻_修士_2025_4月_募集要項_日程.pdf") (L "A")]>
      {[3 := renamed_row (L "東京大学_理学部_数学専攻_修士_2025_4月_募集要項_科目.pdf") (L "B")]}))
    4.

Definition link (i : Z) (kind u : str) : Sync.LinkRecord :=
  Sync.mkLinkRecord i kind i u 1 (L "2025-01-01") false false false false true false.

(** Upstream lists one URL under two rows, 2 and 5; row 2 was processed
    before, and its task failed. *)
Definition two_rows : list Sync.LinkRecord :=
  [link 2 (L "graduate") (L "http://u.example/admissions");
   link 5 (L "undergraduate") (L "http://u.example/admissions")].

Definition failed_task : gmap Z TaskRow :=
  {[ 1 := mkTaskRow 2 (L "http://u.example/admissions")
            (Lib.md5_hexdigest lib0 (L "http://u.example/admissions"))
            None (L "failed") 0 0 0 (Some (L "timeout")) true true ]}.

End Examples.

(** ** The retry decorator: [with_retry] of [db/target_db.py] *)

Module Retry.

(** What one call of the decorated method does: it returns, it raises one
    of the errors the decorator catches ([OperationalError],
    [DisconnectionError], [BrokenPipeError], [OSError]), or it raises another
    exception. *)
Inductive Outcome (A : Type) :=
  | Returns (a : A)
  | RaisesCaught (e : str)
  | RaisesOther (e : str).

Arguments Returns {A} a.
Arguments RaisesCaught {A} e.
Arguments RaisesOther {A} e.

(** What the wrapper does besides calling the method. *)
Inductive Event :=
  | Call
  | Reconnect
  | Sleep (seconds : Z).

Section Wrapper.

Context {St A : Type}.

(** The decorated method, acting on the connection and the database, and
    [self._reconnect()], which disposes of the engine inside its own
    [try ... except: pass] and builds a new one. *)
Variable func : St → St * Outcome A.
Variable _reconnect : St → St.

(** The [for attempt in range(max_retries)] loop followed by
    [raise last_error]; raising [None] is a [TypeError]. *)
Fixpoint attempts (delay : Z) (range : list nat) (last_error : option str)
    (s : St) : St * Outcome A * list Event :=
  match range with
  | [] =>
      (s,
       match last_error with
       | Some e => RaisesCaught e
       | None => RaisesOther (L "exceptions must derive from BaseException")
       end, [])
  | attempt :: rest =>
      match func s with
      | (s', RaisesCaught e) =>
          let '(s'', out, log) :=
            attempts delay rest (Some e) (_reconnect s') in
          (s'', out,
           Call :: Reconnect :: Sleep (delay * (Z.of_nat attempt + 1)) :: log)
      | (s', out) => (s', out, [Call])
      end
  end.

(** [with_retry(max_retries, delay)(func)] *)
Definition with_retry (max_retries delay : Z) (s : St)
    : St * Outcome A * list Event :=
  attempts delay (seq 0 (Z.to_nat max_retries)) None s.

(** The state in which attempt [k] starts when every attempt before it
    raised a caught error. *)
Fixpoint state_before (k : nat) (s : St) : St :=
  match k with
  | O => s
  | S k' => state_before k' (_reconnect (func s).1)
  end.

(** The events of [n] failed attempts, the first of them attempt [from]. *)
Fixpoint backoff (delay : Z) (from n : nat) : list Event :=
  match n with
  | O => []
  | S n' =>
      Call :: Reconnect :: Sleep (delay * (Z.of_nat from + 1))
        :: backoff delay (S from) n'
  end.

End Wrapper.

#[global] Instance Event_eq_dec : EqDecision Event.
Proof. solve_decision. Defined.

(** The seconds slept. *)
Definition slept (log : list Event) : Z :=
  foldr (λ ev acc, match ev with Sleep n => n + acc | _ => acc end) 0 log.

(** The number of calls of the method. *)
Definition calls (log : list Event) : nat :=
  length (filter (λ ev, ev = Call) log).

End Retry.

(** ** More of the catalog: [db/target_db.py] *)

Module Tasks.

Import TargetDb.

(** [get_task_by_source_id(source_link_id)]:
    [SELECT * FROM crawl_tasks WHERE source_link_id = :id] and [fetchone()].
    The [ON CONFLICT (source_link_id)] of [create_task] needs the column to
    be unique, so the query has at most one row. *)
Definition get_task_by_source_id (tasks : gmap Z TaskRow) (source_link_id : Z)
    : option (Z * TaskRow) :=
  head (filter (λ kr : Z * TaskRow, t_source_link_id kr.2 = source_link_id)
               (map_to_list tasks)).

(** [get_task_by_id(task_id)] *)
Definition get_task_by_id (tasks : gmap Z TaskRow) (task_id : Z)
    : option (Z * TaskRow) :=
  (λ r, (task_id, r)) <$> tasks !! task_id.

(** The rows of a [SELECT * FROM crawl_nodes WHERE task_id = :task_id AND ...
    ORDER BY node_index]. *)
Definition node_rows_of (t : NodeTable) (task_id : Z) (keep : NodeRow → bool)
    : list NodeRecord :=
  order_by nr_node_index
    (omap (λ kr : (Z * Z) * NodeRow,
       if decide (kr.1.1 = task_id) then
         if keep kr.2 then Some (mkNodeRecord kr.1.1 kr.1.2 kr.2) else None
       else None)
     (map_to_list (nt_rows t))).

(** [get_all_nodes(task_id)] *)
Definition get_all_nodes (t : NodeTable) (task_id : Z) : list NodeRecord :=
  node_rows_of t task_id (λ _, true).

(** [get_pruned_nodes(task_id)] *)
Definition get_pruned_nodes (t : NodeTable) (task_id : Z) : list NodeRecord :=
  node_rows_of t task_id n_is_pruned.

(** [get_pending_files(task_id)]; the task filter is added only for a
    truthy [task_id]. *)
Definition get_pending_files (t : FileTable) (task_id : option Z)
    : list (Z * FileRow) :=
  file_rows_of t (λ r,
    bool_decide (f_download_status r = L "pending") &&
    match task_id with
    | Some i => bool_decide (i = 0) || bool_decide (f_task_id r = i)
    | None => true
    end).

End Tasks.

(** ** More of the upstream catalog: [db/source_db.py] *)

Module SourceDb.

Import TargetDb Sync.

(** [get_links_by_type(table_name)] *)
Definition get_links_by_type (src : SourceDatabase) (kind : str)
    : list LinkRecord :=
  order_by id (filter (λ l, table_name l = kind) src).

(** [get_link_by_id(link_id)]: [fetchone()] of the rows with that id. *)
Definition get_link_by_id (src : SourceDatabase) (link_id : Z)
    : option LinkRecord :=
  head (filter (λ l, id l = link_id) src).

(** [get_count_by_type(table_name)] *)
Definition get_count_by_type (src : SourceDatabase) (kind : str) : Z :=
  Z.of_nat (length (filter (λ l, table_name l = kind) src)).

(** The total of [get_progress()] in [run_multiprocess.py] and
    [run_batch.py]: [graduate + undergraduate]. *)
Definition total_needed (src : SourceDatabase) : Z :=
  get_count_by_type src (L "graduate")
  + get_count_by_type src (L "undergraduate").

End SourceDb.

(** ** More of the downloader: [storage/downloader.py] *)

Module Fetch.

Import Downloader.

Section WithLib.

Variable lib : Lib.t.

(** [download_to_memory(url)]: the result with its fields [file_data] and
    [content_type], which [download_file] leaves unset, and the requests
    sent. *)
Definition download_to_memory (self : FileDownloader) (net : Net) (url : str)
    : (DownloadResult * option (list Byte.byte) * option str) * list Request :=
  let fail size name msg := (failed url size name msg, None, None) in
  (match http_get net url with
   | GetTimeout =>
       fail None None (L "下载超时 (" ++ Lib.fmt_int lib (timeout self) ++ L "s)")
   | GetRequestError msg => fail None None (L "请求错误: " ++ msg)
   | GetOther msg => fail None None (L "未知错误: " ++ msg)
   | GetResponse response =>
       if decide (status_code response ≠ 200) then
         fail None None (L "HTTP " ++ Lib.fmt_int lib (status_code response))
       else
         match content_length response with
         | CLMalformed msg => fail None None (L "未知错误: " ++ msg)
         | cl =>
             match oversize_header self cl with
             | Some n => fail (Some n) None (too_large_message lib n)
             | None =>
                 let filename :=
                   match _get_filename_from_headers lib
                           (content_disposition response) with
                   | Some (c :: s) => c :: s
                   | _ => _get_filename_from_url lib url
                   end in
                 let content_type :=
                   default (L "application/octet-stream") (content_type response) in
                 let ext := _get_extension lib url (Some content_type) in
                 let filename :=
                   if existsb (endswith (lower filename)) SUPPORTED_EXTENSIONS
                   then filename else filename ++ ext in
                 match stream_chunks (max_size self) (body response) [] 0 with
                 | StreamOversize n =>
                     fail (Some n) (Some filename) (too_large_message lib n)
                 | StreamDone file_data n =>
                     match body_end response with
                     | EndOk =>
                         (mkDownloadResult true url None (Some n) (Some filename)
                            None, Some file_data, Some content_type)
                     | EndTimeout =>
                         fail None None
                           (L "下载超时 (" ++ Lib.fmt_int lib (timeout self) ++ L "s)")
                     | EndRequestError msg =>
                         fail None None (L "请求错误: " ++ msg)
                     | EndOther msg => fail None None (L "未知错误: " ++ msg)
                     end
                 end
             end
         end
   end, [GET url]).


End WithLib.

(** [is_supported_file(url)] *)
Definition is_supported_file (url : str) : bool :=
  existsb (endswith (lower url)) SUPPORTED_EXTENSIONS.

End Fetch.

(** ** Storage paths: [storage/supabase_storage.py] and their use in
       [main_v3.py] *)

Module Storage.

(** [get_storage_path(remote_path)]: [f"{self.bucket}/{remote_path}"] *)
Definition get_storage_path (bucket remote_path : str) : str :=
  bucket ++ L "/" ++ remote_path.

(** [s.split(sep)] for a non-empty [sep]: the text is scanned from the left,
    and the [skip] characters that belong to the separator just met are
    passed over. *)
Fixpoint split_go (sep : str) (skip : nat) (s : str) : list str :=
  match s with
  | [] => [[]]
  | c :: s' =>
      match skip with
      | S k => split_go sep k s'
      | O =>
          if startswith s sep then [] :: split_go sep (length sep - 1) s'
          else match split_go sep O s' with
               | p :: ps => (c :: p) :: ps
               | [] => [[c]]
               end
      end
  end.

Definition split_str (sep s : str) : list str := split_go sep O s.

(** [file_record['storage_path'].split(thread_storage.bucket + '/')[-1]] in
    [_process_single_file] *)
Definition remote_path_of (bucket storage_path : str) : str :=
  default [] (last (split_str (bucket ++ L "/") storage_path)).

End Storage.

(** ** The task loop of [run]: [main_v3.py] *)

Module Controller.

Import TargetDb MainV3.

(** [l[:n]] *)
Definition slice_to {A} (n : Z) (l : list A) : list A :=
  if decide (n < 0) then take (length l - Z.to_nat (- n)) l
  else take (Z.to_nat n) l.

(** The links [run(link_type, max_tasks)] works on, out of those of
    [run_sync_detection]. *)
Definition select_links (link_type : option str) (max_tasks : option Z)
    (pending_links : list Sync.LinkRecord) : list Sync.LinkRecord :=
  let pending_links := Sync.filter_by_type link_type pending_links in
  match max_tasks with
  | Some n => if decide (n = 0) then pending_links else slice_to n pending_links
  | None => pending_links
  end.

Section WithLib.

Variable lib : Lib.t.

(** The [for i, link in enumerate(pending_links)] loop of [run]; the
    collaborators and the school name looked up upstream depend on the
    link. *)
Definition run_loop (cfg : Config) (env_of : Sync.LinkRecord → Env)
    (school_of : Sync.LinkRecord → option str)
    (pending_links : list Sync.LinkRecord) (w : World) : World :=
  foldl (λ w link, (run_task lib cfg (env_of link) link (school_of link) w).1)
        w pending_links.

End WithLib.

End Controller.

(** ** Invariants of the catalog *)

Module Inv.

Import TargetDb MainV3.

(** [source_link_id] is unique in [crawl_tasks]. *)
Definition unique_source_ids (tasks : gmap Z TaskRow) : Prop :=
  ∀ i j r r', tasks !! i = Some r → tasks !! j = Some r' →
              t_source_link_id r = t_source_link_id r' → i = j.

(** The [id] sequence of [crawl_tasks] is ahead of every row. *)
Definition task_ids_fresh (w : World) : Prop :=
  ∀ i, is_Some (tasks w !! i) → i < next_task_id w.

(** The [id] sequence of [crawl_files] is ahead of every row. *)
Definition file_ids_fresh (t : FileTable) : Prop :=
  ∀ i, is_Some (ft_rows t !! i) → i < ft_next_id t.

(** A task status in which a run leaves a task. *)
Definition terminal (status : str) : Prop :=
  status = L "completed" ∨ status = L "failed".

(** The columns of a task that say what it is a task of. *)
Definition same_source (r r' : TaskRow) : Prop :=
  t_source_link_id r' = t_source_link_id r
  ∧ t_source_url r' = t_source_url r
  ∧ t_url_hash r' = t_url_hash r
  ∧ t_school_name r' = t_school_name r.

(** [tasks'] differs from [tasks] in the row of [task_id] at most, and
    there not in what the row is a task of. *)
Definition only_task (task_id : Z) (tasks tasks' : gmap Z TaskRow) : Prop :=
  ∃ f, tasks' = alter f task_id tasks ∧ ∀ r, same_source r (f r).


(** The file row [download_files] leaves for a file node of the task: its
    download status says whether the download and the upload went through,
    and a zero size is not stored. *)
Definition downloaded_row (lib : Lib.t) (cfg : Config) (env : Env)
    (task_id : Z) (node : NodeRecord) (r : FileRow) : Prop :=
  let result :=
    (Downloader.download_file lib (downloader cfg) (net env) ∅
       (n_url (nr_row node)) None (Some (task_folder lib task_id))).1.1 in
  let remote_path :=
    task_folder lib task_id ++ L "/raw/"
      ++ default [] (Downloader.file_name result) in
  f_task_id r = task_id
  ∧ f_node_id r = n_id (nr_row node)
  ∧ f_original_url r = n_url (nr_row node)
  ∧ f_original_name r = n_title (nr_row node)
  ∧ f_process_status r = L "pending" ∧ f_llm_processed r = false
  ∧ if Downloader.success result then
      if upload_ok env remote_path then
        f_download_status r = L "completed"
        ∧ f_storage_path r
          = Some (Storage.get_storage_path (bucket env) remote_path)
        ∧ f_file_size r
          = match Downloader.file_size result with
            | Some n => if decide (n = 0) then None else Some n
            | None => None
            end
      else f_download_status r = L "pending" ∧ f_storage_path r = None
    else
      f_download_status r = L "failed" ∧ f_storage_path r = None.

(** An upstream row of a kind that is crawled. *)
Definition crawled_kind (l : Sync.LinkRecord) : Prop :=
  Sync.table_name l = L "graduate" ∨ Sync.table_name l = L "undergraduate".

#[global] Instance crawled_kind_dec l : Decision (crawled_kind l).
Proof. unfold crawled_kind. apply _. Defined.

(** An upstream row that is a new link: of a crawled kind and without a
    task. *)
Definition is_new (tasks : gmap Z TaskRow) (l : Sync.LinkRecord) : Prop :=
  crawled_kind l ∧ Sync.id l ∉ Sync.get_all_task_source_ids tasks.

#[global] Instance is_new_dec tasks l : Decision (is_new tasks l).
Proof. unfold is_new. apply _. Defined.

End Inv.

(** ** Inputs of further examples *)

Module MoreExamples.

Import TargetDb.

(** A method that loses its connection on its first two calls and returns
    the number of earlier calls on the third; the state counts the calls. *)
Definition flaky (s : nat) : nat * Retry.Outcome nat :=
  if (s <? 2)%nat then (S s, Retry.RaisesCaught (L "connection reset"))
  else (S s, Retry.Returns s).

(** A method that never gets through. *)
Definition down (s : nat) : nat * Retry.Outcome nat :=
  (S s, Retry.RaisesCaught (L "connection refused")).

(** The catalog after the task of upstream row 2 has failed. *)
Definition w1 : MainV3.World :=
  MainV3.mkWorld Examples.failed_task 2 (mkNodeTable ∅ 1) (mkFileTable ∅ 1) ∅ ∅.

(** The catalog with the stored hash of row 2 out of date. *)
Definition stale_task : gmap Z TaskRow :=
  {[ 1 := mkTaskRow 2 (L "http://u.example/old") (L "0000") None
            (L "completed") 3 2 1 None true true ]}.

(** A file of task 1 that is downloaded and waits for its name. *)
Definition waiting_file : FileTable :=
  mkFileTable
    {[ 1 := mkFileRow 1 2 (L "http://u.example/guide.pdf") (Some (L "t")) None
              (Some (L "pdf")) (Some 1)
              (Some (L "university-files/task_1/raw/guide.pdf")) false None
              None None (L "completed") (L "pending") None ]} 2.

Definition w2 : MainV3.World :=
  MainV3.mkWorld ∅ 2 (mkNodeTable {[ (1, 1) := nr_row Examples.pdf_node ]} 3)
    waiting_file ∅ ∅.

End MoreExamples.

(** ** Facts about the string operations *)

Section StrFacts.

Lemma startswith_spec (s p : str) :
  startswith s p = true ↔ ∃ t, s = p ++ t.
Proof.
  revert s. induction p as [|c p IH]; intros s; simpl.
  - split; [intros _; by exists s | done].
  - destruct s as [|d s]; simpl.
    + split; [done | intros [t Ht]; discriminate].
    + destruct (decide (c = d)) as [->|Hne].
      * rewrite IH. split; intros [t Ht]; exists t; congruence.
      * split; [done | intros [t Ht]; congruence].
Qed.

Lemma endswith_spec (s p : str) :
  endswith s p = true ↔ ∃ t, s = t ++ p.
Proof.
  unfold endswith. rewrite startswith_spec. split.
  - intros [t Ht]. exists (rev t).
    apply (f_equal (@rev ascii)) in Ht.
    by rewrite rev_involutive, rev_app_distr, rev_involutive in Ht.
  - intros [t ->]. exists (rev t). by rewrite rev_app_distr.
Qed.

Lemma endswith_app (t p : str) : endswith (t ++ p) p = true.
Proof. apply endswith_spec. by exists t. Qed.

Lemma lower_app (a b : str) : lower (a ++ b) = lower a ++ lower b.
Proof. apply map_app. Qed.




Lemma endswith_lower_spec (u ext : str) :
  lower ext = ext → endswith (lower u) ext = true ↔ Spec.ends_with_ci u ext.
Proof.
  intros Hext. rewrite endswith_spec. unfold Spec.ends_with_ci. split.
  - intros [t Ht].
    exists (take (length t) u), (drop (length t) u). split.
    + by rewrite take_drop.
    + unfold lower in *. rewrite <- skipn_map, Ht, Hext.
      by rewrite drop_app_length.
  - intros (p & q & -> & Hq). exists (lower p).
    by rewrite lower_app, Hq, Hext.
Qed.

End StrFacts.

(** ** The catalog operations *)

Section CatalogFacts.

Import TargetDb.

(** *** [update_file_download] *)

Lemma update_file_download_lookup t file_id status sp fs em :
  ft_rows (update_file_download t file_id status sp fs em) !! file_id
  = update_file_download_row status sp fs em <$> ft_rows t !! file_id.
Proof. unfold update_file_download; simpl. by rewrite lookup_alter_eq. Qed.

Lemma update_file_download_other t file_id status sp fs em j :
  j ≠ file_id →
  ft_rows (update_file_download t file_id status sp fs em) !! j = ft_rows t !! j.
Proof. intros. unfold update_file_download; simpl. by rewrite lookup_alter_ne. Qed.

(** C9: [update_file_download] always overwrites [download_status] of the
    row with the given status, and leaves [storage_path], [file_size] and
    [error_message] as they were whenever the corresponding argument is
    [None]; a [file_size] of 0 is falsy and is left unrecorded as well, so a
    zero-byte download that succeeded does not store its size. *)
Theorem C9_update_file_download_frame
    (t : FileTable) (file_id : Z) (status : str)
    (storage_path : option str) (file_size : option Z)
    (error_message : option str) (r : FileRow) :
  ft_rows t !! file_id = Some r →
  ∃ r', ft_rows (update_file_download t file_id status storage_path file_size
                   error_message) !! file_id = Some r'
     ∧ f_download_status r' = status
     ∧ (storage_path = None → f_storage_path r' = f_storage_path r)
     ∧ (file_size = None ∨ file_size = Some 0 → f_file_size r' = f_file_size r)
     ∧ (error_message = None → f_error_message r' = f_error_message r).
Proof.
  intros Hr. eexists. rewrite update_file_download_lookup, Hr. simpl.
  split; [reflexivity|]. split; [reflexivity|].
  split; [by intros ->|]. split; [|by intros ->].
  intros [-> | ->]; simpl; done.
Qed.

(** The witness of C9: a zero-byte download recorded as completed. *)
Lemma C9_update_file_download_frame_witness :
  ∃ r', ft_rows (update_file_download Examples.one_file 7 (L "completed")
                   (Some (L "b/task_1/raw/a.pdf")) (Some 0) None) !! 7 = Some r'
     ∧ f_download_status r' = L "completed"
     ∧ f_file_size r' = None.
Proof.
  destruct (C9_update_file_download_frame Examples.one_file 7 (L "completed")
              (Some (L "b/task_1/raw/a.pdf")) (Some 0) None Examples.file_row)
    as (r' & H1 & H2 & _ & H4 & _).
  - reflexivity.
  - exists r'. split; [exact H1|]. split; [exact H2|].
    rewrite H4; [reflexivity | by right].
Defined.

(** *** [mark_nodes_pruned] *)

Lemma reset_pruned_lookup task_id rows k :
  reset_pruned task_id rows !! k
  = (λ r, if decide (k.1 = task_id) then set_pruned false r else r) <$> rows !! k.
Proof.
  unfold reset_pruned. rewrite map_lookup_imap. by destruct (rows !! k).
Qed.

Lemma set_pruned_listed_lookup task_id S rows k :
  set_pruned_listed task_id S rows !! k
  = (λ r, if decide (k.1 = task_id ∧ k.2 ∈ S) then set_pruned true r else r)
      <$> rows !! k.
Proof.
  unfold set_pruned_listed. rewrite map_lookup_imap. by destruct (rows !! k).
Qed.

(** One call with a non-empty list: the two phases, row by row. *)
Lemma mark_nodes_pruned_lookup t task_id S k :
  S ≠ [] →
  nt_rows (mark_nodes_pruned t task_id S) !! k
  = (λ r, if decide (k.1 = task_id)
          then set_pruned (bool_decide (k.2 ∈ S)) r else r) <$> nt_rows t !! k.
Proof.
  intros HS. destruct S as [|i S]; [done|]. unfold mark_nodes_pruned.
  cbn [nt_rows]. rewrite set_pruned_listed_lookup, reset_pruned_lookup.
  destruct (nt_rows t !! k) as [r|]; [simpl|done]. f_equal.
  destruct (decide (k.1 = task_id)) as [Hk|Hk].
  - destruct (decide (k.1 = task_id ∧ k.2 ∈ i :: S)) as [[_ Hin]|Hn].
    + by rewrite bool_decide_eq_true_2.
    + rewrite bool_decide_eq_false_2; [done|]. intros Hin. by apply Hn.
  - destruct (decide (k.1 = task_id ∧ k.2 ∈ i :: S)) as [[Hk' _]|Hn]; done.
Qed.






(** *** [batch_insert_nodes] *)

Lemma file_extensions_lower ext : ext ∈ file_extensions → lower ext = ext.
Proof.
  unfold file_extensions. rewrite !elem_of_cons, elem_of_nil.
  intros [->|[->|[->|[->|[->|[]]]]]]; reflexivity.
Qed.

(** [is_file] is computed as the specification words it. *)
Lemma detect_is_file_spec (u : str) :
  detect_is_file u = true ↔ Spec.is_document_url u.
Proof.
  unfold detect_is_file, Spec.is_document_url. rewrite existsb_exists. split.
  - intros (ext & Hin & He). exists ext. apply list_elem_of_In in Hin.
    split; [done|]. by apply endswith_lower_spec; [apply file_extensions_lower|].
  - intros (ext & Hin & He). exists ext. split; [by apply list_elem_of_In|].
    by apply endswith_lower_spec; [apply file_extensions_lower|].
Qed.

(** [file_extension] is the matched extension without its dot, and null
    exactly when the URL is no document URL. *)
Lemma detect_file_ext_spec (u : str) :
  match detect_file_ext u with
  | Some e => ("."%char :: e) ∈ file_extensions ∧ Spec.ends_with_ci u ("."%char :: e)
  | None => ¬ Spec.is_document_url u
  end.
Proof.
  unfold detect_file_ext. destruct (detect_is_file u) eqn:E.
  - destruct (find _ file_extensions) as [ext|] eqn:F.
    + apply find_some in F as [Hin He]. apply list_elem_of_In in Hin.
      assert (lstrip "."%char ext = tail ext ∧ ext = "."%char :: tail ext) as [-> Hx].
      { revert Hin. unfold file_extensions. rewrite !elem_of_cons, elem_of_nil.
        intros [->|[->|[->|[->|[->|[]]]]]]; by vm_compute. }
      rewrite <- Hx. split; [done|].
      by apply endswith_lower_spec; [apply file_extensions_lower|].
    + apply existsb_exists in E as (ext & Hin & He).
      by rewrite (find_none _ _ F ext Hin) in He.
  - rewrite <- detect_is_file_spec. by rewrite E.
Qed.

Lemma overwrite_overwrite n m r : overwrite n (overwrite m r) = overwrite n r.
Proof. reflexivity. Qed.

Lemma overwrite_inserted n i : overwrite n (inserted n i) = inserted n i.
Proof. reflexivity. Qed.

Lemma upsert_nodes_snoc task_id nodes n t :
  upsert_nodes task_id (nodes ++ [n]) t
  = upsert_nodes task_id nodes t ≫= upsert_node task_id n.
Proof.
  revert t. induction nodes as [|m nodes IH]; intros t; simpl.
  - by destruct (upsert_node task_id n t).
  - destruct (upsert_node task_id m t); [apply IH|done].
Qed.

(** The loop succeeds exactly when no payload node has a null index. *)
Lemma upsert_nodes_is_Some task_id nodes t :
  is_Some (upsert_nodes task_id nodes t)
  ↔ Forall (λ n, is_Some (node_index n)) nodes.
Proof.
  revert t. induction nodes as [|m nodes IH]; intros t; simpl.
  - split; [by constructor | by eexists].
  - rewrite Forall_cons. unfold upsert_node at 1.
    destruct (node_index m) as [idx|].
    + rewrite IH. split; [by split; [eexists|] | by intros [_ ?]].
    + split; [by intros [? ?] | by intros [[? ?] _]].
Qed.

Lemma last_with_index_snoc idx nodes n :
  Spec.last_with_index idx (nodes ++ [n])
  = if decide (node_index n = Some idx) then Some n
    else Spec.last_with_index idx nodes.
Proof.
  unfold Spec.last_with_index. rewrite filter_app.
  rewrite filter_cons, filter_nil. case_decide.
  - by rewrite last_snoc.
  - by rewrite app_nil_r.
Qed.

(** The rows after the loop, in closed form: a key the payload does not
    mention keeps its row; a key it mentions holds the six payload columns of
    the last node with that index, on top of the row that was there before
    (or of the row inserted by the payload when there was none). *)
Lemma upsert_nodes_lookup task_id nodes t t' k :
  upsert_nodes task_id nodes t = Some t' →
  match (if decide (k.1 = task_id) then Spec.last_with_index k.2 nodes else None) with
  | Some n =>
      ∃ base, nt_rows t' !! k = Some (overwrite n base)
              ∧ (∀ r, nt_rows t !! k = Some r → base = r)
              ∧ (nt_rows t !! k = None → n_is_pruned base = false)
  | None => nt_rows t' !! k = nt_rows t !! k
  end.
Proof.
  revert t'. induction nodes as [|n nodes IH] using rev_ind; intros t'.
  - simpl. intros [= <-]. by case_decide.
  - rewrite upsert_nodes_snoc.
    destruct (upsert_nodes task_id nodes t) as [t1|] eqn:E1; [simpl|done].
    specialize (IH t1 eq_refl). unfold upsert_node.
    destruct (node_index n) as [idx|] eqn:En; [|done]. intros [= <-].
    cbn [nt_rows]. destruct (decide (k.1 = task_id)) as [Hk|Hk].
    + rewrite last_with_index_snoc.
      destruct (decide (node_index n = Some k.2)) as [Hn|Hn].
      * assert (idx = k.2) as -> by congruence.
        assert ((task_id, k.2) = k) as -> by (destruct k; simpl in *; congruence).
        rewrite lookup_insert_eq.
        destruct (Spec.last_with_index k.2 nodes) as [m|].
        -- destruct IH as (base & -> & Hb & Hp). exists base.
           by rewrite overwrite_overwrite.
        -- rewrite IH. destruct (nt_rows t !! k) as [r|].
           ++ exists r. split; [done|]. split; [by intros ? [= ->]|done].
           ++ exists (inserted n (nt_next_id t1)).
              by rewrite overwrite_inserted.
      * rewrite lookup_insert_ne; [done|].
        intros <-. simpl in Hn. congruence.
    + rewrite lookup_insert_ne; [done|]. intros <-. by simpl in Hk.
Qed.

(** Running the same payload again leaves every row as it is. *)
Lemma upsert_nodes_again task_id nodes t t1 :
  upsert_nodes task_id nodes t = Some t1 →
  ∃ t2, upsert_nodes task_id nodes t1 = Some t2 ∧ nt_rows t2 = nt_rows t1.
Proof.
  intros H1.
  destruct (proj2 (upsert_nodes_is_Some task_id nodes t1)) as [t2 H2].
  { apply (upsert_nodes_is_Some task_id nodes t). by eexists. }
  exists t2. split; [done|]. apply map_eq. intros k.
  pose proof (upsert_nodes_lookup task_id nodes t t1 k H1) as L1.
  pose proof (upsert_nodes_lookup task_id nodes t1 t2 k H2) as L2.
  destruct (if decide (k.1 = task_id) then Spec.last_with_index k.2 nodes else None)
    as [n|]; [|done].
  destruct L1 as (b1 & E1 & _). destruct L2 as (b2 & E2 & Hb2 & _).
  rewrite E2, E1. rewrite (Hb2 _ E1). by rewrite overwrite_overwrite.
Qed.

(** C8: [batch_insert_nodes] upserts every payload node under the key
    [(task_id, node_index)]: the row of each payload index holds [title],
    [breadcrumb], [url], [father_title], [is_file] and [file_extension] of
    the payload; in such a row [is_file] is true if and only if the URL
    ends, letter case aside, with one of [.pdf .doc .docx .xls .xlsx], and
    [file_extension] is that extension, and null otherwise; [is_pruned] is
    neither read nor written: every row that was there keeps its mark and
    rows the payload does not mention are untouched; and inserting the same
    payload again changes no row, hence neither the row count nor the prune
    marks. *)
Theorem C8_batch_insert_nodes
    (t t' : NodeTable) (task_id : Z) (nodes : list PyNode) :
  batch_insert_nodes t task_id nodes = Some t' →
  (∀ n idx, n ∈ nodes → node_index n = Some idx →
     ∃ r' m, nt_rows t' !! (task_id, idx) = Some r'
       ∧ Spec.last_with_index idx nodes = Some m
       ∧ n_title r' = k_title m
       ∧ n_breadcrumb r' = safe_get (k_Breadcrumb m) (k_breadcrumb m)
       ∧ n_url r' = or_default (safe_get (k_Url m) (k_url m)) []
       ∧ n_father_title r' = safe_get (k_FatherTitle m) (k_father_title m)
       ∧ (n_is_file r' = true ↔ Spec.is_document_url (n_url r'))
       ∧ match n_file_extension r' with
         | Some e => n_is_file r' = true
                     ∧ ("."%char :: e) ∈ file_extensions
                     ∧ Spec.ends_with_ci (n_url r') ("."%char :: e)
         | None => n_is_file r' = false
         end)
  ∧ (∀ k r, nt_rows t !! k = Some r →
       ∃ r', nt_rows t' !! k = Some r' ∧ n_is_pruned r' = n_is_pruned r)
  ∧ (∀ k, (k.1 ≠ task_id ∨ Spec.last_with_index k.2 nodes = None) →
       nt_rows t' !! k = nt_rows t !! k)
  ∧ (∃ t'', batch_insert_nodes t' task_id nodes = Some t''
       ∧ nt_rows t'' = nt_rows t'
       ∧ size (nt_rows t'') = size (nt_rows t')
       ∧ ∀ k, n_is_pruned <$> nt_rows t'' !! k = n_is_pruned <$> nt_rows t' !! k).
Proof.
  intros H.
  assert (upsert_nodes task_id nodes t = Some t') as Hu.
  { destruct nodes; [simpl in *; congruence | exact H]. }
  clear H. repeat split.
  - intros n idx Hin Hidx.
    pose proof (upsert_nodes_lookup task_id nodes t t' (task_id, idx) Hu) as Lk.
    simpl in Lk. rewrite decide_True in Lk by done.
    destruct (Spec.last_with_index idx nodes) as [m|] eqn:El.
    + destruct Lk as (base & E & _). exists (overwrite m base), m.
      split; [done|]. split; [done|]. simpl. repeat split; try done.
      * apply detect_is_file_spec.
      * apply detect_is_file_spec.
      * pose proof (detect_file_ext_spec (node_url_val m)) as Hx.
        destruct (detect_file_ext (node_url_val m)) as [e|] eqn:Ee.
        -- split; [|done]. unfold detect_file_ext in Ee.
           by destruct (detect_is_file (node_url_val m)).
        -- apply not_true_is_false. by rewrite detect_is_file_spec.
    + exfalso. unfold Spec.last_with_index in El.
      apply last_None in El.
      assert (n ∈ filter (λ n, node_index n = Some idx) nodes) as Hf
        by (by apply list_elem_of_filter).
      rewrite El in Hf. by apply elem_of_nil in Hf.
  - intros k r Hr.
    pose proof (upsert_nodes_lookup task_id nodes t t' k Hu) as Lk.
    destruct (if decide (k.1 = task_id) then Spec.last_with_index k.2 nodes else None)
      as [m|].
    + destruct Lk as (base & E & Hb & _). exists (overwrite m base).
      split; [done|]. simpl. by rewrite (Hb r Hr).
    + exists r. by rewrite Lk.
  - intros k Hk.
    pose proof (upsert_nodes_lookup task_id nodes t t' k Hu) as Lk.
    destruct (decide (k.1 = task_id)); [|done].
    destruct Hk as [Hk|Hk]; [done|]. by rewrite Hk in Lk.
  - destruct (upsert_nodes_again task_id nodes t t' Hu) as (t2 & H2 & E2).
    exists t2. split; [|by rewrite E2].
    destruct nodes; [simpl in *; congruence | exact H2].
Qed.

(** The witness of C8: a page and a PDF inserted for task 1; the PDF row is
    there after the insert. *)
Lemma C8_batch_insert_nodes_witness :
  ∃ t', batch_insert_nodes Examples.one_node 1
          [Examples.py_node 0 (L "http://u.example/");
           Examples.py_node 1 (L "http://u.example/Guide.PDF")] = Some t'
    ∧ ∃ t'', batch_insert_nodes t' 1
          [Examples.py_node 0 (L "http://u.example/");
           Examples.py_node 1 (L "http://u.example/Guide.PDF")] = Some t''
       ∧ nt_rows t'' = nt_rows t'.
Proof.
  eexists. split; [reflexivity|].
  match goal with |- ∃ t'', batch_insert_nodes ?t ?i ?ns = _ ∧ _ =>
    destruct (C8_batch_insert_nodes Examples.one_node t i ns eq_refl)
      as (_ & _ & _ & t2 & H2 & E2 & _)
  end.
  exists t2. by split.
Defined.

End CatalogFacts.

(** ** The downloader *)

Section DownloaderFacts.

Import Downloader.

Variable lib : Lib.t.





(** *** The size limit *)




(** *** The file name *)








End DownloaderFacts.





(** ** The per-task runtime *)

Section MainV3Facts.

Import TargetDb Downloader MainV3.

Variable lib : Lib.t.


(** *** The task status *)

(** The per-file steps never write to [crawl_tasks]. *)
Lemma download_one_tasks cfg env task_id w node :
  tasks (download_one lib cfg env task_id w node) = tasks w.
Proof.
  unfold download_one. cbn [create_file_record set_files files disk].
  destruct (download_file _ _ _ _ _ _ _) as [[r d] l].
  repeat case_match; reflexivity.
Qed.

Lemma process_single_file_tasks env w file :
  tasks (_process_single_file env w file) = tasks w.
Proof. unfold _process_single_file. repeat case_match; reflexivity. Qed.

Lemma foldl_tasks {A} (f : World → A → World) (l : list A) w :
  (∀ w a, tasks (f w a) = tasks w) → tasks (foldl f w l) = tasks w.
Proof.
  intros Hf. revert w. induction l as [|a l IH]; intros w; simpl; [done|].
  by rewrite IH, Hf.
Qed.

(** Whatever happens to the files of a task, [download_files] either leaves
    the task row alone or sets its status to [completed]. *)
Lemma download_files_tasks cfg env task_id w :
  tasks (download_files lib cfg env task_id w) = tasks w
  ∨ ∃ kw, p_error_message kw = None
     ∧ tasks (download_files lib cfg env task_id w)
       = update_task_status (tasks w) task_id (L "completed") kw.
Proof.
  unfold download_files. destruct (enable_download cfg); [|by left].
  destruct (get_file_nodes (nodes w) task_id true) as [|n ns] eqn:E; [by left|].
  right. eexists (mkTaskPatch None None _ None). split; [done|].
  cbn [set_tasks tasks]. f_equal.
  apply foldl_tasks. intros; apply download_one_tasks.
Qed.

Lemma process_files_tasks cfg env task_id w :
  tasks (process_files cfg env task_id w) = tasks w.
Proof.
  unfold process_files. destruct (enable_rename cfg); [|done].
  apply foldl_tasks. intros; apply process_single_file_tasks.
Qed.

Lemma update_task_status_lookup t task_id status kw :
  update_task_status t task_id status kw !! task_id
  = update_task_row status kw <$> t !! task_id.
Proof. unfold update_task_status. by rewrite lookup_alter_eq. Qed.

(** What the [try] block of the crawl does to the row of its task: when it
    returns, the status is [completed]; in either case the error text is
    the one the row had. *)
Lemma crawl_try_task_row ce task_id w r :
  tasks w !! task_id = Some r →
  ∃ r', tasks (crawl_try ce task_id w).1 !! task_id = Some r'
    ∧ t_error_message r' = t_error_message r
    ∧ match (crawl_try ce task_id w).2 with
      | inr _ => t_status r' = L "completed" ∧ fault ce = None
      | inl _ => True
      end.
Proof.
  intros Hr. unfold crawl_try, bind, may_raise, modify, ret, raise.
  destruct (fault ce) as [[s msg]|]; [destruct s|]; cbn;
    repeat first [rewrite decide_True by done | rewrite decide_False by done];
    cbn;
    repeat (destruct (batch_insert_nodes _ _ _); cbn);
    rewrite ?update_task_status_lookup, ?Hr; cbn; eauto.
Qed.

(** The row of the task after all phases of a run. *)
Lemma run_phases_task_row cfg env task_id w r :
  tasks w !! task_id = Some r →
  ∃ r', tasks (run_phases lib cfg env task_id w) !! task_id = Some r'
    ∧ if crawl_failed (crawl env) task_id w
      then (∃ e, t_error_message r' = Some e)
           ∧ (t_status r' = L "failed" ∨ t_status r' = L "completed")
      else t_status r' = L "completed"
           ∧ t_error_message r' = t_error_message r.
Proof.
  intros Hr. unfold run_phases.
  set (w1 := crawl_single_link (crawl env) task_id w).
  assert (∃ r1, tasks w1 !! task_id = Some r1
            ∧ if crawl_failed (crawl env) task_id w
              then (∃ e, t_error_message r1 = Some e) ∧ t_status r1 = L "failed"
              else t_status r1 = L "completed"
                   ∧ t_error_message r1 = t_error_message r) as (r1 & H1 & Hc).
  { subst w1. unfold crawl_single_link, crawl_failed.
    destruct (crawl_try_task_row (crawl env) task_id w r Hr) as (r' & E & He & Hs).
    destruct (crawl_try (crawl env) task_id w) as [w' [e|a]]; simpl in *.
    - rewrite update_task_status_lookup, E. simpl. eexists. split; [done|].
      split; [by eexists | done].
    - exists r'. by destruct Hs. }
  set (w2 := if enable_download cfg then download_files lib cfg env task_id w1 else w1).
  assert (∃ r2, tasks w2 !! task_id = Some r2
            ∧ t_error_message r2 = t_error_message r1
            ∧ (t_status r2 = t_status r1 ∨ t_status r2 = L "completed"))
    as (r2 & H2 & He2 & Hs2).
  { subst w2. destruct (enable_download cfg); [|by exists r1; auto].
    destruct (download_files_tasks cfg env task_id w1) as [-> | (kw & Hkw & ->)].
    - exists r1; auto.
    - rewrite update_task_status_lookup, H1. simpl. eexists. split; [done|].
      simpl. rewrite Hkw. auto. }
  assert (tasks (cleanup_task_temp_files lib cfg task_id
            (if enable_rename cfg
             then set_files (λ t, fill_unknown_names lib t task_id)
                    (process_files cfg env task_id w2)
             else w2)) = tasks w2) as ->.
  { destruct (enable_rename cfg); cbn; [apply process_files_tasks | done]. }
  exists r2. split; [done|].
  destruct (crawl_failed (crawl env) task_id w).
  - destruct Hc as [[e He] Hs]. split; [exists e; congruence|].
    destruct Hs2 as [-> | ->]; auto.
  - destruct Hc as [Hs He]. split; [|congruence].
    destruct Hs2 as [-> | ->]; auto.
Qed.


End MainV3Facts.


(** ** The renamer *)

Section RenamerFacts.

Import Renamer.

(** *** [strip] *)

Lemma lstrip_suffix c s : ∃ t, s = t ++ lstrip c s ∧ Forall (λ d, d = c) t.
Proof.
  induction s as [|d s IH]; simpl.
  - by exists [].
  - case_decide as Hd.
    + destruct IH as (t & Ht & Hall). exists (d :: t). split.
      * simpl. by rewrite <- Ht.
      * by constructor.
    + by exists [].
Qed.

Lemma lstrip_head c s : head (lstrip c s) ≠ Some c.
Proof.
  induction s as [|d s IH]; simpl; [done|].
  case_decide; [done|]. simpl. congruence.
Qed.

Lemma lstrip_id c s : head s ≠ Some c → lstrip c s = s.
Proof. destruct s as [|d s]; simpl; [done|]. intros H. case_decide; congruence. Qed.

Lemma lstrip_all c s : Forall (λ d, d = c) s → lstrip c s = [].
Proof.
  induction 1 as [|d s Hd _ IH]; simpl; [done|]. by rewrite decide_True.
Qed.


Lemma rstrip_prefix c s : ∃ t, s = rstrip c s ++ t ∧ Forall (λ d, d = c) t.
Proof.
  unfold rstrip. destruct (lstrip_suffix c (rev s)) as (t & Ht & Hall).
  exists (rev t). split.
  - apply (f_equal (@rev ascii)) in Ht.
    by rewrite rev_involutive, rev_app_distr in Ht.
  - by apply Forall_rev.
Qed.

Lemma last_rev_head {A} (l : list A) : last (rev l) = head l.
Proof. destruct l as [|a l]; [done|]. simpl. by rewrite last_snoc. Qed.

Lemma head_rev_last {A} (l : list A) : head (rev l) = last l.
Proof. by rewrite <- last_rev_head, rev_involutive. Qed.

Lemma rstrip_last c s : last (rstrip c s) ≠ Some c.
Proof. unfold rstrip. rewrite last_rev_head. apply lstrip_head. Qed.


Lemma rstrip_id c s : last s ≠ Some c → rstrip c s = s.
Proof.
  intros H. unfold rstrip. rewrite lstrip_id; [apply rev_involutive|].
  by rewrite head_rev_last.
Qed.

(** The head of a prefix that is cut before a run of [c]. *)
Lemma rstrip_head c s :
  rstrip c s = [] ∨ head (rstrip c s) = head s.
Proof.
  destruct (rstrip_prefix c s) as (t & Ht & _).
  destruct (rstrip c s) as [|d r]; [by left|]. right. by rewrite Ht.
Qed.

(** *** [re.sub] *)

Lemma illegal_us : illegal_char "_"%char = false.
Proof. reflexivity. Qed.

Lemma replace_illegal_legal s :
  Forall (λ c, illegal_char c = false) (replace_illegal s).
Proof.
  unfold replace_illegal. apply Forall_forall. intros c Hc.
  apply list_elem_of_In in Hc. apply in_map_iff in Hc as (d & <- & _).
  destruct (illegal_char d) eqn:E; [reflexivity | exact E].
Qed.


Lemma replace_illegal_id s :
  Forall (λ c, illegal_char c = false) s → replace_illegal s = s.
Proof.
  induction 1 as [|c s Hc _ IH]; [done|]. unfold replace_illegal in *. simpl.
  by rewrite Hc, IH.
Qed.


Lemma collapse_us_cons c d s :
  collapse_us (c :: d :: s)
  = if is_us c && is_us d then collapse_us (d :: s) else c :: collapse_us (d :: s).
Proof. reflexivity. Qed.

Lemma collapse_us_head s : head (collapse_us s) = head s.
Proof.
  induction s as [|c s IH]; [done|]. destruct s as [|d s]; [done|].
  rewrite collapse_us_cons. destruct (is_us c && is_us d) eqn:E; [|done].
  rewrite IH. simpl. apply andb_true_iff in E as [Hc Hd].
  unfold is_us in *. apply bool_decide_eq_true in Hc, Hd. congruence.
Qed.

Lemma collapse_us_sub s c : c ∈ collapse_us s → c ∈ s.
Proof.
  revert c. induction s as [|d s IH]; intros c; [done|].
  destruct s as [|e s]; [done|]. rewrite collapse_us_cons.
  destruct (is_us d && is_us e).
  - intros H. right. by apply IH.
  - rewrite elem_of_cons. intros [->|H]; [by left|]. right. by apply IH.
Qed.




Lemma has_run_spec s :
  Spec.has_run s = false → ∀ a b, s ≠ a ++ "_"%char :: "_"%char :: b.
Proof.
  intros H a. revert s H. induction a as [|x a IH]; intros s H b Hs.
  - subst s. simpl in H. discriminate.
  - subst s. simpl in H. destruct (a ++ _ :: _ :: b) as [|d r] eqn:E.
    + by destruct a.
    + apply orb_false_iff in H as [_ H]. by apply (IH _ H b).
Qed.

Lemma collapse_us_no_run s : Spec.has_run (collapse_us s) = false.
Proof.
  induction s as [|c s IH]; [done|]. destruct s as [|d s]; [done|].
  rewrite collapse_us_cons. destruct (is_us c && is_us d) eqn:E; [done|].
  pose proof (collapse_us_head (d :: s)) as Hh.
  destruct (collapse_us (d :: s)) as [|e r] eqn:Ec; [done|].
  simpl in Hh. injection Hh as ->. cbn [Spec.has_run].
  rewrite E. simpl. exact IH.
Qed.

(** *** [_sanitize_filename] *)

Lemma strip_sub c s : ∃ t u, s = t ++ strip c s ++ u.
Proof.
  unfold strip. destruct (lstrip_suffix c s) as (t & Ht & _).
  destruct (rstrip_prefix c (lstrip c s)) as (u & Hu & _).
  exists t, u. by rewrite <- Hu.
Qed.

(** What the post-processing establishes, for every name. *)
Lemma _sanitize_filename_sanitized s : Spec.sanitized (_sanitize_filename s).
Proof.
  unfold _sanitize_filename, Spec.sanitized.
  set (x := collapse_us (replace_illegal s)).
  destruct (strip_sub "_"%char x) as (t & u & Hx).
  split; [|split; [|split]].
  - assert (Forall (λ c, illegal_char c = false) x) as Hall.
    { apply Forall_forall. intros c Hc. apply collapse_us_sub in Hc.
      pose proof (replace_illegal_legal s) as Hl.
      rewrite Forall_forall in Hl. by apply Hl. }
    rewrite Hx in Hall. apply Forall_app in Hall as [_ Hall].
    by apply Forall_app in Hall as [Hall _].
  - intros a b' Hab.
    apply (has_run_spec x (collapse_us_no_run _) (t ++ a) (b' ++ u)).
    rewrite Hx, Hab. by rewrite <- !app_assoc.
  - unfold strip.
    destruct (rstrip_head "_"%char (lstrip "_"%char x)) as [-> | ->]; [done|].
    apply lstrip_head.
  - apply rstrip_last.
Qed.


(** *** [rsplit], [split], [join] *)

Lemma elem_of_rev {A} (l : list A) x : x ∈ rev l ↔ x ∈ l.
Proof. rewrite !list_elem_of_In. symmetry. apply in_rev. Qed.

Lemma break_at_spec sep s :
  match break_at sep s with
  | Some (a, b) => s = a ++ sep :: b ∧ sep ∉ a
  | None => sep ∉ s
  end.
Proof.
  induction s as [|c s IH]; simpl; [apply not_elem_of_nil|].
  case_decide as Hc.
  - subst c. split; [done | apply not_elem_of_nil].
  - destruct (break_at sep s) as [[a b]|].
    + destruct IH as [-> Ha]. split; [done|].
      rewrite elem_of_cons. intros [?|?]; congruence.
    + rewrite elem_of_cons. intros [?|?]; congruence.
Qed.

Lemma rsplit1_spec sep s :
  match rsplit1 sep s with
  | (h, Some t) => s = h ++ sep :: t ∧ sep ∉ t
  | (h, None) => h = s ∧ sep ∉ s
  end.
Proof.
  unfold rsplit1. pose proof (break_at_spec sep (rev s)) as H.
  destruct (break_at sep (rev s)) as [[a b]|].
  - destruct H as [Hs Ha]. split.
    + apply (f_equal (@rev ascii)) in Hs.
      rewrite rev_involutive, rev_app_distr in Hs. simpl in Hs.
      by rewrite <- app_assoc in Hs.
    + by rewrite elem_of_rev.
  - split; [done|]. by rewrite elem_of_rev in H.
Qed.



Lemma split_nonempty sep s : split sep s ≠ [].
Proof.
  destruct s as [|c s]; simpl; [done|]. case_decide; [done|].
  by destruct (split sep s).
Qed.

Lemma join_cons sep p ps :
  join sep (p :: ps) = p ++ match ps with [] => [] | _ :: _ => sep ++ join sep ps end.
Proof. destruct ps; simpl; [by rewrite app_nil_r | done]. Qed.

(** *** The name made by [rename_from_text] *)











Section WithLib.

Variable lib : Lib.t.


End WithLib.

End RenamerFacts.



(** ** The imputation pass *)

Section ImputationFacts.

Import TargetDb MainV3.

(** *** Counters *)

Import Spec.

Lemma counter_incr_lookup k c w :
  clookup (counter_incr k c) w
  = if decide (w = k) then Some (S (default 0%nat (clookup c k))) else clookup c w.
Proof.
  unfold clookup. induction c as [|[k' n] c IH]; simpl.
  - case_decide as Hw.
    + subst. by rewrite bool_decide_eq_true_2.
    + rewrite bool_decide_eq_false_2; [done | congruence].
  - destruct (decide (k' = k)) as [->|Hk]; simpl.
    + rewrite (bool_decide_eq_true_2 (k = k)) by done. simpl.
      destruct (decide (w = k)) as [->|Hw].
      * by rewrite bool_decide_eq_true_2.
      * rewrite !bool_decide_eq_false_2 by congruence. done.
    + rewrite (bool_decide_eq_false_2 (k' = k)) by done.
      destruct (decide (w = k)) as [->|Hw].
      * rewrite bool_decide_eq_false_2 by done. by rewrite IH.
      * destruct (bool_decide (k' = w)); [done|]. by rewrite IH.
Qed.

Lemma counter_incr_keys k c :
  NoDup (c.*1) → NoDup ((counter_incr k c).*1)
  ∧ ∀ w, w ∈ (counter_incr k c).*1 ↔ w = k ∨ w ∈ c.*1.
Proof.
  induction c as [|[k' n] c IH]; simpl; intros Hnd.
  - split; [apply NoDup_singleton|]. intros w. rewrite list_elem_of_singleton.
    rewrite elem_of_nil. tauto.
  - apply NoDup_cons in Hnd as [Hk' Hnd]. destruct (IH Hnd) as [IH1 IH2].
    case_decide as Hk; simpl.
    + subst. split; [by apply NoDup_cons|]. intros w. rewrite elem_of_cons. tauto.
    + split.
      * apply NoDup_cons. split; [|done]. rewrite IH2.
        intros [?|?]; [congruence | done].
      * intros w. rewrite !elem_of_cons, IH2. tauto.
Qed.

Lemma tally_snoc l k : tally (l ++ [k]) = counter_incr k (tally l).
Proof. unfold tally. by rewrite foldl_app. Qed.

Lemma tally_keys l : NoDup ((tally l).*1) ∧ ∀ w, w ∈ (tally l).*1 ↔ w ∈ l.
Proof.
  induction l as [|k l [IH1 IH2]] using rev_ind.
  - split; [constructor | done].
  - rewrite tally_snoc. destruct (counter_incr_keys k (tally l) IH1) as [H1 H2].
    split; [done|]. intros w. rewrite H2, IH2, elem_of_app, list_elem_of_singleton.
    tauto.
Qed.

Lemma occurrences_snoc w l k :
  Spec.occurrences w (l ++ [k])
  = (Spec.occurrences w l + if decide (k = w) then 1 else 0)%nat.
Proof.
  unfold Spec.occurrences. rewrite filter_app, length_app.
  rewrite filter_cons, filter_nil. by case_decide.
Qed.

Lemma occurrences_pos w l : (0 < Spec.occurrences w l)%nat ↔ w ∈ l.
Proof.
  unfold Spec.occurrences. split.
  - intros H. destruct (filter (λ x, x = w) l) as [|x r] eqn:E; [simpl in H; lia|].
    assert (x ∈ filter (λ x, x = w) l) as Hx by (rewrite E; by left).
    apply list_elem_of_filter in Hx as [-> Hx]. done.
  - intros H. assert (w ∈ filter (λ x, x = w) l) as Hx
      by (by apply list_elem_of_filter).
    destruct (filter (λ x, x = w) l); [by apply elem_of_nil in Hx | simpl; lia].
Qed.

(** A counter fed with [l] holds, for each value, its number of
    occurrences in [l]. *)
Lemma tally_lookup l w :
  clookup (tally l) w
  = if decide (w ∈ l) then Some (Spec.occurrences w l) else None.
Proof.
  induction l as [|k l IH] using rev_ind.
  - rewrite decide_False by apply not_elem_of_nil. done.
  - rewrite tally_snoc, counter_incr_lookup, occurrences_snoc.
    destruct (decide (w = k)) as [->|Hw].
    + rewrite (decide_True (P := k ∈ l ++ [k]))
        by (apply elem_of_app; right; by left).
      rewrite IH, (decide_True (P := k = k)) by done. f_equal.
      case_decide as Hin; simpl; [lia|].
      assert (Spec.occurrences k l = 0%nat) as ->; [|done].
      destruct (Spec.occurrences k l) eqn:E; [done|].
      exfalso. apply Hin, occurrences_pos. lia.
    + rewrite IH, (decide_False (P := k = w)) by done. rewrite Nat.add_0_r.
      destruct (decide (w ∈ l)) as [Hin|Hin].
      * rewrite decide_True; [done|]. apply elem_of_app. by left.
      * rewrite decide_False; [done|].
        rewrite elem_of_app, list_elem_of_singleton. tauto.
Qed.

Lemma clookup_elem c k n :
  NoDup (c.*1) → (k, n) ∈ c → clookup c k = Some n.
Proof.
  unfold clookup. induction c as [|[k' m] c IH]; simpl; intros Hnd Hin.
  - by apply elem_of_nil in Hin.
  - apply NoDup_cons in Hnd as [Hk' Hnd].
    apply elem_of_cons in Hin as [[= <- <-]|Hin].
    + by rewrite bool_decide_eq_true_2.
    + rewrite bool_decide_eq_false_2; [by apply IH|].
      intros ->. apply Hk'. apply list_elem_of_fmap. by exists (k, n).
Qed.

Lemma clookup_Some c k n : clookup c k = Some n → (k, n) ∈ c.
Proof.
  unfold clookup. destruct (find _ c) as [[k' m]|] eqn:E; [|done].
  simpl. intros [= ->]. apply find_some in E as [Hin Hk].
  apply bool_decide_eq_true in Hk. simpl in Hk. subst.
  by apply list_elem_of_In.
Qed.

(** The entry chosen by [most_common1] has the greatest count. *)
Lemma most_common1_max c v :
  most_common1 c = Some v →
  ∃ n, (v, n) ∈ c ∧ ∀ w m, (w, m) ∈ c → (m ≤ n)%nat.
Proof.
  unfold most_common1.
  set (f := λ (best : option (str * nat)) (kv : str * nat),
              match best with
              | None => Some kv
              | Some b => if (b.2 <? kv.2)%nat then Some kv else Some b
              end).
  assert (∀ c best b, foldl f best c = Some b →
            (best = Some b ∨ b ∈ c)
            ∧ (∀ x, x ∈ c → (x.2 ≤ b.2)%nat)
            ∧ (∀ b0, best = Some b0 → (b0.2 ≤ b.2)%nat)) as Hgen.
  { clear. intros c. induction c as [|kv c IH]; intros best b; simpl.
    - intros ->. split; [by left|]. split; [by intros ? ?%elem_of_nil|].
      by intros ? [= ->].
    - intros H. destruct (IH _ _ H) as (H1 & H2 & H3).
      assert (∀ b0, f best kv = Some b0 → (kv.2 ≤ b0.2)%nat
                ∧ (∀ b1, best = Some b1 → (b1.2 ≤ b0.2)%nat)
                ∧ (b0 = kv ∨ best = Some b0)) as Hf.
      { intros b0. unfold f. destruct best as [b1|].
        - destruct (Nat.ltb_spec b1.2 kv.2); intros [= <-].
          + split; [lia|]. split; [intros ? [= <-]; lia | by left].
          + split; [lia|]. split; [by intros ? [= <-] | by right].
        - intros [= <-]. split; [lia|]. split; [done | by left]. }
      destruct (f best kv) as [b0|] eqn:E.
      2:{ unfold f in E. by destruct best as [?|]; [destruct (_ <? _)%nat|]. }
      destruct (Hf b0 eq_refl) as (Hf1 & Hf2 & Hf3).
      specialize (H3 b0 eq_refl). split; [|split].
      + destruct H1 as [[= <-]|H1]; [|right; by right].
        destruct Hf3 as [-> | ->]; [right; by left | by left].
      + intros x [->|Hx]%elem_of_cons; [lia | by apply H2].
      + intros b1 Hb1. specialize (Hf2 b1 Hb1). lia. }
  destruct (foldl f None c) as [[v' n]|] eqn:E; [|done].
  simpl. intros [= ->]. destruct (Hgen _ _ _ E) as (H1 & H2 & _).
  exists n. split; [by destruct H1|]. intros w m Hw. apply (H2 (w, m) Hw).
Qed.

(** [most_common1] of a counter fed with [l] is a most common value of
    [l], and there is one as soon as [l] is not empty. *)
Lemma most_common1_tally l :
  match most_common1 (tally l) with
  | Some v => Spec.most_common l v
  | None => l = []
  end.
Proof.
  destruct (tally_keys l) as [Hnd Hkeys].
  destruct (most_common1 (tally l)) as [v|] eqn:E.
  - destruct (most_common1_max _ _ E) as (n & Hin & Hmax).
    pose proof (clookup_elem _ _ _ Hnd Hin) as Hl.
    rewrite tally_lookup in Hl. case_decide as Hv; [|done].
    injection Hl as <-. split; [done|]. intros w.
    destruct (decide (w ∈ l)) as [Hw|Hw].
    + apply (Hmax w). apply clookup_Some. rewrite tally_lookup.
      by rewrite decide_True.
    + destruct (Spec.occurrences w l) eqn:Ew; [lia|].
      exfalso. apply Hw, occurrences_pos. lia.
  - destruct l as [|k l]; [done|]. exfalso.
    assert (k ∈ (tally (k :: l)).*1) as Hk by (apply Hkeys; by left).
    unfold most_common1 in E.
    destruct (tally (k :: l)) as [|kv c]; [by apply elem_of_nil in Hk|].
    simpl in E.
    assert (∀ c b, ∃ b', foldl (λ (best : option (str * nat)) (kv0 : str * nat),
              match best with
              | Some b0 => if (b0.2 <? kv0.2)%nat then Some kv0 else Some b0
              | None => Some kv0
              end) (Some b) c = Some b') as Hs.
    { clear. intros c. induction c as [|x c IH]; intros b; simpl; [by eexists|].
      destruct (_ <? _)%nat; apply IH. }
    destruct (Hs c kv) as [b' Hb']. rewrite Hb' in E. done.
Qed.

Section WithLib.

Variable lib : Lib.t.

Lemma contributions_snoc field also files f :
  contributions lib field also (files ++ [f])
  = contributions lib field also files
    ++ match contribution lib field also f with Some v => [v] | None => [] end.
Proof.
  unfold contributions. rewrite omap_app. simpl.
  by destruct (contribution lib field also f).
Qed.

(** The three counters of [fill_unknown_names] count the contributions of
    the files, field by field. *)
Lemma collect_tally files :
  collect lib files
  = (tally (contributions lib Lib.j_university [] files),
     tally (contributions lib Lib.j_department [] files),
     tally (contributions lib Lib.j_major [L "全専攻"] files)).
Proof.
  induction files as [|f files IH] using rev_ind; [done|].
  unfold collect in *. rewrite foldl_app, IH. simpl.
  rewrite !contributions_snoc. unfold contribution.
  destruct (f_llm_raw_response f.2) as [[|c raw]|]; simpl;
    rewrite ?app_nil_r; try done.
  destruct (Lib.json_loads lib (c :: raw)) as [d|]; simpl;
    rewrite ?app_nil_r; try done.
  destruct (counted _ (Lib.j_university d)),
           (counted _ (Lib.j_department d)),
           (counted _ (Lib.j_major d));
    by rewrite ?tally_snoc, ?app_nil_r.
Qed.

End WithLib.

(** *** Names *)

Lemma join_split sep s : join [sep] (split sep s) = s.
Proof.
  induction s as [|c s IH]; [done|]. cbn [split].
  pose proof (split_nonempty sep s) as Hne.
  destruct (split sep s) as [|p ps] eqn:E; [done|].
  case_decide as Hc.
  - subst c. rewrite join_cons, IH. done.
  - rewrite join_cons. rewrite join_cons in IH.
    rewrite <- app_comm_cons. by rewrite IH.
Qed.

Lemma rsplit1_join sep s :
  s = (rsplit1 sep s).1
      ++ match (rsplit1 sep s).2 with Some e => sep :: e | None => [] end.
Proof.
  pose proof (rsplit1_spec sep s) as H.
  destruct (rsplit1 sep s) as [h [e|]]; simpl.
  - by destruct H.
  - destruct H as [-> _]. by rewrite app_nil_r.
Qed.

(** A name is its fields joined by underscores, then its extension. *)
Lemma name_fields_join renamed :
  join (L "_") (name_fields renamed).1 ++ (name_fields renamed).2 = renamed.
Proof.
  unfold name_fields. rewrite (rsplit1_join "."%char renamed) at 3.
  destruct (rsplit1 "."%char renamed) as [h [e|]]; simpl;
    by rewrite (join_split "_"%char h).
Qed.

Lemma contains_app a p b : contains (a ++ p ++ b) p = true.
Proof.
  induction a as [|c a IH]; simpl.
  - destruct (p ++ b) eqn:E; simpl.
    + apply app_eq_nil in E as [-> _]. done.
    + rewrite <- E. apply orb_true_iff. left. apply startswith_spec. by exists b.
  - rewrite IH. apply orb_true_r.
Qed.

Lemma join_elem sep parts p :
  p ∈ parts → ∃ a b, join sep parts = a ++ p ++ b.
Proof.
  induction parts as [|q parts IH]; [by intros ?%elem_of_nil|].
  rewrite join_cons. intros [->|Hin]%elem_of_cons.
  - by exists [], (match parts with [] => [] | _ :: _ => sep ++ join sep parts end).
  - destruct (IH Hin) as (a & b & E). destruct parts as [|q' parts].
    + by apply elem_of_nil in Hin.
    + exists (q ++ sep ++ a), b. rewrite E. by rewrite <- !app_assoc.
Qed.

(** A field of a name occurs in the name. *)
Lemma name_fields_contains renamed p :
  p ∈ (name_fields renamed).1 → contains renamed p = true.
Proof.
  intros Hin. rewrite <- (name_fields_join renamed).
  destruct (join_elem (L "_") _ _ Hin) as (a & b & ->).
  rewrite <- !app_assoc. apply contains_app.
Qed.

(** *** The rewriting of a name *)

Lemma fill_position_lookup fill k parts i :
  (fill_position fill k parts).1 !! i
  = (λ p, if decide (i = k ∧ p = L "Unknown")
          then match fill with Some (c :: v) => c :: v | _ => p end
          else p) <$> parts !! i.
Proof.
  assert (∀ g : str → str, (∀ p, g p = p) → parts !! i = g <$> parts !! i) as Hid.
  { intros g Hg. destruct (parts !! i); simpl; by rewrite ?Hg. }
  unfold fill_position. destruct fill as [[|c v]|]; cbn [fst].
  - apply Hid. intros p. by case_decide.
  - destruct (decide (parts !! k = Some (L "Unknown"))) as [Hk|Hk]; cbn [fst].
    + destruct (decide (i = k)) as [->|Hi].
      * rewrite list_lookup_insert_eq by (by eapply lookup_lt_Some).
        rewrite Hk. cbn [fmap option_fmap option_map]. by rewrite decide_True.
      * rewrite list_lookup_insert_ne by done.
        apply Hid. intros p. rewrite decide_False; [done | tauto].
    + destruct (parts !! i) as [p|] eqn:E; [cbn [fmap option_fmap option_map]|done].
      case_decide as Hd; [|done]. destruct Hd as [-> ->]. done.
  - apply Hid. intros p. by case_decide.
Qed.

Lemma fill_position_unchanged fill k parts :
  (fill_position fill k parts).2 = false → (fill_position fill k parts).1 = parts.
Proof. unfold fill_position. by repeat case_match. Qed.

Lemma impute_lookup fu fd fm parts i :
  impute fu fd fm parts !! i
  = (λ p, if decide (p = L "Unknown")
          then match fill_for fu fd fm i with Some (c :: v) => c :: v | _ => p end
          else p) <$> parts !! i.
Proof. unfold impute. by rewrite list_lookup_imap. Qed.

(** The three [if fill ... parts[i] = fill] statements impute the fields. *)
Lemma fill_positions_impute fu fd fm parts :
  (fill_position fm 2
     (fill_position fd 1 (fill_position fu 0 parts).1).1).1
  = impute fu fd fm parts.
Proof.
  apply list_eq. intros i.
  rewrite !fill_position_lookup, impute_lookup.
  destruct (parts !! i) as [p|]; [simpl|done]. f_equal.
  destruct i as [|[|[|i]]]; simpl;
    repeat (case_decide; try (exfalso; lia); try (exfalso; tauto));
    destruct_and?; subst; try done;
    repeat case_match; subst; try done;
    try (exfalso; naive_solver).
Qed.

Lemma impute_no_unknown fu fd fm parts :
  L "Unknown" ∉ parts → impute fu fd fm parts = parts.
Proof.
  intros Hno. apply list_eq. intros i. rewrite impute_lookup.
  destruct (parts !! i) as [p|] eqn:E; [simpl|done].
  rewrite decide_False; [done|]. intros ->. apply Hno.
  by eapply list_elem_of_lookup_2.
Qed.

(** The name stored for a file after the second loop of
    [fill_unknown_names]: the fields of the old name, imputed, joined again,
    with the old extension. *)
Lemma imputed_name_stored fu fd fm c r :
  default (c :: r) (imputed_name fu fd fm (Some (c :: r)))
  = join (L "_") (impute fu fd fm (name_fields (c :: r)).1)
    ++ (name_fields (c :: r)).2.
Proof.
  pose proof (name_fields_join (c :: r)) as Hjoin.
  unfold imputed_name.
  destruct (contains (c :: r) (L "Unknown")) eqn:Hc.
  2:{ rewrite impute_no_unknown; [done|]. intros Hin.
      apply name_fields_contains in Hin. congruence. }
  pose proof (fill_positions_impute fu fd fm (name_fields (c :: r)).1) as Himp.
  unfold name_fields in *.
  destruct (rsplit1 "."%char (c :: r)) as [h [e|]]; cbn [fst snd] in *.
  all: destruct (fill_position fu 0 (split "_"%char h)) as [p0 u0] eqn:E0.
  all: destruct (fill_position fd 1 p0) as [p1 u1] eqn:E1.
  all: destruct (fill_position fm 2 p1) as [p2 u2] eqn:E2.
  all: simpl in Himp.
  all: destruct (u0 || u1 || u2) eqn:Eu.
  all: rewrite E1 in Himp; cbn [fst] in Himp; rewrite E2 in Himp;
       cbn [fst] in Himp; subst p2.
  - case_decide as Hne; cbn [default]; [done|].
    by rewrite <- Hne.
  - apply orb_false_iff in Eu as [Eu ->].
    apply orb_false_iff in Eu as [-> ->].
    pose proof (fill_position_unchanged fu 0 (split "_"%char h)) as F0.
    rewrite E0 in F0. specialize (F0 eq_refl). cbn [fst] in F0. subst p0.
    pose proof (fill_position_unchanged fd 1 (split "_"%char h)) as F1.
    rewrite E1 in F1. specialize (F1 eq_refl). cbn [fst] in F1. subst p1.
    pose proof (fill_position_unchanged fm 2 (split "_"%char h)) as F2.
    rewrite E2 in F2. specialize (F2 eq_refl). cbn [fst] in F2.
    rewrite F2. symmetry. exact Hjoin.
  - case_decide as Hne; cbn [default]; [done|].
    by rewrite <- Hne.
  - apply orb_false_iff in Eu as [Eu ->].
    apply orb_false_iff in Eu as [-> ->].
    pose proof (fill_position_unchanged fu 0 (split "_"%char h)) as F0.
    rewrite E0 in F0. specialize (F0 eq_refl). cbn [fst] in F0. subst p0.
    pose proof (fill_position_unchanged fd 1 (split "_"%char h)) as F1.
    rewrite E1 in F1. specialize (F1 eq_refl). cbn [fst] in F1. subst p1.
    pose proof (fill_position_unchanged fm 2 (split "_"%char h)) as F2.
    rewrite E2 in F2. specialize (F2 eq_refl). cbn [fst] in F2.
    rewrite F2. symmetry. exact Hjoin.
Qed.

(** *** Reading a rewritten name again *)

Lemma break_at_app sep a b :
  sep ∉ a → break_at sep (a ++ sep :: b) = Some (a, b).
Proof.
  induction a as [|c a IH]; simpl; intros Ha.
  - by rewrite decide_True.
  - apply not_elem_of_cons in Ha as [Hc Ha].
    rewrite decide_False by congruence. by rewrite IH.
Qed.

Lemma break_at_None sep s : sep ∉ s → break_at sep s = None.
Proof.
  induction s as [|c s IH]; simpl; intros Hs; [done|].
  apply not_elem_of_cons in Hs as [Hc Hs].
  rewrite decide_False by congruence. by rewrite IH.
Qed.

Lemma rsplit1_app sep h t :
  sep ∉ t → rsplit1 sep (h ++ sep :: t) = (h, Some t).
Proof.
  intros Ht. unfold rsplit1. rewrite rev_app_distr. simpl.
  rewrite <- app_assoc. simpl.
  rewrite break_at_app by (by rewrite elem_of_rev).
  by rewrite !rev_involutive.
Qed.

Lemma rsplit1_None sep s : sep ∉ s → rsplit1 sep s = (s, None).
Proof.
  intros Hs. unfold rsplit1.
  by rewrite break_at_None by (by rewrite elem_of_rev).
Qed.

Lemma split_elem sep s p c : p ∈ split sep s → c ∈ p → c ∈ s ∧ c ≠ sep.
Proof.
  revert p. induction s as [|d s IH]; intros p; cbn [split].
  - intros ->%list_elem_of_singleton ?%elem_of_nil. done.
  - pose proof (split_nonempty sep s) as Hne.
    destruct (split sep s) as [|q qs]; [done|]. case_decide as Hd.
    + intros [->|Hp]%elem_of_cons Hc; [by apply elem_of_nil in Hc|].
      destruct (IH p Hp Hc). split; [by right | done].
    + intros [->|Hp]%elem_of_cons Hc.
      * apply elem_of_cons in Hc as [->|Hc]; [split; [by left | done]|].
        destruct (IH q (ltac:(by left)) Hc). split; [by right | done].
      * destruct (IH p (ltac:(by right)) Hc). split; [by right | done].
Qed.

Lemma split_single sep p : sep ∉ p → split sep p = [p].
Proof.
  induction p as [|c p IH]; intros Hp; [done|]. cbn [split].
  apply not_elem_of_cons in Hp as [Hc Hp].
  rewrite decide_False by congruence. by rewrite IH.
Qed.

Lemma split_app sep p s :
  sep ∉ p → split sep (p ++ sep :: s) = p :: split sep s.
Proof.
  induction p as [|c p IH]; intros Hp.
  - simpl. by rewrite decide_True.
  - apply not_elem_of_cons in Hp as [Hc Hp].
    change ((c :: p) ++ sep :: s) with (c :: (p ++ sep :: s)). cbn [split].
    rewrite decide_False by congruence. by rewrite IH.
Qed.

Lemma split_join sep parts :
  parts ≠ [] → Forall (λ p, sep ∉ p) parts →
  split sep (join [sep] parts) = parts.
Proof.
  induction parts as [|p parts IH]; [done|]. intros _ Hall.
  apply Forall_cons in Hall as [Hp Hall]. rewrite join_cons.
  destruct parts as [|q parts].
  - rewrite app_nil_r. by apply split_single.
  - change (p ++ [sep] ++ join [sep] (q :: parts))
      with (p ++ sep :: join [sep] (q :: parts)).
    rewrite split_app by done. by rewrite IH.
Qed.

Lemma join_no_char c sep parts :
  c ≠ sep → Forall (λ p, c ∉ p) parts → c ∉ join [sep] parts.
Proof.
  intros Hc. induction parts as [|p parts IH]; intros Hall.
  - apply not_elem_of_nil.
  - apply Forall_cons in Hall as [Hp Hall]. rewrite join_cons.
    destruct parts as [|q parts]; [by rewrite app_nil_r|].
    rewrite elem_of_app. intros [?|Hin]; [done|].
    simpl in Hin. apply elem_of_cons in Hin as [?|Hin]; [done|].
    by apply IH.
Qed.

Lemma impute_length fu fd fm parts :
  length (impute fu fd fm parts) = length parts.
Proof. unfold impute. apply length_imap. Qed.

Lemma impute_Forall (P : str → Prop) fu fd fm parts :
  Forall P parts →
  (∀ k v, fill_for fu fd fm k = Some v → P v) →
  Forall P (impute fu fd fm parts).
Proof.
  intros Hparts Hfill. apply Forall_lookup. intros i x.
  rewrite impute_lookup. destruct (parts !! i) as [p|] eqn:E; [simpl|done].
  intros [= <-]. pose proof (Forall_lookup_1 _ _ _ _ Hparts E) as Hp.
  case_decide; [|done].
  destruct (fill_for fu fd fm i) as [[|c v]|] eqn:Ef; try done.
  by apply (Hfill i).
Qed.

(** When the fill values hold neither an underscore nor a dot, the new
    name reads back as the imputed fields and the old extension. *)
Lemma name_fields_reread fu fd fm renamed :
  (∀ k v, fill_for fu fd fm k = Some v → ("_"%char ∉ v) ∧ ("."%char ∉ v)) →
  name_fields (join (L "_") (impute fu fd fm (name_fields renamed).1)
               ++ (name_fields renamed).2)
  = (impute fu fd fm (name_fields renamed).1, (name_fields renamed).2).
Proof.
  intros Hfill. unfold name_fields at 2 3 4 5.
  pose proof (rsplit1_spec "."%char renamed) as Hr.
  destruct (rsplit1 "."%char renamed) as [h [e|]]; cbn [fst snd].
  - destruct Hr as [_ He]. unfold name_fields. rewrite rsplit1_app by done.
    f_equal. apply (split_join "_"%char).
    + intros Hnil. apply (f_equal length) in Hnil.
      rewrite impute_length in Hnil.
      by destruct (split "_"%char h) eqn:E; [apply split_nonempty in E|].
    + apply impute_Forall; [|intros k v Hf; by destruct (Hfill k v Hf)].
      apply Forall_forall. intros p Hp Hin.
      by destruct (split_elem _ _ _ _ Hp Hin).
  - destruct Hr as [-> Hdot]. unfold name_fields. rewrite app_nil_r.
    rewrite rsplit1_None.
    + f_equal. apply (split_join "_"%char).
      * intros Hnil. apply (f_equal length) in Hnil.
        rewrite impute_length in Hnil.
        by destruct (split "_"%char renamed) eqn:E; [apply split_nonempty in E|].
      * apply impute_Forall; [|intros k v Hf; by destruct (Hfill k v Hf)].
        apply Forall_forall. intros p Hp Hin.
        by destruct (split_elem _ _ _ _ Hp Hin).
    + apply (join_no_char _ "_"%char); [done|].
      apply impute_Forall; [|intros k v Hf; by destruct (Hfill k v Hf)].
      apply Forall_forall. intros p Hp Hin.
      destruct (split_elem _ _ _ _ Hp Hin). done.
Qed.

(** *** The files table *)

Lemma order_by_perm {A} (key : A → Z) (l : list A) : order_by key l ≡ₚ l.
Proof. unfold order_by. apply merge_sort_Permutation. Qed.

Lemma file_rows_of_elem t keep i r :
  (i, r) ∈ file_rows_of t keep ↔ ft_rows t !! i = Some r ∧ keep r = true.
Proof.
  unfold file_rows_of. rewrite order_by_perm, list_elem_of_filter.
  rewrite elem_of_map_to_list. simpl. tauto.
Qed.

Lemma file_rows_of_NoDup t keep : NoDup (file_rows_of t keep).*1.
Proof.
  unfold file_rows_of. rewrite order_by_perm.
  eapply sublist_NoDup; [apply (NoDup_fst_map_to_list (ft_rows t))|].
  apply fmap_sublist. apply sublist_filter.
Qed.

Section WithLib.

Variable lib : Lib.t.

Lemma store_imputed_other fu fd fm t f j :
  j ≠ f.1 → ft_rows (store_imputed fu fd fm t f) !! j = ft_rows t !! j.
Proof.
  intros Hj. unfold store_imputed, update_renamed_name_only.
  destruct (imputed_name _ _ _ _); [simpl|done]. by rewrite lookup_alter_ne.
Qed.

Lemma store_imputed_lookup fu fd fm t j r :
  ft_rows (store_imputed fu fd fm t (j, r)) !! j
  = (match imputed_name fu fd fm (f_renamed_name r) with
     | Some new_name => with_rename (Some new_name) None None None
     | None => id
     end) <$> ft_rows t !! j.
Proof.
  unfold store_imputed, update_renamed_name_only. simpl.
  destruct (imputed_name _ _ _ _); simpl.
  - by rewrite lookup_alter_eq.
  - by destruct (ft_rows t !! j).
Qed.

Lemma foldl_store_imputed fu fd fm files t j :
  NoDup files.*1 →
  (j ∉ files.*1 →
   ft_rows (foldl (store_imputed fu fd fm) t files) !! j = ft_rows t !! j)
  ∧ (∀ r, (j, r) ∈ files →
     ft_rows (foldl (store_imputed fu fd fm) t files) !! j
     = ft_rows (store_imputed fu fd fm t (j, r)) !! j).
Proof.
  revert t. induction files as [|f files IH]; intros t Hnd; simpl.
  - split; [done | by intros ? ?%elem_of_nil].
  - apply NoDup_cons in Hnd as [Hf Hnd].
    destruct (IH (store_imputed fu fd fm t f) Hnd) as [IH1 IH2]. split.
    + intros Hj. apply not_elem_of_cons in Hj as [Hj1 Hj2].
      rewrite IH1 by done. by apply store_imputed_other.
    + intros r [<-|Hin]%elem_of_cons.
      * rewrite IH1; [done|]. exact Hf.
      * rewrite (IH2 r) by done.
        assert (j ≠ f.1) as Hj.
        { intros ->. apply Hf. apply list_elem_of_fmap. by exists (f.1, r). }
        rewrite !store_imputed_lookup. by rewrite store_imputed_other.
Qed.

Lemma imputed_name_no_fill renamed : imputed_name None None None renamed = None.
Proof.
  unfold imputed_name. destruct renamed as [[|c r]|]; try done.
  destruct (contains _ _); [|done]. by destruct (rsplit1 _ _) as [h [e|]].
Qed.

Lemma foldl_store_no_fill files t :
  foldl (store_imputed None None None) t files = t.
Proof.
  induction files as [|f files IH]; [done|]. simpl.
  unfold store_imputed at 2. by rewrite imputed_name_no_fill.
Qed.

Lemma most_common1_nil c : c = [] → most_common1 c = None.
Proof. by intros ->. Qed.

(** [fill_unknown_names] is its second loop, run with the fill values of
    the first: the two early returns are runs that change nothing. *)
Lemma fill_unknown_names_loop t task_id :
  let files := get_task_files_with_llm_result t task_id in
  fill_unknown_names lib t task_id
  = foldl (store_imputed (most_common1 (collect lib files).1.1)
                         (most_common1 (collect lib files).1.2)
                         (most_common1 (collect lib files).2))
          t files.
Proof.
  intros files. unfold fill_unknown_names. fold files.
  destruct files as [|f files'] eqn:Ef; [done|].
  destruct (collect lib (f :: files')) as [[us ds] ms]. simpl.
  destruct us, ds, ms; try done. simpl.
  symmetry. apply (foldl_store_no_fill (f :: files')).
Qed.

End WithLib.

Section Imputation.

Variable lib : Lib.t.

Lemma counted_Some also x v :
  counted also x = Some v → v ≠ [] ∧ v ≠ L "Unknown" ∧ v ∉ also.
Proof.
  unfold counted. destruct x as [[|c s]|]; try done.
  repeat case_decide; try done. by intros [= <-].
Qed.

Lemma contributions_elem field also files v :
  v ∈ contributions lib field also files →
  v ≠ [] ∧ v ≠ L "Unknown" ∧ v ∉ also.
Proof.
  unfold contributions. rewrite list_elem_of_omap. intros (f & _ & Hf).
  unfold contribution in Hf.
  destruct (f_llm_raw_response f.2) as [[|c raw]|]; try done.
  destruct (Lib.json_loads lib (c :: raw)) as [d|]; [simpl in Hf|done].
  by apply counted_Some in Hf.
Qed.

Lemma with_rename_same r name :
  f_renamed_name r = Some name → with_rename (Some name) None None None r = r.
Proof. destruct r. simpl. by intros ->. Qed.

(** C3, amended: the imputation pass takes, for each of university,
    department and major, a most common value among the values the files of
    the task contribute (read from their stored LLM answers), where a value
    that is empty or ['Unknown'] does not count and, for the major, neither
    does ['全専攻'].  It then stores for every processed file of the task the
    name made of the old fields with every ['Unknown'] in position 0, 1 or 2
    replaced by the fill value of that position, when there is one.  Fields
    that are not ['Unknown'], all fields from position 3 on, the number of
    fields and the extension are as before, and so is every other column and
    every other row; with fill values free of underscores and dots the new
    name reads back as exactly these fields and this extension. *)
Theorem C3_fill_unknown_names
    (ft : FileTable) (task_id i : Z) (r : FileRow) (c : ascii) (renamed : str) :
  ft_rows ft !! i = Some r →
  f_task_id r = task_id →
  f_llm_processed r = true →
  f_renamed_name r = Some (c :: renamed) →
  let files := get_task_files_with_llm_result ft task_id in
  let fu := most_common1 (collect lib files).1.1 in
  let fd := most_common1 (collect lib files).1.2 in
  let fm := most_common1 (collect lib files).2 in
  let parts := (name_fields (c :: renamed)).1 in
  let ext := (name_fields (c :: renamed)).2 in
  let parts' := impute fu fd fm parts in
  match fu with
  | Some v => most_common (contributions lib Lib.j_university [] files) v
  | None => contributions lib Lib.j_university [] files = []
  end
  ∧ match fd with
    | Some v => most_common (contributions lib Lib.j_department [] files) v
    | None => contributions lib Lib.j_department [] files = []
    end
  ∧ match fm with
    | Some v => most_common (contributions lib Lib.j_major [L "全専攻"] files) v
    | None => contributions lib Lib.j_major [L "全専攻"] files = []
    end
  ∧ (∀ k v, fill_for fu fd fm k = Some v → v ≠ [] ∧ v ≠ L "Unknown")
  ∧ ft_rows (fill_unknown_names lib ft task_id) !! i
    = Some (with_rename (Some (join (L "_") parts' ++ ext)) None None None r)
  ∧ (∀ k v, fill_for fu fd fm k = Some v → parts !! k = Some (L "Unknown") →
       parts' !! k = Some v)
  ∧ (∀ k p, parts !! k = Some p →
       p ≠ L "Unknown" ∨ fill_for fu fd fm k = None → parts' !! k = Some p)
  ∧ (∀ k, (3 ≤ k)%nat → parts' !! k = parts !! k)
  ∧ length parts' = length parts
  ∧ ((∀ k v, fill_for fu fd fm k = Some v → ("_"%char ∉ v) ∧ ("."%char ∉ v)) →
     name_fields (join (L "_") parts' ++ ext) = (parts', ext))
  ∧ (∀ j r0, ft_rows ft !! j = Some r0 →
       f_task_id r0 ≠ task_id ∨ f_llm_processed r0 = false →
       ft_rows (fill_unknown_names lib ft task_id) !! j = Some r0).
Proof.
  intros Hr Ht Hp Hn files fu fd fm parts ext parts'.
  pose proof (collect_tally lib files) as Hc.
  assert (match fu with
          | Some v => most_common (contributions lib Lib.j_university [] files) v
          | None => contributions lib Lib.j_university [] files = []
          end) as Hu.
  { subst fu. rewrite Hc. apply most_common1_tally. }
  assert (match fd with
          | Some v => most_common (contributions lib Lib.j_department [] files) v
          | None => contributions lib Lib.j_department [] files = []
          end) as Hd.
  { subst fd. rewrite Hc. apply most_common1_tally. }
  assert (match fm with
          | Some v => most_common (contributions lib Lib.j_major [L "全専攻"] files) v
          | None => contributions lib Lib.j_major [L "全専攻"] files = []
          end) as Hm.
  { subst fm. rewrite Hc. apply most_common1_tally. }
  clear Hc.
  assert (∀ k v, fill_for fu fd fm k = Some v → v ≠ [] ∧ v ≠ L "Unknown") as Hfill.
  { intros k v Hk. destruct k as [|[|[|k]]]; simpl in Hk; [| | |done].
    - rewrite Hk in Hu. destruct Hu as [Hin _].
      apply contributions_elem in Hin. tauto.
    - rewrite Hk in Hd. destruct Hd as [Hin _].
      apply contributions_elem in Hin. tauto.
    - rewrite Hk in Hm. destruct Hm as [Hin _].
      apply contributions_elem in Hin. tauto. }
  split; [done|]. split; [done|]. split; [done|]. split; [done|].
  pose proof (fill_unknown_names_loop lib ft task_id) as Hloop.
  cbn zeta in Hloop. fold files fu fd fm in Hloop.
  destruct (foldl_store_imputed fu fd fm files ft i (file_rows_of_NoDup _ _))
    as [_ Hsel].
  split.
  { assert ((i, r) ∈ files) as Hin.
    { apply file_rows_of_elem. split; [done|].
      rewrite Hp, andb_true_r. by apply bool_decide_eq_true. }
    rewrite Hloop, (Hsel r Hin), store_imputed_lookup, Hr, Hn.
    cbn [fmap option_fmap option_map]. f_equal.
    pose proof (imputed_name_stored fu fd fm c renamed) as Hst.
    fold parts ext parts' in Hst.
    destruct (imputed_name fu fd fm (Some (c :: renamed))) as [new|].
    - change (new = join (L "_") parts' ++ ext) in Hst. by rewrite Hst.
    - change (c :: renamed = join (L "_") parts' ++ ext) in Hst.
      rewrite <- Hst. symmetry. by apply with_rename_same. }
  split.
  { intros k v Hk Hpk. subst parts'. rewrite impute_lookup, Hpk, Hk.
    cbn [fmap option_fmap option_map]. rewrite decide_True by done.
    destruct (Hfill k v Hk) as [Hne _]. by destruct v. }
  split.
  { intros k p Hpk Hor. subst parts'. rewrite impute_lookup, Hpk.
    cbn [fmap option_fmap option_map]. case_decide as Hp'; [|done].
    destruct Hor as [?| ->]; done. }
  split.
  { intros k Hk. subst parts'. rewrite impute_lookup.
    assert (fill_for fu fd fm k = None) as ->
      by (destruct k as [|[|[|k]]]; [lia | lia | lia | done]).
    destruct (parts !! k); [|done]. cbn [fmap option_fmap option_map].
    by case_decide. }
  split; [apply impute_length|].
  split; [apply name_fields_reread|].
  intros j r0 Hr0 Hor.
  destruct (foldl_store_imputed fu fd fm files ft j (file_rows_of_NoDup _ _))
    as [Hout _].
  rewrite Hloop, Hout; [done|].
  intros Hin. apply list_elem_of_fmap in Hin as ([j' r1] & -> & Hin).
  apply file_rows_of_elem in Hin as [Hr1 Hk]. simpl in Hr0.
  rewrite Hr0 in Hr1. injection Hr1 as <-.
  apply andb_true_iff in Hk as [Hk1 Hk2]. apply bool_decide_eq_true in Hk1.
  destruct Hor as [?|?]; congruence.
Qed.

End Imputation.

End ImputationFacts.

(** C3 fails as stated: of three files, two name the major [全専攻] and one
    [数学専攻]; the imputed major is [数学専攻], although [全専攻] is the more
    common value that is not ['Unknown']. *)
Lemma C3_major_skips_all_majors_value :
  ¬ Spec.major_is_most_common_non_unknown Examples.lib2
      (TargetDb.get_task_files_with_llm_result Examples.three_files 1).
Proof.
  intros H. destruct (H (L "数学専攻")) as [_ Hmax]; [by vm_compute|].
  specialize (Hmax (L "全専攻")). vm_compute in Hmax. lia.
Qed.

(** The witness of C3: the [Unknown] major of file 1 becomes [数学専攻]. *)
Lemma C3_fill_unknown_names_witness :
  TargetDb.f_renamed_name
    <$> TargetDb.ft_rows
          (MainV3.fill_unknown_names Examples.lib2 Examples.three_files 1) !! 1
  = Some (Some (L "東京大学_理学部_数学専攻_修士_2025_4月_募集要項_概要.pdf")).
Proof.
  destruct (C3_fill_unknown_names Examples.lib2 Examples.three_files 1 1
              (Examples.renamed_row
                 (L "東京大学_理学部_Unknown_修士_2025_4月_募集要項_概要.pdf") (L "A"))
              _ _ eq_refl eq_refl eq_refl eq_refl)
    as (_ & _ & _ & _ & Hrow & _).
  rewrite Hrow. vm_compute. reflexivity.
Defined.

(** ** The sync detector *)

Section SyncFacts.

Import TargetDb Sync.

Lemma order_by_sorted {A} (key : A → Z) (l : list A) :
  StronglySorted (λ a b, key a ≤ key b) (order_by key l).
Proof.
  unfold order_by. apply StronglySorted_merge_sort.
  - intros a b c. lia.
  - intros a b. lia.
Qed.

Lemma sublist_StronglySorted {A} (R : relation A) (l k : list A) :
  l `sublist_of` k → StronglySorted R k → StronglySorted R l.
Proof.
  induction 1 as [|x l k Hs IH|x l k Hs IH]; intros Hk.
  - constructor.
  - apply StronglySorted_inv in Hk as [Hk Hall]. constructor; [by apply IH|].
    apply Forall_forall. intros y Hy. rewrite Forall_forall in Hall.
    apply Hall. by eapply elem_of_sublist.
  - apply StronglySorted_inv in Hk as [Hk _]. by apply IH.
Qed.

(** *** The loops *)

Lemma dedup_by_url_first l : dedup_by_url l = Spec.first_by_url [] l.
Proof.
  unfold dedup_by_url.
  assert (∀ seen acc,
    (foldl (λ (st : list str * list LinkRecord) link,
              if decide (url link ∈ st.1) then st
              else (url link :: st.1, st.2 ++ [link])) (seen, acc) l).2
    = acc ++ Spec.first_by_url seen l) as H.
  { induction l as [|x l IH]; intros seen acc; simpl.
    - by rewrite app_nil_r.
    - case_decide; [apply IH|]. rewrite IH. by rewrite <- app_assoc. }
  apply (H [] []).
Qed.

(** A link is kept exactly when it is the first of its URL. *)
Lemma first_by_url_elem seen l x :
  x ∈ Spec.first_by_url seen l
  ↔ ∃ l1 l2, l = l1 ++ x :: l2 ∧ (url x ∉ seen) ∧ (url x ∉ url <$> l1).
Proof.
  revert seen. induction l as [|y l IH]; intros seen; simpl.
  - split; [by intros ?%elem_of_nil | by intros ([|? ?] & ? & ? & _)].
  - case_decide as Hy.
    + rewrite IH. split.
      * intros (l1 & l2 & -> & Hs & H1). exists (y :: l1), l2.
        split; [done|]. split; [done|]. rewrite fmap_cons, not_elem_of_cons.
        split; [intros E; apply Hs; by rewrite E | done].
      * intros ([|z l1] & l2 & E & Hs & H1); simpl in E; injection E as -> ->.
        -- done.
        -- rewrite fmap_cons, not_elem_of_cons in H1. exists l1, l2.
           split; [done|]. split; [done | tauto].
    + rewrite elem_of_cons, IH. split.
      * intros [->|(l1 & l2 & -> & Hs & H1)].
        -- exists [], l. split; [done|]. split; [done|]. apply not_elem_of_nil.
        -- apply not_elem_of_cons in Hs as [Hxy Hs]. exists (y :: l1), l2.
           split; [done|]. split; [done|]. rewrite fmap_cons, not_elem_of_cons.
           done.
      * intros ([|z l1] & l2 & E & Hs & H1); simpl in E; injection E as -> ->.
        -- by left.
        -- right. rewrite fmap_cons, not_elem_of_cons in H1. exists l1, l2.
           split; [done|]. split; [|tauto]. rewrite not_elem_of_cons. tauto.
Qed.

Lemma first_by_url_NoDup seen l : NoDup (url <$> Spec.first_by_url seen l).
Proof.
  revert seen. induction l as [|y l IH]; intros seen; simpl; [constructor|].
  case_decide; [apply IH|]. rewrite fmap_cons. apply NoDup_cons. split; [|apply IH].
  rewrite list_elem_of_fmap. intros (x & Hx & Hin).
  apply first_by_url_elem in Hin as (_ & _ & _ & Hs & _).
  apply Hs. rewrite <- Hx. by left.
Qed.

Lemma first_by_url_cover seen l x :
  x ∈ l → url x ∉ seen → ∃ y, y ∈ Spec.first_by_url seen l ∧ url y = url x.
Proof.
  revert seen. induction l as [|z l IH]; intros seen; [by intros ?%elem_of_nil|].
  intros [->|Hin]%elem_of_cons Hs; simpl.
  - rewrite decide_False by done. exists z. split; [by left | done].
  - case_decide as Hz; [by apply IH|].
    destruct (decide (url x = url z)) as [E|E].
    + exists z. split; [by left | done].
    + destruct (IH (url z :: seen) Hin) as (y & Hy & Ey).
      * rewrite not_elem_of_cons. done.
      * exists y. split; [by right | done].
Qed.

(** [append_missing] keeps what is there and appends, in their order,
    links that are not there yet. *)
Lemma append_missing_spec acc links :
  ∃ extra, append_missing acc links = acc ++ extra
    ∧ extra `sublist_of` links
    ∧ ∀ x, x ∈ acc ++ extra ↔ x ∈ acc ∨ x ∈ links.
Proof.
  unfold append_missing. revert acc.
  induction links as [|y links IH]; intros acc; simpl.
  - exists []. rewrite app_nil_r. split; [done|]. split; [done|].
    intros x. rewrite elem_of_nil. tauto.
  - case_decide as Hy.
    + destruct (IH acc) as (extra & -> & Hsub & Hel). exists extra.
      split; [done|]. split; [by apply sublist_cons|].
      intros x. rewrite Hel, elem_of_cons. split; [tauto|].
      intros [?|[->|?]]; tauto.
    + destruct (IH (acc ++ [y])) as (extra & -> & Hsub & Hel).
      exists (y :: extra). rewrite <- app_assoc. split; [done|].
      split; [by apply sublist_skip|].
      intros x. rewrite (cons_middle y acc extra), app_assoc, Hel.
      rewrite elem_of_app, list_elem_of_singleton, elem_of_cons. tauto.
Qed.

Lemma filter_by_type_elem ty l x :
  x ∈ filter_by_type ty l ↔ Spec.kind_ok ty x ∧ x ∈ l.
Proof.
  unfold filter_by_type, Spec.kind_ok. destruct ty as [[|c ty]|]; try tauto.
  by rewrite list_elem_of_filter.
Qed.

Lemma filter_by_type_app ty a b :
  filter_by_type ty (a ++ b) = filter_by_type ty a ++ filter_by_type ty b.
Proof.
  unfold filter_by_type. destruct ty as [[|c ty]|]; try done. apply filter_app.
Qed.

Lemma filter_by_type_sublist ty l : filter_by_type ty l `sublist_of` l.
Proof.
  unfold filter_by_type. destruct ty as [[|c ty]|]; try done.
  apply sublist_filter.
Qed.

(** In a list made of three parts, the middle one in ascending id: a
    retained link whose URL is not in the first part has the lowest id of the
    links with its URL in the middle part. *)
Lemma first_by_url_lowest_in_part (A S B : list LinkRecord) x x' :
  StronglySorted Spec.by_id S →
  x ∈ Spec.first_by_url [] (A ++ S ++ B) →
  url x ∉ url <$> A →
  x' ∈ S → url x' = url x →
  id x ≤ id x'.
Proof.
  intros HS (l1 & l2 & Heq & _ & Hl1)%first_by_url_elem HA Hx' Hu.
  assert (Hnot : ∀ k, x' ∈ k → k `sublist_of` l1 → False).
  { intros k Hk Hsub. apply Hl1. rewrite <- Hu. apply list_elem_of_fmap.
    exists x'. split; [done|]. by eapply elem_of_sublist. }
  assert (Hin : ∀ k k', S = k ++ x :: k' → k `sublist_of` l1 → id x ≤ id x').
  { intros k k' -> Hsub. apply elem_of_app in Hx' as [Hk|Hk].
    - destruct (Hnot k Hk Hsub).
    - apply elem_of_cons in Hk as [->|Hk]; [lia|].
      apply StronglySorted_app_1_r, StronglySorted_inv in HS as [_ Hall].
      rewrite Forall_forall in Hall. by apply Hall. }
  apply app_eq_inv in Heq as [(k & -> & Heq)|(k & -> & Heq)].
  - destruct k as [|y k]; simpl in Heq.
    + destruct S as [|y S]; [by apply elem_of_nil in Hx'|].
      simpl in Heq. injection Heq as <- _.
      apply (Hin [] S); [done | apply sublist_nil_l].
    + injection Heq as <- _. destruct HA. rewrite fmap_app, fmap_cons.
      apply elem_of_app. right. by left.
  - apply app_eq_inv in Heq as [(k' & -> & Heq)|(k' & -> & Heq)].
    + destruct k' as [|y k']; simpl in Heq.
      * rewrite app_nil_r in Hx'. destruct (Hnot k Hx').
        by apply sublist_inserts_l.
      * injection Heq as <- _. apply (Hin k k'); [done|].
        by apply sublist_inserts_l.
    + destruct (Hnot S Hx'). apply sublist_inserts_l, sublist_inserts_r. done.
Qed.

Section WithLib.

Variable lib : Lib.t.
Variable src : SourceDatabase.
Variable tasks : gmap Z TaskRow.

Lemma get_all_links_sorted : StronglySorted Spec.by_id (get_all_links src).
Proof. apply (order_by_sorted id). Qed.

Lemma detect_new_links_sorted :
  StronglySorted Spec.by_id (detect_new_links src tasks).
Proof.
  eapply sublist_StronglySorted; [|apply get_all_links_sorted].
  apply sublist_filter.
Qed.

Lemma detect_changed_links_sorted :
  StronglySorted Spec.by_id (detect_changed_links lib src tasks).
Proof.
  eapply sublist_StronglySorted; [|apply get_all_links_sorted].
  apply sublist_filter.
Qed.

Lemma failed_links_sorted : StronglySorted Spec.by_id (failed_links src tasks).
Proof.
  unfold failed_links, get_links_by_ids.
  destruct (_ <$> detect_failed_tasks tasks); [constructor|].
  apply (order_by_sorted id).
Qed.

(** The merged list: the new links, then the changed links that are not
    among them, then the failed links that are not yet there. *)
Lemma merged_links_structure inc_f inc_c :
  ∃ ec ef,
    merged_links lib src tasks inc_f inc_c = detect_new_links src tasks ++ ec ++ ef
    ∧ ec `sublist_of` detect_changed_links lib src tasks
    ∧ ef `sublist_of` failed_links src tasks
    ∧ ∀ x, x ∈ merged_links lib src tasks inc_f inc_c
           ↔ x ∈ detect_new_links src tasks
             ∨ (inc_c = true ∧ x ∈ detect_changed_links lib src tasks)
             ∨ (inc_f = true ∧ x ∈ failed_links src tasks).
Proof.
  unfold merged_links, run_detection. cbn [fst new_links changed_links failed_tasks].
  set (new := detect_new_links src tasks).
  set (changed := detect_changed_links lib src tasks).
  assert (∃ ec, (if inc_c then append_missing new changed else new) = new ++ ec
            ∧ ec `sublist_of` changed
            ∧ ∀ x, x ∈ new ++ ec ↔ x ∈ new ∨ (inc_c = true ∧ x ∈ changed))
    as (ec & -> & Hec & Hel).
  { destruct inc_c.
    - destruct (append_missing_spec new changed) as (ec & -> & Hs & He).
      exists ec. split; [done|]. split; [done|]. intros x. rewrite He. tauto.
    - exists []. rewrite app_nil_r. split; [done|].
      split; [apply sublist_nil_l|]. intros x. split; [tauto|].
      intros [?|[? _]]; done. }
  destruct inc_f.
  - unfold failed_links.
    destruct (_ <$> detect_failed_tasks tasks) as [|i ids] eqn:E.
    + exists ec, []. rewrite app_nil_r. split; [done|]. split; [done|].
      split; [apply sublist_nil_l|]. intros x. rewrite Hel.
      unfold get_links_by_ids. rewrite elem_of_nil. tauto.
    + destruct (append_missing_spec (new ++ ec) (get_links_by_ids src (i :: ids)))
        as (ef & -> & Hs & He).
      exists ec, ef. rewrite <- app_assoc. split; [done|]. split; [done|].
      split; [done|]. intros x. rewrite app_assoc, He, Hel. tauto.
  - exists ec, []. rewrite app_nil_r. split; [done|]. split; [done|].
    split; [apply sublist_nil_l|]. intros x. rewrite Hel. split; [tauto|].
    intros [?|[?|[? _]]]; [tauto | tauto | done].
Qed.

(** C4 (amended): the pending links are the new links, the changed links
    (when asked for) and the links of the failed tasks (when asked for),
    merged in that order without repeating a record, each group in ascending
    id, then filtered by kind; with URL de-duplication the result keeps, for
    every URL among these candidates, exactly its first occurrence. The
    retained link therefore has the lowest id among the links with its URL in
    the first group that has the URL (new before changed before failed), not
    among all candidates. Without de-duplication the candidates are returned
    as they are. *)
Theorem C4_get_pending_links (include_failed include_changed : bool)
    (link_type : option str) :
  let new := detect_new_links src tasks in
  let changed := detect_changed_links lib src tasks in
  let failed := failed_links src tasks in
  let candidates :=
    filter_by_type link_type
      (merged_links lib src tasks include_failed include_changed) in
  let result :=
    get_pending_links lib src tasks include_failed include_changed link_type true in
  (∀ x, x ∈ candidates
        ↔ Spec.kind_ok link_type x
          ∧ (x ∈ new ∨ (include_changed = true ∧ x ∈ changed)
             ∨ (include_failed = true ∧ x ∈ failed)))
  ∧ StronglySorted Spec.by_id new
  ∧ StronglySorted Spec.by_id changed
  ∧ StronglySorted Spec.by_id failed
  ∧ (∃ ec ef,
       ec `sublist_of` changed ∧ ef `sublist_of` failed
       ∧ candidates
         = filter_by_type link_type new ++ filter_by_type link_type ec
           ++ filter_by_type link_type ef
       ∧ ∀ x x', x ∈ result → url x' = url x →
           (x' ∈ filter_by_type link_type new → id x ≤ id x')
           ∧ (x' ∈ filter_by_type link_type ec →
              url x ∉ url <$> filter_by_type link_type new → id x ≤ id x')
           ∧ (x' ∈ filter_by_type link_type ef →
              url x ∉ url <$> (filter_by_type link_type new
                               ++ filter_by_type link_type ec) →
              id x ≤ id x'))
  ∧ result = Spec.first_by_url [] candidates
  ∧ NoDup (url <$> result)
  ∧ (∀ x, x ∈ result → x ∈ candidates)
  ∧ (∀ x, x ∈ candidates → ∃ y, y ∈ result ∧ url y = url x)
  ∧ (∀ x, x ∈ result
          ↔ ∃ l1 l2, candidates = l1 ++ x :: l2 ∧ url x ∉ url <$> l1)
  ∧ get_pending_links lib src tasks include_failed include_changed link_type false
    = candidates.
Proof.
  intros new changed failed candidates result.
  assert (Hres : result = Spec.first_by_url [] candidates).
  { subst result candidates. unfold get_pending_links. apply dedup_by_url_first. }
  assert (Hchar : ∀ x, x ∈ result
            ↔ ∃ l1 l2, candidates = l1 ++ x :: l2 ∧ url x ∉ url <$> l1).
  { intros x. rewrite Hres, first_by_url_elem. split.
    - intros (l1 & l2 & ? & _ & ?). by exists l1, l2.
    - intros (l1 & l2 & ? & ?). exists l1, l2. split; [done|].
      split; [by intros ?%elem_of_nil | done]. }
  destruct (merged_links_structure include_failed include_changed)
    as (ec & ef & Hm & Hec & Hef & Hel).
  pose proof detect_new_links_sorted as Hn.
  pose proof detect_changed_links_sorted as Hc.
  pose proof failed_links_sorted as Hf.
  assert (Hsorted : ∀ l k, l `sublist_of` k → StronglySorted Spec.by_id k →
            StronglySorted Spec.by_id (filter_by_type link_type l)).
  { intros l k Hlk Hk. eapply sublist_StronglySorted; [|exact Hk].
    etrans; [apply filter_by_type_sublist | done]. }
  assert (Hcands : candidates
            = filter_by_type link_type new ++ filter_by_type link_type ec
              ++ filter_by_type link_type ef).
  { subst candidates. fold new in Hm. by rewrite Hm, !filter_by_type_app. }
  split.
  { intros x. subst candidates. rewrite filter_by_type_elem, Hel. done. }
  split; [done|]. split; [done|]. split; [done|]. split.
  { exists ec, ef. split; [done|]. split; [done|]. split; [done|].
    intros x x' Hx Hu. rewrite Hres, Hcands in Hx. split; [|split].
    - intros Hx'.
      apply (first_by_url_lowest_in_part [] (filter_by_type link_type new)
               (filter_by_type link_type ec ++ filter_by_type link_type ef));
        [by apply (Hsorted new new) | done | by intros ?%elem_of_nil | done | done].
    - intros Hx' Hnew.
      apply (first_by_url_lowest_in_part (filter_by_type link_type new)
               (filter_by_type link_type ec) (filter_by_type link_type ef));
        [by apply (Hsorted ec changed) | done | done | done | done].
    - intros Hx' Hnew.
      apply (first_by_url_lowest_in_part
               (filter_by_type link_type new ++ filter_by_type link_type ec)
               (filter_by_type link_type ef) []);
        [by apply (Hsorted ef failed) | | done | done | done].
      by rewrite app_nil_r, <- app_assoc. }
  split; [done|]. split; [rewrite Hres; apply first_by_url_NoDup|].
  split.
  { intros x (l1 & l2 & -> & _)%Hchar. apply elem_of_app. right. by left. }
  split.
  { intros x Hx. rewrite Hres. apply first_by_url_cover; [done|].
    by intros ?%elem_of_nil. }
  split; [done|]. done.
Qed.

End WithLib.

End SyncFacts.

(** C4, as first stated, fails: upstream lists one URL under the rows 2 and
    5, and the task of row 2 has failed. Row 5 is new and row 2 is a failed
    link, so row 5 comes first and is retained, although row 2 has the
    lower id. *)
Lemma C4_later_group_loses_to_new_link :
  let candidates :=
    Sync.get_pending_links Examples.lib0 Examples.two_rows Examples.failed_task
      true true None false in
  let result :=
    Sync.get_pending_links Examples.lib0 Examples.two_rows Examples.failed_task
      true true None true in
  (Sync.id <$> candidates) = [5; 2]
  ∧ (Sync.id <$> result) = [5]
  ∧ ¬ Spec.retains_lowest_source_id candidates result.
Proof.
  assert (Hc : Sync.get_pending_links Examples.lib0 Examples.two_rows
                 Examples.failed_task true true None false
               = [Examples.link 5 (L "undergraduate") (L "http://u.example/admissions");
                  Examples.link 2 (L "graduate") (L "http://u.example/admissions")])
    by (vm_compute; reflexivity).
  assert (Hr : Sync.get_pending_links Examples.lib0 Examples.two_rows
                 Examples.failed_task true true None true
               = [Examples.link 5 (L "undergraduate") (L "http://u.example/admissions")])
    by (vm_compute; reflexivity).
  cbv zeta. rewrite Hc, Hr. split; [done|]. split; [done|].
  intros H.
  specialize (H (Examples.link 5 (L "undergraduate") (L "http://u.example/admissions"))
                (Examples.link 2 (L "graduate") (L "http://u.example/admissions"))).
  cbn in H. assert (5 ≤ 2) by (apply H; [by left | by right; left | done]). lia.
Qed.

(** ** The retry decorator *)

Section RetryFacts.

Import Retry.

Context {St A : Type}.
Variable func : St → St * Outcome A.
Variable _reconnect : St → St.

Lemma attempts_caught delay from n rest last s :
  (∀ j, (j < n)%nat →
        ∃ e, (func (state_before func _reconnect j s)).2 = RaisesCaught e) →
  attempts func _reconnect delay (seq from n ++ rest) last s
  = let '(s', out, log) :=
      attempts func _reconnect delay rest
        (match n with
         | O => last
         | S n' =>
             match (func (state_before func _reconnect n' s)).2 with
             | RaisesCaught e => Some e
             | _ => last
             end
         end)
        (state_before func _reconnect n s) in
    (s', out, backoff delay from n ++ log).
Proof.
  revert from last s. induction n as [|n IH]; intros from last s Hall.
  - simpl. destruct (attempts _ _ _ _ _ _) as [[? ?] ?]; reflexivity.
  - destruct (Hall O ltac:(lia)) as [e He]. simpl in He.
    cbn [seq app attempts]. destruct (func s) as [s1 o1] eqn:Ef.
    simpl in He. subst o1. rewrite (IH (S from) (Some e) (_reconnect s1)).
    + cbn [state_before]. rewrite Ef. cbn [fst].
      destruct n as [|n'].
      * cbn [state_before]. rewrite Ef. cbn [snd].
        destruct (attempts _ _ _ _ _ _) as [[? ?] ?]; reflexivity.
      * destruct (Hall (S n') ltac:(lia)) as [e' He'].
        cbn [state_before] in He'. rewrite Ef in He'. cbn [fst] in He'.
        cbn [state_before]. rewrite Ef. cbn [fst]. rewrite He'.
        destruct (attempts _ _ _ _ _ _) as [[? ?] ?]; reflexivity.
    + intros j Hj. destruct (Hall (S j) ltac:(lia)) as [e' He'].
      cbn [state_before] in He'. rewrite Ef in He'. by exists e'.
Qed.

Lemma slept_backoff delay from n :
  slept (backoff delay from n)
  = delay * (Z.of_nat n * Z.of_nat from + Z.of_nat n * (Z.of_nat n + 1) / 2).
Proof.
  revert from. induction n as [|n IH]; intros from.
  - change (slept (backoff delay from 0)) with 0.
    change (Z.of_nat 0) with 0. rewrite !Z.mul_0_l, Z.div_0_l by lia. lia.
  - change (slept (backoff delay from (S n)))
      with (delay * (Z.of_nat from + 1) + slept (backoff delay (S from) n)).
    rewrite IH, <- Z.mul_add_distr_l. f_equal.
    assert (Z.of_nat (S n) * (Z.of_nat (S n) + 1) / 2
            = Z.of_nat n * (Z.of_nat n + 1) / 2 + (Z.of_nat n + 1)) as ->.
    { replace (Z.of_nat (S n) * (Z.of_nat (S n) + 1))
        with (Z.of_nat n * (Z.of_nat n + 1) + (Z.of_nat n + 1) * 2) by lia.
      by rewrite Z.div_add by lia. }
    lia.
Qed.

Lemma calls_backoff delay from n : calls (backoff delay from n) = n.
Proof.
  revert from. induction n as [|n IH]; intros from; [done|].
  unfold calls in *. cbn [backoff]. rewrite filter_cons_True by done.
  rewrite filter_cons_False by done. rewrite filter_cons_False by done.
  simpl. by rewrite IH.
Qed.

(** [with_retry]: the result is that of the first attempt that does not
    raise one of the caught errors, provided there is one among the first
    [max_retries] attempts.  Before it the method was called once for every
    failed attempt, each failure followed by a reconnect and a sleep of
    [delay * (attempt + 1)] seconds; an exception of another kind is passed
    on at once, without reconnecting. *)
Theorem with_retry_first_answer (max_retries delay : Z) (k : nat) (s : St) :
  Z.of_nat k < max_retries →
  (∀ j, (j < k)%nat →
        ∃ e, (func (state_before func _reconnect j s)).2 = RaisesCaught e) →
  (∀ e, (func (state_before func _reconnect k s)).2 ≠ RaisesCaught e) →
  let '(s', out, log) := with_retry func _reconnect max_retries delay s in
  (s', out) = func (state_before func _reconnect k s)
  ∧ log = backoff delay 0 k ++ [Call]
  ∧ calls log = S k
  ∧ slept log = delay * (Z.of_nat k * (Z.of_nat k + 1) / 2).
Proof.
  intros Hk Hbefore Hat. unfold with_retry.
  assert (Z.to_nat max_retries = (k + S (Z.to_nat max_retries - S k))%nat) as ->
    by lia.
  rewrite seq_app. rewrite (attempts_caught delay 0 k _ None s Hbefore).
  cbn [seq attempts].
  destruct (func (state_before func _reconnect k s)) as [s1 o1] eqn:Ef.
  simpl in Hat.
  destruct o1 as [a|e|e]; [| by destruct (Hat e) |].
  all: split; [done|]; split; [done|]; split.
  all: try (unfold calls; rewrite filter_app; rewrite length_app;
            fold (calls (backoff delay 0 k)); rewrite calls_backoff;
            simpl; lia).
  all: unfold slept; rewrite foldr_app; cbn [foldr];
    fold (slept (backoff delay 0 k)); rewrite slept_backoff; f_equal; lia.
Qed.

(** [with_retry], when every attempt raises a caught error: the method is
    called [max_retries] times, with as many reconnects, the wrapper sleeps
    [delay * (1 + 2 + ... + max_retries)] seconds in all, the last of them
    after the last failure, and raises the last error.  With
    [max_retries <= 0] the method is never called and [raise None] ends in a
    [TypeError]. *)
Theorem with_retry_exhausted (max_retries delay : Z) (s : St) :
  (∀ j, Z.of_nat j < max_retries →
        ∃ e, (func (state_before func _reconnect j s)).2 = RaisesCaught e) →
  let n := Z.to_nat max_retries in
  let '(s', out, log) := with_retry func _reconnect max_retries delay s in
  s' = state_before func _reconnect n s
  ∧ log = backoff delay 0 n
  ∧ calls log = n
  ∧ slept log = delay * (Z.of_nat n * (Z.of_nat n + 1) / 2)
  ∧ match n with
    | O => out = RaisesOther (L "exceptions must derive from BaseException")
    | S n' => out = (func (state_before func _reconnect n' s)).2
              ∧ ∃ e, out = RaisesCaught e
    end.
Proof.
  intros Hall n. unfold with_retry. fold n.
  rewrite <- (app_nil_r (seq 0 n)).
  rewrite (attempts_caught delay 0 n [] None s);
    [|intros j Hj; apply Hall; lia].
  cbn [attempts]. rewrite app_nil_r.
  split; [done|]. split; [done|]. split; [apply calls_backoff|].
  split; [rewrite slept_backoff; f_equal; lia|].
  destruct n as [|n'] eqn:En; [done|].
  destruct (Hall n' ltac:(lia)) as [e He]. rewrite He. split; [done|].
  by exists e.
Qed.

End RetryFacts.

(** Two lost connections, then an answer: three calls, two reconnects and
    1 + 2 seconds of sleep. *)
Lemma with_retry_first_answer_witness :
  Retry.with_retry MoreExamples.flaky (λ s, s) 3 1 0%nat
  = (3%nat, Retry.Returns 2%nat,
     [Retry.Call; Retry.Reconnect; Retry.Sleep 1;
      Retry.Call; Retry.Reconnect; Retry.Sleep 2; Retry.Call]).
Proof.
  pose proof (with_retry_first_answer MoreExamples.flaky (λ s, s) 3 1 2 0%nat) as H.
  destruct (Retry.with_retry MoreExamples.flaky (λ s, s) 3 1 0%nat) as [[s out] log].
  destruct H as (H1 & H2 & _).
  - lia.
  - intros [|[|j]] Hj; [by eexists | by eexists | lia].
  - intros e. vm_compute. discriminate.
  - vm_compute in H1. injection H1 as -> ->. rewrite H2. reflexivity.
Defined.

(** A database that is down: three calls, three reconnects, 1 + 2 + 3
    seconds of sleep, and the last error is raised. *)
Lemma with_retry_exhausted_witness :
  let '(s', out, log) :=
    Retry.with_retry MoreExamples.down (λ s, s) 3 1 0%nat in
  s' = 3%nat ∧ out = Retry.RaisesCaught (L "connection refused")
  ∧ Retry.calls log = 3%nat ∧ Retry.slept log = 6.
Proof.
  pose proof (with_retry_exhausted MoreExamples.down (λ s, s) 3 1 0%nat) as H.
  cbv zeta in H.
  destruct (Retry.with_retry MoreExamples.down (λ s, s) 3 1 0%nat) as [[s out] log].
  destruct H as (H1 & H2 & H3 & H4 & H5).
  - intros j _. by eexists.
  - rewrite H1, H3, H4. vm_compute in H5. destruct H5 as [-> _].
    vm_compute. repeat split.
Defined.

(** ** Tasks and their rows *)

Section TaskFacts.

Import TargetDb MainV3 Tasks Inv.

Variable lib : Lib.t.

Lemma source_filter_cases (tasks : gmap Z TaskRow) (sid : Z) :
  match filter (λ kr : Z * TaskRow, t_source_link_id kr.2 = sid)
               (map_to_list tasks) with
  | (i, r) :: _ => tasks !! i = Some r ∧ t_source_link_id r = sid
  | [] => ∀ i r, tasks !! i = Some r → t_source_link_id r ≠ sid
  end.
Proof.
  destruct (filter _ _) as [|[i r] l] eqn:E.
  - intros i r Hr Hs.
    assert ((i, r) ∈ filter (λ kr : Z * TaskRow, t_source_link_id kr.2 = sid)
                       (map_to_list tasks)) as Hin.
    { apply list_elem_of_filter. split; [done|]. by apply elem_of_map_to_list. }
    rewrite E in Hin. by apply elem_of_nil in Hin.
  - assert ((i, r) ∈ filter (λ kr : Z * TaskRow, t_source_link_id kr.2 = sid)
                       (map_to_list tasks)) as Hin by (rewrite E; left).
    apply list_elem_of_filter in Hin as [Hs Hin].
    by apply elem_of_map_to_list in Hin.
Qed.

Lemma get_task_by_source_id_Some tasks sid i r :
  unique_source_ids tasks →
  tasks !! i = Some r → t_source_link_id r = sid →
  get_task_by_source_id tasks sid = Some (i, r).
Proof.
  intros Hu Hr Hs. unfold get_task_by_source_id.
  pose proof (source_filter_cases tasks sid) as H.
  destruct (filter _ _) as [|[j r'] l]; [by destruct (H i r Hr)|].
  destruct H as [Hr' Hs']. simpl.
  assert (j = i) as -> by (apply (Hu j i r' r); congruence).
  congruence.
Qed.

Lemma get_task_by_source_id_None tasks sid :
  get_task_by_source_id tasks sid = None
  ↔ ∀ i r, tasks !! i = Some r → t_source_link_id r ≠ sid.
Proof.
  unfold get_task_by_source_id.
  pose proof (source_filter_cases tasks sid) as H.
  destruct (filter _ _) as [|[j r'] l]; simpl.
  - by split.
  - split; [done|]. intros Hno. destruct H as [Hr' Hs']. by destruct (Hno j r').
Qed.


Lemma unique_insert_new tasks i r' :
  unique_source_ids tasks →
  (∀ j r, tasks !! j = Some r → t_source_link_id r ≠ t_source_link_id r') →
  unique_source_ids (<[i := r']> tasks).
Proof.
  intros Hu Hno a b ra rb Ha Hb Hab.
  destruct (decide (a = i)) as [->|Ha']; destruct (decide (b = i)) as [->|Hb'];
    try done.
  - rewrite lookup_insert_eq in Ha. rewrite lookup_insert_ne in Hb by done.
    injection Ha as <-. by destruct (Hno b rb Hb).
  - rewrite lookup_insert_eq in Hb. rewrite lookup_insert_ne in Ha by done.
    injection Hb as <-. by destruct (Hno a ra Ha).
  - rewrite lookup_insert_ne in Ha, Hb by done. by apply (Hu a b ra rb).
Qed.

Lemma unique_source_ids_empty : unique_source_ids ∅.
Proof. intros i j r r' Hi. by rewrite lookup_empty in Hi. Qed.

Lemma unique_source_ids_singleton i (r : TaskRow) :
  unique_source_ids {[ i := r ]}.
Proof.
  intros a b ra rb Ha Hb _. apply lookup_singleton_Some in Ha as [<- _].
  by apply lookup_singleton_Some in Hb as [<- _].
Qed.

Lemma task_ids_fresh_singleton next i r n f d b :
  i < next → task_ids_fresh (mkWorld {[ i := r ]} next n f d b).
Proof.
  intros Hi j [r' Hr]. cbn [tasks next_task_id] in *.
  by apply lookup_singleton_Some in Hr as [<- _].
Qed.


(** *** Queries on nodes and files *)

Lemma get_file_nodes_elem (t : NodeTable) task_id pruned_only nr :
  nr ∈ get_file_nodes t task_id pruned_only
  ↔ nr_task_id nr = task_id
    ∧ nt_rows t !! (task_id, nr_node_index nr) = Some (nr_row nr)
    ∧ n_is_file (nr_row nr) = true
    ∧ (pruned_only = true → n_is_pruned (nr_row nr) = true).
Proof.
  unfold get_file_nodes. rewrite order_by_perm, list_elem_of_omap. split.
  - intros ([[a b] r] & Hin & Hsome). apply elem_of_map_to_list in Hin.
    cbn in Hsome. case_decide as Ha; [|done]. subst a.
    destruct (n_is_file r) eqn:Ef; [|done].
    destruct (negb pruned_only || n_is_pruned r) eqn:Ep; [|done].
    simpl in Hsome. injection Hsome as <-. simpl.
    split; [done|]. split; [done|]. split; [done|].
    intros ->. by destruct (n_is_pruned r).
  - intros (Ht & Hr & Hf & Hp). destruct nr as [a b r]. simpl in *. subst a.
    exists ((task_id, b), r). split; [by apply elem_of_map_to_list|].
    cbn. rewrite decide_True by done. rewrite Hf.
    destruct pruned_only; simpl; [by rewrite Hp|done].
Qed.

Lemma node_rows_of_elem (t : NodeTable) task_id keep nr :
  nr ∈ node_rows_of t task_id keep
  ↔ nr_task_id nr = task_id
    ∧ nt_rows t !! (task_id, nr_node_index nr) = Some (nr_row nr)
    ∧ keep (nr_row nr) = true.
Proof.
  unfold node_rows_of. rewrite order_by_perm, list_elem_of_omap. split.
  - intros ([[a b] r] & Hin & Hsome). apply elem_of_map_to_list in Hin.
    cbn in Hsome. case_decide as Ha; [|done]. subst a.
    destruct (keep r) eqn:Ek; [|done]. injection Hsome as <-. by simpl.
  - intros (Ht & Hr & Hk). destruct nr as [a b r]. simpl in *. subst a.
    exists ((task_id, b), r). split; [by apply elem_of_map_to_list|].
    cbn. rewrite decide_True by done. by rewrite Hk.
Qed.

Lemma nil_no_elem {X} (l : list X) : (∀ x, x ∉ l) → l = [].
Proof. destruct l as [|x l]; [done|]. intros H. destruct (H x). by left. Qed.

Lemma delete_task_data_rows (w : World) (task_id : Z) :
  let w' := delete_task_data w task_id in
  tasks w' !! task_id = None
  ∧ (∀ j, j ≠ task_id → tasks w' !! j = tasks w !! j)
  ∧ (∀ k, nt_rows (nodes w') !! k
          = if decide (k.1 = task_id) then None else nt_rows (nodes w) !! k)
  ∧ (∀ j, ft_rows (files w') !! j
          = match ft_rows (files w) !! j with
            | Some r => if decide (f_task_id r = task_id) then None else Some r
            | None => None
            end)
  ∧ next_task_id w' = next_task_id w
  ∧ (unique_source_ids (tasks w) → unique_source_ids (tasks w'))
  ∧ (task_ids_fresh w → task_ids_fresh w')
  ∧ (file_ids_fresh (files w) → file_ids_fresh (files w')).
Proof.
  intros w'. subst w'. unfold delete_task_data.
  cbn [tasks nodes files disk blob next_task_id nt_rows nt_next_id ft_rows ft_next_id].
  assert (Hfl : ∀ j, filter (λ kr : Z * FileRow, f_task_id kr.2 ≠ task_id)
                       (ft_rows (files w)) !! j
                = match ft_rows (files w) !! j with
                  | Some r => if decide (f_task_id r = task_id) then None else Some r
                  | None => None
                  end).
  { intros j. destruct (ft_rows (files w) !! j) as [r|] eqn:E.
    - case_decide as Hk.
      + apply map_lookup_filter_None. right. intros r' Hr' Hne.
        simpl in Hne. congruence.
      + by apply map_lookup_filter_Some.
    - apply map_lookup_filter_None. by left. }
  split; [apply lookup_delete_eq|].
  split; [intros j Hj; by apply lookup_delete_ne|].
  split.
  { intros k. case_decide as Hk.
    - apply map_lookup_filter_None. right. intros r _ Hne. by apply Hne.
    - destruct (nt_rows (nodes w) !! k) as [r|] eqn:E.
      + by apply map_lookup_filter_Some.
      + apply map_lookup_filter_None. by left. }
  split; [done|]. split; [done|].
  split; [|split].
  - intros Hu a b ra rb Ha Hb Hab.
    apply lookup_delete_Some in Ha as [_ Ha]. apply lookup_delete_Some in Hb as [_ Hb].
    by apply (Hu a b ra rb).
  - intros Hf j [r Hr]. cbn [tasks next_task_id] in *.
    apply lookup_delete_Some in Hr as [_ Hr]. apply Hf. by eexists.
  - intros Hf j [r Hr]. cbn [ft_rows ft_next_id] in *.
    rewrite Hfl in Hr. apply Hf. destruct (ft_rows (files w) !! j); [by eexists|done].
Qed.

(** [delete_task_data] removes the task and, with it, every node and file
    of the task, so that the queries for the task come back empty; the rows
    of other tasks, the id sequences, the local disk and the object store
    are left as they are: what the task had uploaded stays in the bucket. *)
Theorem delete_task_data_cascade (w : World) (task_id : Z) :
  let w' := delete_task_data w task_id in
  tasks w' !! task_id = None
  ∧ (∀ j, j ≠ task_id → tasks w' !! j = tasks w !! j)
  ∧ (∀ k, nt_rows (nodes w') !! k
          = if decide (k.1 = task_id) then None else nt_rows (nodes w) !! k)
  ∧ (∀ j, ft_rows (files w') !! j
          = match ft_rows (files w) !! j with
            | Some r => if decide (f_task_id r = task_id) then None else Some r
            | None => None
            end)
  ∧ (∀ pruned_only, get_file_nodes (nodes w') task_id pruned_only = [])
  ∧ get_all_nodes (nodes w') task_id = []
  ∧ get_task_files_with_llm_result (files w') task_id = []
  ∧ (task_id ≠ 0 →
     get_pending_process_files (files w') (Some task_id) = []
     ∧ get_pending_files (files w') (Some task_id) = [])
  ∧ next_task_id w' = next_task_id w
  ∧ nt_next_id (nodes w') = nt_next_id (nodes w)
  ∧ ft_next_id (files w') = ft_next_id (files w)
  ∧ disk w' = disk w ∧ blob w' = blob w.
Proof.
  intros w'.
  destruct (delete_task_data_rows w task_id) as (Hd & Ho & Hn & Hfl & _).
  fold w' in Hd, Ho, Hn, Hfl.
  assert (Hfiles : ∀ keep, (∀ r, keep r = true → f_task_id r = task_id) →
            file_rows_of (files w') keep = []).
  { intros keep Hkeep. apply nil_no_elem. intros [j r] Hin.
    apply file_rows_of_elem in Hin as [Hr Hk].
    rewrite Hfl in Hr. destruct (ft_rows (files w) !! j) as [r0|]; [|done].
    case_decide as Ht; [done|]. injection Hr as ->. by apply Ht, Hkeep. }
  split; [done|]. split; [done|]. split; [done|]. split; [done|]. split.
  { intros b. apply nil_no_elem. intros nr Hin.
    apply get_file_nodes_elem in Hin as (_ & Hr & _).
    rewrite Hn in Hr. simpl in Hr. by rewrite decide_True in Hr. }
  split.
  { apply nil_no_elem. intros nr Hin.
    apply node_rows_of_elem in Hin as (_ & Hr & _).
    rewrite Hn in Hr. simpl in Hr. by rewrite decide_True in Hr. }
  split.
  { apply Hfiles. intros r [Ht _]%andb_true_iff. by apply bool_decide_eq_true in Ht. }
  split; [|done].
  intros Hne. split; apply Hfiles; intros r Hk.
  - apply andb_true_iff in Hk as [_ Hk]. apply orb_true_iff in Hk as [Hk|Hk].
    + apply bool_decide_eq_true in Hk. done.
    + by apply bool_decide_eq_true in Hk.
  - apply andb_true_iff in Hk as [_ Hk]. apply orb_true_iff in Hk as [Hk|Hk].
    + apply bool_decide_eq_true in Hk. done.
    + by apply bool_decide_eq_true in Hk.
Qed.

(** [create_file_record] on a table whose id sequence is ahead of its rows:
    the id returned was not in use, the new row is found under it with both
    statuses [pending] and is among the files pending download, and every
    other row is as before. *)
Theorem create_file_record_fresh (t : FileTable) (task_id node_id : Z)
    (original_url : str) (original_name file_extension : option str) :
  file_ids_fresh t →
  let '(t', i) :=
    create_file_record t task_id node_id original_url original_name
      file_extension in
  i = ft_next_id t
  ∧ ft_rows t !! i = None
  ∧ (∃ r, ft_rows t' !! i = Some r
       ∧ f_task_id r = task_id ∧ f_node_id r = node_id
       ∧ f_original_url r = original_url
       ∧ f_original_name r = original_name
       ∧ f_file_extension r = file_extension
       ∧ f_download_status r = L "pending"
       ∧ f_process_status r = L "pending"
       ∧ f_llm_processed r = false
       ∧ f_renamed_name r = None ∧ f_storage_path r = None
       ∧ (i, r) ∈ get_pending_files t' (Some task_id)
       ∧ (i, r) ∉ get_pending_process_files t' (Some task_id))
  ∧ (∀ j, j ≠ i → ft_rows t' !! j = ft_rows t !! j)
  ∧ file_ids_fresh t'.
Proof.
  intros Hf. unfold create_file_record. cbn [ft_rows ft_next_id].
  split; [done|]. split.
  { destruct (ft_rows t !! ft_next_id t) eqn:E; [|done].
    specialize (Hf (ft_next_id t) ltac:(by eexists)). lia. }
  split.
  { eexists. split; [apply lookup_insert_eq|].
    repeat (split; [reflexivity|]). split.
    - apply file_rows_of_elem. cbn [ft_rows]. split; [apply lookup_insert_eq|].
      cbn. rewrite bool_decide_eq_true_2 by done.
      rewrite (bool_decide_eq_true_2 (task_id = task_id)) by done.
      by rewrite orb_true_r.
    - intros Hin. apply file_rows_of_elem in Hin as [_ Hk]. cbn in Hk.
      rewrite (bool_decide_eq_false_2 (L "pending" = L "completed")) in Hk by done.
      done. }
  split; [intros j Hj; by apply lookup_insert_ne|].
  intros j [r Hr]. cbn [ft_rows ft_next_id] in *.
  destruct (decide (j = ft_next_id t)) as [->|Hj]; [lia|].
  rewrite lookup_insert_ne in Hr by done.
  specialize (Hf j ltac:(by eexists)). lia.
Qed.

(** The rows after [prepare_task_for_link]. *)
Lemma prepare_task_for_link_rows (w : World) (link : Sync.LinkRecord)
    (school_name : option str) :
  unique_source_ids (tasks w) → task_ids_fresh w →
  let '(w', i) := prepare_task_for_link lib w link school_name in
  i = next_task_id w
  ∧ next_task_id w' = next_task_id w + 1
  ∧ tasks w' !! i
    = Some (mkTaskRow (Sync.id link) (Sync.url link)
              (Lib.md5_hexdigest lib (Sync.url link)) school_name
              (L "pending") 0 0 0 None false false)
  ∧ (∀ j r, j ≠ i →
       tasks w' !! j = Some r
       ↔ tasks w !! j = Some r ∧ t_source_link_id r ≠ Sync.id link)
  ∧ (∀ i0 r0, tasks w !! i0 = Some r0 → t_source_link_id r0 = Sync.id link →
       tasks w' !! i0 = None
       ∧ (∀ idx, nt_rows (nodes w') !! (i0, idx) = None)
       ∧ (∀ j r, ft_rows (files w') !! j = Some r → f_task_id r ≠ i0))
  ∧ unique_source_ids (tasks w') ∧ task_ids_fresh w'.
Proof.
  intros Hu Hf. unfold prepare_task_for_link.
  pose proof (source_filter_cases (tasks w) (Sync.id link)) as Hc.
  set (w1 := match filter _ _ with
             | [] => w
             | (i, _) :: _ => delete_task_data w i
             end).
  assert (Hw1 : next_task_id w1 = next_task_id w
                ∧ unique_source_ids (tasks w1) ∧ task_ids_fresh w1
                ∧ (∀ j r, tasks w1 !! j = Some r
                          ↔ tasks w !! j = Some r
                            ∧ t_source_link_id r ≠ Sync.id link)
                ∧ (∀ i0 r0, tasks w !! i0 = Some r0 →
                     t_source_link_id r0 = Sync.id link →
                     (∀ idx, nt_rows (nodes w1) !! (i0, idx) = None)
                     ∧ (∀ j r, ft_rows (files w1) !! j = Some r →
                               f_task_id r ≠ i0))).
  { subst w1. destruct (filter _ _) as [|[i0 r0] l].
    - split; [done|]. split; [done|]. split; [done|]. split.
      + intros j r. split; [|tauto]. intros Hr. split; [done|]. exact (Hc j r Hr).
      + intros i0 r0 Hr0 Hs0. by destruct (Hc i0 r0 Hr0).
    - destruct Hc as [Hr0 Hs0].
      destruct (delete_task_data_rows w i0)
        as (Hd & Ho & Hn & Hfl & Hnx & Hu' & Hf' & _).
      split; [done|]. split; [by apply Hu'|]. split; [by apply Hf'|]. split.
      + intros j r. destruct (decide (j = i0)) as [->|Hj].
        * rewrite Hd. split; [done|]. intros [Hr Hne]. congruence.
        * rewrite Ho by done. split; [|tauto]. intros Hr. split; [done|].
          intros Hs. apply Hj. apply (Hu j i0 r r0); congruence.
      + intros i1 r1 Hr1 Hs1.
        assert (i1 = i0) as -> by (apply (Hu i1 i0 r1 r0); congruence).
        split.
        * intros idx. rewrite Hn. simpl. by rewrite decide_True.
        * intros j r Hr. rewrite Hfl in Hr.
          destruct (ft_rows (files w) !! j) as [r'|]; [|done].
          case_decide; [done|]. congruence. }
  destruct Hw1 as (Hnx & Hu1 & Hf1 & Ht1 & Hold).
  assert (∀ j r, tasks w1 !! j = Some r → t_source_link_id r ≠ Sync.id link)
    as Hno by (intros j r Hr; by apply Ht1 in Hr as [_ ?]).
  unfold create_task.
  pose proof (source_filter_cases (tasks w1) (Sync.id link)) as Hc1.
  destruct (filter (λ kr : Z * TaskRow, t_source_link_id kr.2 = Sync.id link)
              (map_to_list (tasks w1))) as [|[i1 r1] l1] eqn:E1.
  2:{ destruct Hc1 as [Hr1 Hs1]. by destruct (Hno i1 r1 Hr1). }
  cbn [tasks next_task_id nodes files] in *.
  rewrite Hnx.
  split; [done|]. split; [done|]. split; [apply lookup_insert_eq|].
  split.
  { intros j r Hj. rewrite lookup_insert_ne by done. apply Ht1. }
  split.
  { intros i0 r0 Hr0 Hs0. destruct (Hold i0 r0 Hr0 Hs0) as [Hn0 Hf0].
    split; [|done].
    assert (i0 ≠ next_task_id w) as Hne.
    { specialize (Hf i0 ltac:(by eexists)). lia. }
    rewrite lookup_insert_ne by done.
    destruct (tasks w1 !! i0) as [r|] eqn:E; [|done].
    apply Ht1 in E as [E Hne']. congruence. }
  split.
  - apply unique_insert_new; [done|]. intros j r Hr. simpl. exact (Hno j r Hr).
  - intros j [r Hr]. cbn [tasks next_task_id] in *.
    destruct (decide (j = next_task_id w)) as [->|Hj]; [lia|].
    rewrite lookup_insert_ne in Hr by done.
    specialize (Hf1 j ltac:(by eexists)). lia.
Qed.

(** [prepare_task_for_link]: whatever the catalog held for the link, the
    task it returns is the one [get_task_by_source_id] then finds for the
    link: a new row under an id not used before, with status [pending], zero
    counts and no error text, holding the link's id, its URL and the MD5 of
    the URL.  An older task of the link is gone, and the queries for its
    nodes and files come back empty; the tasks of other links are as
    before. *)
Theorem prepare_task_for_link_fresh (w : World) (link : Sync.LinkRecord)
    (school_name : option str) :
  unique_source_ids (tasks w) → task_ids_fresh w →
  let '(w', i) := prepare_task_for_link lib w link school_name in
  get_task_by_source_id (tasks w') (Sync.id link)
  = Some (i, mkTaskRow (Sync.id link) (Sync.url link)
               (Lib.md5_hexdigest lib (Sync.url link)) school_name
               (L "pending") 0 0 0 None false false)
  ∧ tasks w !! i = None
  ∧ match get_task_by_source_id (tasks w) (Sync.id link) with
    | Some (i0, r0) =>
        i0 ≠ i
        ∧ get_task_by_id (tasks w') i0 = None
        ∧ get_all_nodes (nodes w') i0 = []
        ∧ (∀ pruned_only, get_file_nodes (nodes w') i0 pruned_only = [])
        ∧ get_task_files_with_llm_result (files w') i0 = []
    | None => True
    end
  ∧ (∀ j r, t_source_link_id r ≠ Sync.id link →
       get_task_by_id (tasks w') j = Some (j, r)
       ↔ get_task_by_id (tasks w) j = Some (j, r)).
Proof.
  intros Hu Hf.
  pose proof (prepare_task_for_link_rows w link school_name Hu Hf) as H.
  destruct (prepare_task_for_link lib w link school_name) as [w' i].
  destruct H as (Hi & Hnx & Hrow & Hothers & Hold & Hu' & Hf').
  assert (tasks w !! i = None) as Hnone.
  { destruct (tasks w !! i) eqn:E; [|done].
    specialize (Hf i ltac:(by eexists)). lia. }
  split.
  { by apply get_task_by_source_id_Some. }
  split; [done|]. split.
  - unfold get_task_by_source_id.
    pose proof (source_filter_cases (tasks w) (Sync.id link)) as Hc.
    destruct (filter _ _) as [|[i0 r0] l]; [done|]. cbn [head].
    destruct Hc as [Hr0 Hs0]. destruct (Hold i0 r0 Hr0 Hs0) as (Hgone & Hn & Hfl).
    split; [congruence|]. split; [unfold get_task_by_id; by rewrite Hgone|].
    split; [|split].
    + apply nil_no_elem. intros nr Hin.
      apply node_rows_of_elem in Hin as (_ & Hr & _). by rewrite Hn in Hr.
    + intros b. apply nil_no_elem. intros nr Hin.
      apply get_file_nodes_elem in Hin as (_ & Hr & _). by rewrite Hn in Hr.
    + apply nil_no_elem. intros [j r] Hin.
      apply file_rows_of_elem in Hin as [Hr Hk].
      apply andb_true_iff in Hk as [Hk _]. apply bool_decide_eq_true in Hk.
      by destruct (Hfl j r Hr).
  - intros j r Hs. unfold get_task_by_id.
    destruct (decide (j = i)) as [->|Hj].
    + rewrite Hrow, Hnone. simpl. split; [|done]. intros [= <-]. by simpl in Hs.
    + split.
      * destruct (tasks w' !! j) as [r'|] eqn:E; [|done]. simpl.
        intros [= ->]. apply (Hothers j r Hj) in E as [-> _]. done.
      * destruct (tasks w !! j) as [r'|] eqn:E; [|done]. simpl.
        intros [= ->].
        assert (tasks w' !! j = Some r) as -> by (by apply (Hothers j r Hj)).
        done.
Qed.

End TaskFacts.


(** The first file record of an empty table gets id 1. *)
Lemma create_file_record_fresh_witness :
  let '(t', i) :=
    TargetDb.create_file_record (TargetDb.mkFileTable ∅ 1) 1 2
      (L "http://u.example/guide.pdf") (Some (L "t")) (Some (L "pdf")) in
  i = 1
  ∧ TargetDb.f_download_status <$> TargetDb.ft_rows t' !! 1 = Some (L "pending")
  ∧ Inv.file_ids_fresh t'.
Proof.
  pose proof (create_file_record_fresh (TargetDb.mkFileTable ∅ 1) 1 2
                (L "http://u.example/guide.pdf") (Some (L "t")) (Some (L "pdf")))
    as H.
  destruct (TargetDb.create_file_record _ _ _ _ _ _) as [t' i].
  destruct H as (-> & _ & (r & Hr & _ & _ & _ & _ & _ & Hst & _) & _ & Hf).
  - intros j [r Hr]. simpl in Hr. by rewrite lookup_empty in Hr.
  - simpl in Hr. rewrite Hr. simpl. by rewrite Hst.
Defined.

(** Preparing row 2 again after its task 1 has failed: the new task has
    id 2, and task 1 is gone. *)
Lemma prepare_task_for_link_fresh_witness :
  let '(w', i) :=
    MainV3.prepare_task_for_link Examples.lib0 MoreExamples.w1
      (Examples.link 2 (L "graduate") (L "http://u.example/admissions")) None in
  i = 2
  ∧ Tasks.get_task_by_id (MainV3.tasks w') 1 = None
  ∧ TargetDb.t_status <$> MainV3.tasks w' !! 2 = Some (L "pending").
Proof.
  pose proof (prepare_task_for_link_fresh Examples.lib0 MoreExamples.w1
                (Examples.link 2 (L "graduate") (L "http://u.example/admissions"))
                None) as H.
  destruct (MainV3.prepare_task_for_link _ _ _ _) as [w' i] eqn:E.
  destruct H as (Hnew & _ & Hold & _).
  - apply unique_source_ids_singleton.
  - apply (task_ids_fresh_singleton 2 1). lia.
  - vm_compute in E. injection E as <- <-. vm_compute. done.
Defined.

(** ** The detection of new, changed and failed links *)

Section DetectionFacts.

Import TargetDb Sync Inv.

Lemma get_all_links_elem src x :
  x ∈ get_all_links src
  ↔ x ∈ src ∧ (table_name x = L "graduate" ∨ table_name x = L "undergraduate").
Proof.
  unfold get_all_links. rewrite order_by_perm, list_elem_of_filter. tauto.
Qed.

Lemma get_all_links_NoDup src :
  NoDup (id <$> src) → NoDup (id <$> get_all_links src).
Proof.
  intros Hnd. unfold get_all_links. rewrite order_by_perm.
  eapply sublist_NoDup; [exact Hnd|]. apply fmap_sublist, sublist_filter.
Qed.

Lemma NoDup_fmap_eq {X Y} `{EqDecision Y} (f : X → Y) (l : list X) x y :
  NoDup (f <$> l) → x ∈ l → y ∈ l → f x = f y → x = y.
Proof.
  induction l as [|a l IH]; [by intros _ ?%elem_of_nil|].
  rewrite fmap_cons. intros [Ha Hnd]%NoDup_cons Hx Hy Hxy.
  apply elem_of_cons in Hx as [->|Hx]; apply elem_of_cons in Hy as [->|Hy].
  - done.
  - destruct Ha. rewrite Hxy. apply list_elem_of_fmap. by exists y.
  - destruct Ha. rewrite <- Hxy. apply list_elem_of_fmap. by exists x.
  - by apply IH.
Qed.

Lemma get_all_task_source_ids_elem (tasks : gmap Z TaskRow) s :
  s ∈ get_all_task_source_ids tasks
  ↔ ∃ i r, tasks !! i = Some r ∧ t_source_link_id r = s.
Proof.
  unfold get_all_task_source_ids. rewrite list_elem_of_fmap. split.
  - intros ([i r] & -> & Hin). apply elem_of_map_to_list in Hin. by exists i, r.
  - intros (i & r & Hr & <-). exists (i, r). split; [done|].
    by apply elem_of_map_to_list.
Qed.

Lemma detect_new_links_elem src tasks x :
  x ∈ detect_new_links src tasks
  ↔ x ∈ get_all_links src
    ∧ ∀ i r, tasks !! i = Some r → t_source_link_id r ≠ id x.
Proof.
  unfold detect_new_links. rewrite list_elem_of_filter, elem_of_difference.
  rewrite !elem_of_list_to_set, get_all_task_source_ids_elem. split.
  - intros [[_ Hno] Hin]. split; [done|]. intros i r Hr Hs. apply Hno. by exists i, r.
  - intros [Hin Hno]. split; [|done]. split.
    + apply list_elem_of_fmap. by exists x.
    + intros (i & r & Hr & Hs). by destruct (Hno i r Hr).
Qed.

(** The dict built by [{row[0]: row[1] for row in result}]. *)
Lemma existing_tasks_from (l : list (Z * TaskRow)) (m0 : gmap Z str) k h :
  foldl (λ m (kr : Z * TaskRow),
           <[t_source_link_id kr.2 := t_url_hash kr.2]> m) m0 l !! k = Some h →
  (∃ kr, kr ∈ l ∧ t_source_link_id kr.2 = k ∧ t_url_hash kr.2 = h)
  ∨ m0 !! k = Some h.
Proof.
  revert m0. induction l as [|a l IH]; intros m0; simpl; [by right|].
  intros Hh. destruct (IH _ Hh) as [(kr & Hin & Hs & Hu)|Hm].
  - left. exists kr. split; [by right | done].
  - destruct (decide (t_source_link_id a.2 = k)) as [Hk|Hk].
    + rewrite Hk, lookup_insert_eq in Hm. injection Hm as <-.
      left. exists a. split; [by left | done].
    + rewrite lookup_insert_ne in Hm by done. by right.
Qed.

Lemma existing_tasks_keeps (l : list (Z * TaskRow)) (m0 : gmap Z str) k :
  is_Some (m0 !! k) →
  is_Some (foldl (λ m (kr : Z * TaskRow),
                    <[t_source_link_id kr.2 := t_url_hash kr.2]> m) m0 l !! k).
Proof.
  revert m0. induction l as [|a l IH]; intros m0 Hm; simpl; [done|].
  apply IH. destruct (decide (t_source_link_id a.2 = k)) as [->|Hk].
  - rewrite lookup_insert_eq. by eexists.
  - by rewrite lookup_insert_ne.
Qed.

Lemma existing_tasks_has (l : list (Z * TaskRow)) (m0 : gmap Z str) kr :
  kr ∈ l →
  is_Some (foldl (λ m (kr : Z * TaskRow),
                    <[t_source_link_id kr.2 := t_url_hash kr.2]> m) m0 l
           !! t_source_link_id kr.2).
Proof.
  revert m0. induction l as [|a l IH]; intros m0; [by intros ?%elem_of_nil|].
  intros [->|Hin]%elem_of_cons; simpl.
  - apply existing_tasks_keeps. rewrite lookup_insert_eq. by eexists.
  - by apply IH.
Qed.

Lemma dict_set_elem {V} k (v : V) d k' v' :
  (k', v') ∈ dict_set k v d → (k' = k ∧ v' = v) ∨ (k', v') ∈ d.
Proof.
  induction d as [|[a b] d IH]; simpl.
  - intros Hin. apply list_elem_of_singleton in Hin. left. by injection Hin.
  - case_decide as Ha.
    + intros [Hin|Hin]%elem_of_cons; [left; by injection Hin | right; by right].
    + intros [Hin|Hin]%elem_of_cons; [right; rewrite Hin; by left|].
      destruct (IH Hin) as [?|?]; [by left | right; by right].
Qed.

Lemma dict_set_keys {V} k (v : V) d :
  (k, v) ∈ dict_set k v d
  ∧ ∀ k' v', k' ≠ k → (k', v') ∈ d → (k', v') ∈ dict_set k v d.
Proof.
  induction d as [|[a b] d [IH1 IH2]]; simpl.
  - split; [by left|]. by intros ? ? _ ?%elem_of_nil.
  - case_decide as Ha.
    + split; [by left|]. intros k' v' Hk [Hin|Hin]%elem_of_cons.
      * injection Hin as -> ->. done.
      * by right.
    + split; [by right|]. intros k' v' Hk [Hin|Hin]%elem_of_cons.
      * rewrite Hin. by left.
      * right. by apply IH2.
Qed.

Section WithLib.

Variable lib : Lib.t.

(** The dict [url_hashes] of [detect_changed_links]. *)
Lemma url_hashes_from (links : list LinkRecord) d0 k v :
  (k, v) ∈ foldl (λ d link,
                    dict_set (id link) (Lib.md5_hexdigest lib (url link)) d)
                 d0 links →
  (∃ l, l ∈ links ∧ id l = k ∧ v = Lib.md5_hexdigest lib (url l))
  ∨ (k, v) ∈ d0.
Proof.
  revert d0. induction links as [|a links IH]; intros d0; simpl; [by right|].
  intros Hin. destruct (IH _ Hin) as [(l & Hl & Hk & Hv)|Hd].
  - left. exists l. split; [by right | done].
  - apply dict_set_elem in Hd as [[-> ->]|Hd]; [|by right].
    left. exists a. split; [by left | done].
Qed.

Lemma url_hashes_keeps (links : list LinkRecord) d0 k v :
  (k, v) ∈ d0 → k ∉ id <$> links →
  (k, v) ∈ foldl (λ d link,
                    dict_set (id link) (Lib.md5_hexdigest lib (url link)) d)
                 d0 links.
Proof.
  revert d0. induction links as [|a links IH]; intros d0 Hin Hk; simpl; [done|].
  rewrite fmap_cons in Hk. apply not_elem_of_cons in Hk as [Hka Hk].
  apply IH; [|done]. by apply (proj2 (dict_set_keys _ _ _)).
Qed.

Lemma url_hashes_has (links : list LinkRecord) d0 l :
  NoDup (id <$> links) → l ∈ links →
  (id l, Lib.md5_hexdigest lib (url l))
  ∈ foldl (λ d link,
             dict_set (id link) (Lib.md5_hexdigest lib (url link)) d)
          d0 links.
Proof.
  revert d0. induction links as [|a links IH]; intros d0 Hnd;
    [by intros ?%elem_of_nil|].
  rewrite fmap_cons in Hnd. apply NoDup_cons in Hnd as [Ha Hnd].
  intros [->|Hin]%elem_of_cons; simpl.
  - apply url_hashes_keeps; [|done]. exact (proj1 (dict_set_keys _ _ _)).
  - by apply IH.
Qed.

Lemma get_changed_tasks_elem (tasks : gmap Z TaskRow) (d : list (Z * str)) k :
  k ∈ get_changed_tasks tasks d
  → ∃ v i r, (k, v) ∈ d ∧ tasks !! i = Some r
             ∧ t_source_link_id r = k ∧ t_url_hash r ≠ v.
Proof.
  unfold get_changed_tasks. destruct d as [|kv0 d0]; [by intros ?%elem_of_nil|].
  set (d := kv0 :: d0). rewrite list_elem_of_omap.
  intros ([k' v] & Hin & Hsome). simpl in Hsome.
  destruct (foldl _ _ _ !! k') as [h|] eqn:E; [|done].
  case_decide as Hne; [|done]. injection Hsome as ->.
  apply existing_tasks_from in E as [([i r] & Hr & Hs & Hh)|E]; [|done].
  apply elem_of_map_to_list in Hr. exists v, i, r. simpl in *.
  split; [done|]. split; [done|]. split; [done|]. congruence.
Qed.

Lemma get_changed_tasks_intro (tasks : gmap Z TaskRow) (d : list (Z * str))
    k v i r :
  unique_source_ids tasks →
  (k, v) ∈ d → tasks !! i = Some r →
  t_source_link_id r = k → t_url_hash r ≠ v →
  k ∈ get_changed_tasks tasks d.
Proof.
  intros Hu Hin Hr Hs Hh. unfold get_changed_tasks.
  destruct d as [|kv0 d0]; [by apply elem_of_nil in Hin|].
  set (d := kv0 :: d0) in *. apply list_elem_of_omap.
  exists (k, v). split; [done|]. simpl.
  assert ((i, r) ∈ map_to_list tasks) as Hir by (by apply elem_of_map_to_list).
  destruct (existing_tasks_has (map_to_list tasks) ∅ (i, r) Hir) as [h E].
  simpl in E. rewrite Hs in E. rewrite E.
  apply existing_tasks_from in E as [([j r'] & Hr' & Hs' & Hh')|E]; [|done].
  apply elem_of_map_to_list in Hr'. simpl in *.
  assert (j = i) as -> by (apply (Hu j i r' r); congruence).
  assert (r' = r) as -> by congruence.
  rewrite decide_True by congruence. done.
Qed.

(** [detect_new_links] returns, in ascending id, exactly the upstream links
    of kind [graduate] or [undergraduate] whose id is the [source_link_id]
    of no task; such a link is never among the changed links. *)
Theorem detect_new_links_spec (src : SourceDatabase) (tasks : gmap Z TaskRow) :
  (∀ x, x ∈ detect_new_links src tasks
        ↔ x ∈ src
          ∧ (table_name x = L "graduate" ∨ table_name x = L "undergraduate")
          ∧ Tasks.get_task_by_source_id tasks (id x) = None)
  ∧ StronglySorted Spec.by_id (detect_new_links src tasks)
  ∧ (∀ x, x ∈ detect_new_links src tasks →
          x ∉ detect_changed_links lib src tasks).
Proof.
  split; [|split].
  - intros x. rewrite detect_new_links_elem, get_all_links_elem.
    rewrite get_task_by_source_id_None. tauto.
  - apply detect_new_links_sorted.
  - intros x [_ Hno]%detect_new_links_elem Hc.
    unfold detect_changed_links in Hc. apply list_elem_of_filter in Hc as [Hc _].
    apply get_changed_tasks_elem in Hc as (v & i & r & _ & Hr & Hs & _).
    by destruct (Hno i r Hr).
Qed.

Lemma detect_changed_links_elem (src : SourceDatabase)
    (tasks : gmap Z TaskRow) x :
  NoDup (id <$> src) → unique_source_ids tasks →
  x ∈ detect_changed_links lib src tasks
  ↔ x ∈ get_all_links src
    ∧ ∃ i r, tasks !! i = Some r ∧ t_source_link_id r = id x
             ∧ t_url_hash r ≠ Lib.md5_hexdigest lib (url x).
Proof.
  intros Hnd Hu. unfold detect_changed_links. rewrite list_elem_of_filter. split.
  - intros [Hc Hin]. split; [done|].
    apply get_changed_tasks_elem in Hc as (v & i & r & Hd & Hr & Hs & Hh).
    apply url_hashes_from in Hd as [(l & Hl & Hid & ->)|Hd];
      [|by apply elem_of_nil in Hd].
    assert (l = x) as ->.
    { by apply (NoDup_fmap_eq id (get_all_links src));
        [apply get_all_links_NoDup | | |]. }
    by exists i, r.
  - intros (Hin & i & r & Hr & Hs & Hh). split; [|done].
    eapply get_changed_tasks_intro; [done | | exact Hr | done | exact Hh].
    apply url_hashes_has; [by apply get_all_links_NoDup | done].
Qed.

(** [detect_changed_links], for unique upstream ids and unique
    [source_link_id]s: it returns, in ascending id, exactly the upstream
    links of kind [graduate] or [undergraduate] that have a task whose stored
    hash differs from the MD5 of the link's present URL. *)
Theorem detect_changed_links_spec (src : SourceDatabase)
    (tasks : gmap Z TaskRow) :
  NoDup (id <$> src) → unique_source_ids tasks →
  (∀ x, x ∈ detect_changed_links lib src tasks
        ↔ x ∈ src
          ∧ (table_name x = L "graduate" ∨ table_name x = L "undergraduate")
          ∧ ∃ i r, Tasks.get_task_by_source_id tasks (id x) = Some (i, r)
                   ∧ t_url_hash r ≠ Lib.md5_hexdigest lib (url x))
  ∧ StronglySorted Spec.by_id (detect_changed_links lib src tasks).
Proof.
  intros Hnd Hu. split; [|apply detect_changed_links_sorted].
  intros x. rewrite (detect_changed_links_elem src tasks x Hnd Hu).
  rewrite get_all_links_elem. split.
  - intros ((Hin & Hkind) & i & r & Hr & Hs & Hh). split; [done|]. split; [done|].
    exists i, r. split; [by apply get_task_by_source_id_Some | done].
  - intros (Hin & Hkind & i & r & Hg & Hh). split; [done|].
    exists i, r.
    unfold Tasks.get_task_by_source_id in Hg.
    pose proof (source_filter_cases tasks (id x)) as Hc.
    destruct (filter _ _) as [|[j r'] l]; [done|]. simpl in Hg.
    injection Hg as -> ->. destruct Hc. done.
Qed.

End WithLib.

Lemma get_links_by_ids_elem src ids x :
  x ∈ get_links_by_ids src ids ↔ x ∈ src ∧ id x ∈ ids.
Proof.
  unfold get_links_by_ids. destruct ids as [|i ids].
  - split; [by intros ?%elem_of_nil | by intros [_ ?%elem_of_nil]].
  - rewrite order_by_perm, list_elem_of_filter. tauto.
Qed.

Lemma get_tasks_by_status_elem (tasks : gmap Z TaskRow) status i r :
  (i, r) ∈ get_tasks_by_status tasks status
  ↔ tasks !! i = Some r ∧ t_status r = status.
Proof.
  unfold get_tasks_by_status.
  rewrite order_by_perm, list_elem_of_filter, elem_of_map_to_list. simpl. tauto.
Qed.

Lemma failed_links_elem src (tasks : gmap Z TaskRow) x :
  x ∈ failed_links src tasks
  ↔ x ∈ src ∧ ∃ i r, tasks !! i = Some r ∧ t_status r = L "failed"
                     ∧ t_source_link_id r = id x.
Proof.
  unfold failed_links, detect_failed_tasks.
  rewrite get_links_by_ids_elem, list_elem_of_fmap. split.
  - intros [Hin ([i r] & Hs & Hr)]. apply get_tasks_by_status_elem in Hr as [Hr Hst].
    split; [done|]. by exists i, r.
  - intros [Hin (i & r & Hr & Hst & Hs)]. split; [done|]. exists (i, r).
    split; [done|]. by apply get_tasks_by_status_elem.
Qed.

(** The links retried for failed tasks: exactly the upstream rows, of any
    kind, whose id is the [source_link_id] of a task with status [failed],
    in ascending id.  A failed task whose upstream row is gone yields no
    link, and when no task has failed the list is empty. *)
Theorem failed_links_spec (src : SourceDatabase) (tasks : gmap Z TaskRow) :
  (∀ x, x ∈ failed_links src tasks
        ↔ x ∈ src ∧ ∃ i r, tasks !! i = Some r ∧ t_status r = L "failed"
                           ∧ t_source_link_id r = id x)
  ∧ StronglySorted Spec.by_id (failed_links src tasks)
  ∧ (∀ i r, tasks !! i = Some r → t_status r = L "failed" →
       t_source_link_id r ∉ id <$> src →
       ∀ x, x ∈ failed_links src tasks → id x ≠ t_source_link_id r)
  ∧ ((∀ i r, tasks !! i = Some r → t_status r ≠ L "failed") →
     failed_links src tasks = []).
Proof.
  split; [apply failed_links_elem|]. split; [apply failed_links_sorted|]. split.
  - intros i r Hr Hst Hno x [Hin _]%failed_links_elem Hid.
    apply Hno. rewrite <- Hid. apply list_elem_of_fmap. by exists x.
  - intros Hno. apply nil_no_elem. intros x (_ & i & r & Hr & Hst & _)%failed_links_elem.
    by destruct (Hno i r Hr).
Qed.

Lemma filter_ext_elem {X} (P Q : X → Prop) `{!∀ x, Decision (P x)}
    `{!∀ x, Decision (Q x)} (l : list X) :
  (∀ x, x ∈ l → P x ↔ Q x) → filter P l = filter Q l.
Proof.
  induction l as [|a l IH]; intros Hpq; [done|].
  rewrite !filter_cons. rewrite IH by (intros x Hx; apply Hpq; by right).
  assert (P a ↔ Q a) as Ha by (apply Hpq; by left).
  destruct (decide (P a)) as [Hp|Hp]; destruct (decide (Q a)) as [Hq|Hq];
    try done; tauto.
Qed.

Lemma length_filter_mono {X} (P Q : X → Prop) `{!∀ x, Decision (P x)}
    `{!∀ x, Decision (Q x)} (l : list X) :
  (∀ x, P x → Q x) → (length (filter P l) ≤ length (filter Q l))%nat.
Proof.
  intros Hpq. induction l as [|a l IH]; [done|]. rewrite !filter_cons.
  destruct (decide (P a)) as [Hp|Hp]; destruct (decide (Q a)) as [Hq|Hq];
    simpl; try lia. destruct Hq. by apply Hpq.
Qed.

Section WithLib.

Variable lib : Lib.t.

Lemma get_pending_links_merged src (tasks : gmap Z TaskRow)
    include_failed include_changed link_type deduplicate x :
  x ∈ get_pending_links lib src tasks include_failed include_changed
        link_type deduplicate →
  x ∈ detect_new_links src tasks
  ∨ x ∈ detect_changed_links lib src tasks
  ∨ x ∈ failed_links src tasks.
Proof.
  unfold get_pending_links. intros Hin.
  assert (x ∈ filter_by_type link_type
                (merged_links lib src tasks include_failed include_changed))
    as Hc.
  { destruct deduplicate; [|done]. rewrite dedup_by_url_first in Hin.
    apply first_by_url_elem in Hin as (l1 & l2 & -> & _).
    apply elem_of_app. right. by left. }
  apply filter_by_type_elem in Hc as [_ Hm].
  destruct (merged_links_structure lib src tasks include_failed include_changed)
    as (_ & _ & _ & _ & _ & Hel).
  apply Hel in Hm. tauto.
Qed.

(** Once [prepare_task_for_link] has made the task of an upstream link,
    the detector no longer reports the link, whatever its options: the link
    is not new any more, its stored hash is that of its URL, and its task is
    [pending], not [failed]. *)
Theorem prepared_link_not_pending (w : MainV3.World) (src : SourceDatabase)
    (link : LinkRecord) (school_name : option str)
    (include_failed include_changed : bool) (link_type : option str)
    (deduplicate : bool) :
  unique_source_ids (MainV3.tasks w) → task_ids_fresh w →
  NoDup (id <$> src) → link ∈ src →
  let w' := (MainV3.prepare_task_for_link lib w link school_name).1 in
  link ∉ get_pending_links lib src (MainV3.tasks w') include_failed
           include_changed link_type deduplicate.
Proof.
  intros Hu Hf Hnd Hin w'.
  pose proof (prepare_task_for_link_rows lib w link school_name Hu Hf) as H.
  subst w'. destruct (MainV3.prepare_task_for_link lib w link school_name)
    as [w' i].
  destruct H as (_ & _ & Hrow & _ & _ & Hu' & _). cbn [fst].
  intros [Hp|[Hp|Hp]]%get_pending_links_merged.
  - apply detect_new_links_elem in Hp as [_ Hno]. by destruct (Hno _ _ Hrow).
  - apply (detect_changed_links_elem lib src _ link Hnd Hu') in Hp
      as (_ & j & r & Hr & Hs & Hh).
    assert (j = i) as -> by (by apply (Hu' j i r _ Hr Hrow)).
    rewrite Hrow in Hr. injection Hr as <-. by simpl in Hh.
  - apply failed_links_elem in Hp as (_ & j & r & Hr & Hst & Hs).
    assert (j = i) as -> by (by apply (Hu' j i r _ Hr Hrow)).
    rewrite Hrow in Hr. injection Hr as <-. by simpl in Hst.
Qed.

(** [run_detection]: [total_synced] is the number of upstream rows that are
    not new links.  Upstream rows of a kind that is never crawled count as
    synced, so the figure lies between the number of such rows and
    [total_source]; the logged row carries the same counts. *)
Theorem run_detection_counts (src : SourceDatabase) (tasks : gmap Z TaskRow)
    (include_failed : bool) :
  let '(result, logged) := run_detection lib src tasks include_failed in
  total_source result = Z.of_nat (length src)
  ∧ length (new_links result) = length (filter (is_new tasks) src)
  ∧ total_synced result
    = Z.of_nat (length (filter (λ l, ¬ is_new tasks l) src))
  ∧ Z.of_nat (length (filter (λ l, ¬ crawled_kind l) src))
    ≤ total_synced result ≤ total_source result
  ∧ source_count logged = total_source result
  ∧ new_count logged = Z.of_nat (length (new_links result))
  ∧ changed_count logged = Z.of_nat (length (changed_links result))
  ∧ (include_failed = false → failed_tasks result = []).
Proof.
  unfold run_detection. cbn [total_source new_links total_synced source_count
                             new_count changed_count changed_links failed_tasks].
  assert (Hlen : length (detect_new_links src tasks)
                 = length (filter (is_new tasks) src)).
  { unfold detect_new_links.
    assert (HA : ∀ x, x ∈ src → crawled_kind x →
              id x ∈ (list_to_set (id <$> get_all_links src) : gset Z)).
    { intros x Hx Hk. apply elem_of_list_to_set, list_elem_of_fmap.
      exists x. split; [done|]. by apply get_all_links_elem. }
    set (A := (list_to_set (id <$> get_all_links src) : gset Z)) in *.
    unfold get_all_links. rewrite order_by_perm.
    rewrite list_filter_filter. f_equal. apply filter_ext_elem.
    intros x Hx. unfold is_new, crawled_kind in *.
    rewrite elem_of_difference, elem_of_list_to_set. split; [tauto|].
    intros [Hk Hno]. split; [|done]. split; [|done]. by apply HA. }
  pose proof (filter_app_complement (is_new tasks) src) as Hsplit.
  apply Permutation_length in Hsplit. rewrite length_app in Hsplit.
  assert (length (filter (λ l, ¬ crawled_kind l) src)
          ≤ length (filter (λ l, ¬ is_new tasks l) src))%nat as Hle.
  { apply length_filter_mono. unfold is_new. tauto. }
  unfold get_total_count. rewrite Hlen.
  split; [done|]. split; [done|]. split; [lia|]. split; [lia|].
  split; [done|]. split; [done|]. split; [done|]. by intros ->.
Qed.

End WithLib.

End DetectionFacts.

Lemma two_rows_ids : NoDup (Sync.id <$> Examples.two_rows).
Proof.
  apply (bool_decide_unpack _). by vm_compute.
Qed.

(** Row 2 has a task whose stored hash is out of date: the row is a changed
    link, and row 5, which has no task, is not. *)
Lemma detect_changed_links_spec_witness :
  Examples.link 2 (L "graduate") (L "http://u.example/admissions")
  ∈ Sync.detect_changed_links Examples.lib0 Examples.two_rows
      MoreExamples.stale_task
  ∧ Examples.link 5 (L "undergraduate") (L "http://u.example/admissions")
    ∉ Sync.detect_changed_links Examples.lib0 Examples.two_rows
        MoreExamples.stale_task.
Proof.
  destruct (detect_changed_links_spec Examples.lib0 Examples.two_rows
              MoreExamples.stale_task two_rows_ids
              (unique_source_ids_singleton _ _)) as [H _].
  split.
  - apply H. split; [by left|]. split; [by left|].
    eexists _, _. split; [vm_compute; reflexivity | vm_compute; discriminate].
  - intros (_ & _ & i & r & Hg & _)%H. vm_compute in Hg. discriminate.
Defined.

(** Row 2, whose task has failed, is prepared again: the detector, which
    reported it before, does not report it any more. *)
Lemma prepared_link_not_pending_witness :
  let link := Examples.link 2 (L "graduate") (L "http://u.example/admissions") in
  link ∈ Sync.get_pending_links Examples.lib0 Examples.two_rows
           (MainV3.tasks MoreExamples.w1) true true None false
  ∧ link ∉ Sync.get_pending_links Examples.lib0 Examples.two_rows
             (MainV3.tasks
                (MainV3.prepare_task_for_link Examples.lib0 MoreExamples.w1
                   link None).1)
             true true None false.
Proof.
  intros link. split.
  - assert (Sync.get_pending_links Examples.lib0 Examples.two_rows
              (MainV3.tasks MoreExamples.w1) true true None false
            = [Examples.link 5 (L "undergraduate") (L "http://u.example/admissions");
               link]) as -> by (vm_compute; reflexivity).
    right. by left.
  - apply (prepared_link_not_pending Examples.lib0 MoreExamples.w1
             Examples.two_rows link None true true None false).
    + apply unique_source_ids_singleton.
    + apply (task_ids_fresh_singleton 2 1). lia.
    + apply two_rows_ids.
    + by left.
Defined.

(** ** The upstream catalog *)

Section SourceFacts.

Import TargetDb Sync SourceDb.

Lemma length_order_by {X} (key : X → Z) (l : list X) :
  length (order_by key l) = length l.
Proof. apply Permutation_length, order_by_perm. Qed.

Lemma length_filter_or {X} (P Q R : X → Prop) `{!∀ x, Decision (P x)}
    `{!∀ x, Decision (Q x)} `{!∀ x, Decision (R x)} (l : list X) :
  (∀ x, R x ↔ P x ∨ Q x) → (∀ x, P x → Q x → False) →
  (length (filter P l) + length (filter Q l) = length (filter R l))%nat.
Proof.
  intros HR Hd. induction l as [|a l IH]; [done|]. rewrite !filter_cons.
  pose proof (HR a). pose proof (Hd a).
  destruct (decide (P a)); destruct (decide (Q a)); destruct (decide (R a));
    rewrite ?length_cons; try lia; tauto.
Qed.

(** The total that [get_progress] reports, [graduate + undergraduate], is
    the number of links [get_all_links] returns, and each count is the
    length of the list [get_links_by_type] returns for the kind. *)
Theorem total_needed_all_links (src : SourceDatabase) :
  total_needed src = Z.of_nat (length (get_all_links src))
  ∧ (∀ kind, get_count_by_type src kind
             = Z.of_nat (length (get_links_by_type src kind)))
  ∧ total_needed src ≤ get_total_count src.
Proof.
  assert (Hsum : total_needed src = Z.of_nat (length (get_all_links src))).
  { unfold total_needed, get_count_by_type, get_all_links.
    rewrite length_order_by, <- Nat2Z.inj_add. f_equal.
    apply length_filter_or; [done|]. intros l Hg Hu. rewrite Hg in Hu.
    discriminate. }
  split; [done|]. split.
  - intros kind. unfold get_count_by_type, get_links_by_type.
    by rewrite length_order_by.
  - rewrite Hsum. unfold get_all_links, get_total_count.
    rewrite length_order_by. apply inj_le, length_filter.
Qed.

(** With unique upstream ids, a row is found by its id: [get_link_by_id]
    returns it, and [get_links_by_ids] for that one id returns it alone. *)
Theorem upstream_lookup_by_id (src : SourceDatabase) (x : LinkRecord) :
  NoDup (id <$> src) → x ∈ src →
  get_link_by_id src (id x) = Some x
  ∧ get_links_by_ids src [id x] = [x].
Proof.
  intros Hnd Hx.
  assert (Hf : ∀ (P : LinkRecord → Prop) `{!∀ l, Decision (P l)},
            (∀ l, P l ↔ id l = id x) → filter P src = [x]).
  { intros P ? HP. clear -Hnd Hx HP.
    induction src as [|a src IH]; [by apply elem_of_nil in Hx|].
    rewrite fmap_cons in Hnd. apply NoDup_cons in Hnd as [Ha Hnd].
    rewrite filter_cons. apply elem_of_cons in Hx as [->|Hx].
    - rewrite decide_True by (by apply HP). f_equal.
      apply nil_no_elem. intros y [Hy Hin]%list_elem_of_filter.
      apply Ha. apply HP in Hy. rewrite <- Hy. apply list_elem_of_fmap. by exists y.
    - rewrite decide_False; [by apply IH|].
      intros Hpa%HP. apply Ha. rewrite Hpa. apply list_elem_of_fmap. by exists x. }
  split.
  - unfold get_link_by_id. by rewrite (Hf (λ l, id l = id x) _).
  - unfold get_links_by_ids.
    rewrite (Hf (λ l, id l ∈ [id x]) _).
    + by vm_compute.
    + intros l. by rewrite list_elem_of_singleton.
Qed.

End SourceFacts.

(** Row 5 of the two upstream rows is found by its id. *)
Lemma upstream_lookup_by_id_witness :
  let x := Examples.link 5 (L "undergraduate") (L "http://u.example/admissions") in
  SourceDb.get_link_by_id Examples.two_rows 5 = Some x
  ∧ Sync.get_links_by_ids Examples.two_rows [5] = [x].
Proof.
  intros x. apply (upstream_lookup_by_id Examples.two_rows x two_rows_ids).
  right. by left.
Defined.

(** ** Downloads *)

Section FetchFacts.

Import Downloader Fetch.

Variable lib : Lib.t.

Lemma stream_chunks_done max chunks written size written' n :
  stream_chunks max chunks written size = StreamDone written' n →
  written' = written ++ concat chunks
  ∧ n = size + Z.of_nat (length (concat chunks))
  ∧ (size ≤ max → n ≤ max).
Proof.
  revert written size. induction chunks as [|c chunks IH]; intros written size; simpl.
  - intros [= <- <-]. rewrite app_nil_r. split; [done|]. split; lia.
  - destruct c as [|b c]; simpl.
    + intros H. apply IH in H. done.
    + case_decide as Hgt; [done|]. intros H. apply IH in H as (-> & -> & Hle).
      rewrite <- app_assoc. split; [done|].
      rewrite length_app. simpl length. split; [lia|]. intros _. apply Hle. lia.
Qed.

(** A successful [download_file]: the server answered 200 and the stream
    ended normally; the file at the returned [local_path] holds exactly the
    bytes of the body, [file_size] is their number, which is at most
    [max_size], and nothing else on the disk has changed.  A failed one
    returns no path and an error text, and changes the disk at one path at
    most. *)
Theorem download_file_result (self : FileDownloader) (net : Net) (disk : Disk)
    (url : str) (save_name task_folder : option str) :
  0 ≤ max_size self →
  let '(r, disk', _) :=
    download_file lib self net disk url save_name task_folder in
  Downloader.url r = url
  ∧ (success r = true →
     ∃ resp p,
       http_get net url = GetResponse resp
       ∧ status_code resp = 200 ∧ body_end resp = EndOk
       ∧ local_path r = Some p ∧ is_Some (file_name r)
       ∧ disk' = <[p := concat (body resp)]> disk
       ∧ file_size r = Some (Z.of_nat (length (concat (body resp))))
       ∧ Z.of_nat (length (concat (body resp))) ≤ max_size self
       ∧ error_message r = None)
  ∧ (success r = false →
     local_path r = None ∧ is_Some (error_message r)
     ∧ ∃ p, ∀ q, q ≠ p → disk' !! q = disk !! q).
Proof.
  intros Hmax. unfold download_file.
  destruct (http_get net url) as [resp| |msg|msg] eqn:Hget.
  2-4: (split; [done|]; split; [done|]; intros _; split; [done|];
        split; [by eexists|]; by exists []).
  assert (Hdisk : ∀ (p : str) (d : Disk),
            d = disk ∨ d = delete p disk ∨ (∃ data, d = <[p := data]> disk) →
            ∃ p, ∀ q, q ≠ p → d !! q = disk !! q).
  { intros p d [->|[->|[data ->]]]; exists p; intros q Hq; [done| |].
    - by rewrite lookup_delete_ne.
    - by rewrite lookup_insert_ne. }
  case_decide as Hst.
  { split; [done|]. split; [done|]. intros _. split; [done|].
    split; [by eexists|]. by exists []. }
  assert (status_code resp = 200) as Hst'
    by (by destruct (decide (status_code resp = 200))).
  destruct (content_length resp) as [|n|msg] eqn:Hcl.
  3:{ split; [done|]. split; [done|]. intros _. split; [done|].
      split; [by eexists|]. by exists []. }
  all: destruct (oversize_header self _) as [m|] eqn:Hov.
  1,3: (split; [done|]; split; [done|]; intros _; split; [done|];
        split; [by eexists|]; by exists []).
  all: destruct (os_open net _) as [msg|] eqn:Hopen.
  1,3: (split; [done|]; split; [done|]; intros _; split; [done|];
        split; [by eexists|]; by exists []).
  all: destruct (stream_chunks _ _ _ _) as [written k|k] eqn:Hstream.
  2,4: (split; [done|]; split; [done|]; intros _; split; [done|];
        split; [by eexists|]; eapply Hdisk; right; left; reflexivity).
  all: apply stream_chunks_done in Hstream as (-> & -> & Hle).
  all: destruct (body_end resp) as [| |msg|msg] eqn:Hend.
  all: split; [done|]; split.
  all: try (intros Hs; discriminate Hs).
  all: try (intros _; split; [done|]; split; [by eexists|];
            eapply Hdisk; right; right; eexists; reflexivity).
  all: intros _; exists resp; eexists; split; [done|]; split; [done|];
    split; [done|]; split; [reflexivity|]; split; [by eexists|];
    split; [done|]; split; [done|]; split; [|done]; cbn [app] in Hle; lia.
Qed.

Lemma _get_extension_default url ct :
  _get_extension lib url (Some (default (L "application/octet-stream") ct))
  = _get_extension lib url ct.
Proof.
  unfold _get_extension. destruct (find _ SUPPORTED_EXTENSIONS); [done|].
  destruct ct as [[|c ct]|]; try done.
Qed.

(** [download_to_memory] and [download_file] without a caller's name agree,
    when the local file can be opened: they send the same request and return
    the same outcome, size, name and error text; [download_to_memory] returns
    no path and touches no disk, and on success its [file_data] is what
    [download_file] leaves in the file at its [local_path]. *)
Theorem download_to_memory_agrees (self : FileDownloader) (net : Net)
    (disk : Disk) (url : str) (task_folder : option str) :
  (∀ p, os_open net p = None) →
  let '(r, disk', log) :=
    download_file lib self net disk url None task_folder in
  let '(m, file_data, content_type, log') :=
    download_to_memory lib self net url in
  success m = success r
  ∧ Downloader.url m = Downloader.url r
  ∧ file_size m = file_size r
  ∧ file_name m = file_name r
  ∧ error_message m = error_message r
  ∧ local_path m = None
  ∧ log' = log
  ∧ (success r = true →
     ∃ p, local_path r = Some p ∧ file_data = disk' !! p
          ∧ is_Some content_type)
  ∧ (success r = false → file_data = None ∧ content_type = None).
Proof.
  intros Hopen. unfold download_file, download_to_memory.
  destruct (http_get net url) as [resp| |msg|msg] eqn:Hget; try by repeat split.
  case_decide as Hst; [by repeat split|].
  unfold choose_filename, with_extension. rewrite _get_extension_default.
  destruct (content_length resp) as [|n|msg] eqn:Hcl; [| |by repeat split].
  all: destruct (oversize_header self _) as [m|] eqn:Hov; [by repeat split|].
  all: rewrite Hopen.
  all: destruct (stream_chunks _ _ _ _) as [written k|k] eqn:Hstream;
    [|by repeat split].
  all: destruct (body_end resp) as [| |msg|msg] eqn:Hend; try by repeat split.
  all: repeat (split; [done|]); split; [|done].
  all: intros _; eexists; split; [reflexivity|]; split; [|by eexists].
  all: by rewrite lookup_insert_eq.
Qed.



End FetchFacts.

(** A body of two chunks, 3 bytes in all, for a limit of 4 bytes: the file
    holds the 3 bytes. *)
Lemma download_file_result_witness :
  let '(r, disk', _) :=
    Downloader.download_file Examples.lib0 Examples.tiny
      (Examples.net_of (Examples.response Downloader.CLAbsent
                          [Examples.b 1; Examples.b 2]))
      ∅ (L "http://u.example/a.pdf") None None in
  Downloader.success r = true
  ∧ Downloader.file_size r = Some 3
  ∧ ∃ p, Downloader.local_path r = Some p ∧ disk' !! p = Some (Examples.b 3).
Proof.
  pose proof (download_file_result Examples.lib0 Examples.tiny
                (Examples.net_of (Examples.response Downloader.CLAbsent
                                    [Examples.b 1; Examples.b 2]))
                ∅ (L "http://u.example/a.pdf") None None) as H.
  assert (Downloader.success
            (Downloader.download_file Examples.lib0 Examples.tiny
               (Examples.net_of (Examples.response Downloader.CLAbsent
                                   [Examples.b 1; Examples.b 2]))
               ∅ (L "http://u.example/a.pdf") None None).1.1 = true) as Hs
    by (vm_compute; reflexivity).
  destruct (Downloader.download_file _ _ _ _ _ _ _) as [[r disk'] log].
  cbn [fst] in Hs.
  destruct H as (_ & Hok & _); [vm_compute; discriminate|].
  destruct (Hok Hs) as (resp & p & Hget & _ & _ & Hp & _ & Hd & Hsz & _).
  injection Hget as <-. split; [done|]. split; [done|].
  exists p. split; [done|]. rewrite Hd. apply lookup_insert_eq.
Defined.

(** The same download kept in memory: the same name and size, and the
    3 bytes as [file_data]. *)
Lemma download_to_memory_agrees_witness :
  let net := Examples.net_of (Examples.response Downloader.CLAbsent
                                [Examples.b 1; Examples.b 2]) in
  let r := (Downloader.download_file Examples.lib0 Examples.tiny net ∅
              (L "http://u.example/a.pdf") None None).1.1 in
  let '(m, file_data, _, _) :=
    Fetch.download_to_memory Examples.lib0 Examples.tiny net
      (L "http://u.example/a.pdf") in
  Downloader.file_name m = Downloader.file_name r
  ∧ Downloader.file_size m = Some 3
  ∧ file_data = Some (Examples.b 3).
Proof.
  intros net r.
  pose proof (download_to_memory_agrees Examples.lib0 Examples.tiny net ∅
                (L "http://u.example/a.pdf") None) as H.
  subst r.
  destruct (Downloader.download_file _ _ _ _ _ _ _) as [[r disk'] log] eqn:E.
  destruct (Fetch.download_to_memory _ _ _ _) as [[[m file_data] ct] log'] eqn:E'.
  destruct H as (_ & _ & Hsz & Hname & _); [done|].
  vm_compute in E'. injection E' as <- <- _ _. split; [exact Hname|]. done.
Defined.

(** ** Sanitised names *)

Section SanitizeFacts.

Import Renamer.

Lemma collapse_us_no_run_id s :
  (∀ a b, s ≠ a ++ "_"%char :: "_"%char :: b) → collapse_us s = s.
Proof.
  induction s as [|c s IH]; [done|]. intros Hno.
  destruct s as [|d s]; [done|]. rewrite collapse_us_cons.
  destruct (is_us c && is_us d) eqn:E.
  - apply andb_true_iff in E as [Hc Hd]. unfold is_us in *.
    apply bool_decide_eq_true in Hc, Hd. subst. by destruct (Hno [] s).
  - f_equal. apply IH. intros a b Hab. apply (Hno (c :: a) b).
    by rewrite Hab.
Qed.

Lemma sanitized_fixed name :
  Spec.sanitized name → _sanitize_filename name = name.
Proof.
  intros (Hlegal & Hrun & Hhead & Hlast). unfold _sanitize_filename.
  rewrite replace_illegal_id by done. rewrite collapse_us_no_run_id by done.
  unfold strip. rewrite lstrip_id by done. by rewrite rstrip_id.
Qed.

Lemma lstrip_length c s : (length (lstrip c s) ≤ length s)%nat.
Proof.
  induction s as [|d s IH]; [done|]. simpl. case_decide; simpl; lia.
Qed.

Lemma collapse_us_length s : (length (collapse_us s) ≤ length s)%nat.
Proof.
  induction s as [|c s IH]; [done|]. destruct s as [|d s]; [done|].
  rewrite collapse_us_cons. destruct (is_us c && is_us d); simpl in *; lia.
Qed.

Lemma collapse_us_keeps s c : c ∈ s → is_us c = false → c ∈ collapse_us s.
Proof.
  induction s as [|a s IH]; [by intros ?%elem_of_nil|]. intros Hin Hc.
  destruct s as [|d s]; [done|]. rewrite collapse_us_cons.
  apply elem_of_cons in Hin as [->|Hin].
  - rewrite Hc. simpl. by left.
  - destruct (is_us a && is_us d); [by apply IH | right; by apply IH].
Qed.

Lemma strip_nil c s : strip c s = [] ↔ Forall (λ d, d = c) s.
Proof.
  unfold strip. split.
  - intros Hs. destruct (lstrip_suffix c s) as (t & Ht & Hall).
    destruct (rstrip_prefix c (lstrip c s)) as (u & Hu & Hall').
    rewrite Hs in Hu. simpl in Hu. rewrite Ht, Hu. by apply Forall_app.
  - intros Hall. rewrite lstrip_all by done. done.
Qed.

(** [_sanitize_filename] is idempotent: a name that holds no illegal path
    character, no run of underscores and no underscore at either end comes
    out as it went in, and every result is such a name.  The function never
    makes a name longer, and its result is empty exactly for a name made of
    illegal characters and underscores only. *)
Theorem _sanitize_filename_idempotent (filename : str) :
  _sanitize_filename (_sanitize_filename filename) = _sanitize_filename filename
  ∧ (Spec.sanitized filename → _sanitize_filename filename = filename)
  ∧ (length (_sanitize_filename filename) ≤ length filename)%nat
  ∧ (_sanitize_filename filename = []
     ↔ Forall (λ c, illegal_char c = true ∨ c = "_"%char) filename).
Proof.
  split; [apply sanitized_fixed, _sanitize_filename_sanitized|].
  split; [apply sanitized_fixed|]. split.
  - unfold _sanitize_filename, strip, rstrip.
    rewrite length_rev.
    etrans; [apply lstrip_length|]. rewrite length_rev.
    etrans; [apply lstrip_length|].
    etrans; [apply collapse_us_length|].
    unfold replace_illegal. by rewrite length_map.
  - unfold _sanitize_filename. rewrite strip_nil, !Forall_forall. split.
    + intros Hall c Hc. destruct (illegal_char c) eqn:Hi; [by left|]. right.
      assert (c ∈ replace_illegal filename) as Hr.
      { unfold replace_illegal. apply list_elem_of_fmap. exists c.
        by rewrite Hi. }
      destruct (is_us c) eqn:Hu; [by apply bool_decide_eq_true in Hu|].
      by apply Hall, collapse_us_keeps.
    + intros Hall c Hc%collapse_us_sub. unfold replace_illegal in Hc.
      apply list_elem_of_fmap in Hc as (d & -> & Hd).
      destruct (illegal_char d) eqn:Hi; [done|].
      destruct (Hall d Hd); congruence.
Qed.


End SanitizeFacts.

(** ** Storage paths *)

Section StorageFacts.

Import Storage.

Lemma contains_cons_false c s sub :
  contains (c :: s) sub = false →
  startswith (c :: s) sub = false ∧ contains s sub = false.
Proof. simpl. by intros [? ?]%orb_false_iff. Qed.

Lemma split_go_none sep s :
  contains s sep = false → split_go sep 0 s = [s].
Proof.
  induction s as [|c s IH]; [done|]. intros [Hs Hc]%contains_cons_false.
  cbn [split_go]. rewrite Hs. by rewrite IH.
Qed.

Lemma split_go_skip sep k r :
  split_go sep (length k) (k ++ r) = split_go sep 0 r.
Proof. induction k as [|c k IH]; [done|]. simpl. apply IH. Qed.

Lemma startswith_app (p t : str) : startswith (p ++ t) p = true.
Proof. apply startswith_spec. by exists t. Qed.

(** The remote path that [_process_single_file] recovers from a stored
    [storage_path] is the path [get_storage_path] was given, provided that
    path does not itself contain the bucket name followed by a slash; the
    split then yields an empty first piece and the path. *)
Theorem remote_path_round_trip (bucket remote_path : str) :
  contains remote_path (bucket ++ L "/") = false →
  split_str (bucket ++ L "/") (get_storage_path bucket remote_path)
  = [[]; remote_path]
  ∧ remote_path_of bucket (get_storage_path bucket remote_path) = remote_path.
Proof.
  intros Hno.
  assert (split_str (bucket ++ L "/") (get_storage_path bucket remote_path)
          = [[]; remote_path]) as Hs.
  { unfold split_str, get_storage_path. rewrite app_assoc.
    set (sep := bucket ++ L "/") in *.
    assert (∃ c k, sep = c :: k) as (c & k & Hsep).
    { subst sep. destruct bucket; simpl; by eexists _, _. }
    pose proof (startswith_app sep remote_path) as Hst.
    rewrite Hsep in *. cbn [app split_go]. cbn [app] in Hst. rewrite Hst.
    replace (length (c :: k) - 1)%nat with (length k) by (simpl; lia).
    rewrite split_go_skip.
    by rewrite split_go_none. }
  split; [done|]. unfold remote_path_of. by rewrite Hs.
Qed.

End StorageFacts.

(** The storage path of an uploaded file gives back its remote path. *)
Lemma remote_path_round_trip_witness :
  Storage.remote_path_of (L "university-files")
    (L "university-files/task_1/raw/guide.pdf")
  = L "task_1/raw/guide.pdf".
Proof.
  apply (remote_path_round_trip (L "university-files") (L "task_1/raw/guide.pdf")).
  vm_compute. reflexivity.
Defined.

(** ** From the crawl to the files to download *)

Section FileNodeFacts.

Import TargetDb Tasks.

Lemma batch_insert_nodes_upsert t task_id nodes :
  batch_insert_nodes t task_id nodes = upsert_nodes task_id nodes t.
Proof. by destruct nodes. Qed.

(** The files a task downloads.  After [batch_insert_nodes] on a task
    without rows and [mark_nodes_pruned] with a non-empty list, the query
    [get_file_nodes(task_id, pruned_only=True)] returns a node for exactly
    the indices that are in the list and whose last payload entry has a URL
    ending, letter case aside, in .pdf, .doc, .docx, .xls or .xlsx, with that
    URL.  When the list of kept indices is empty, as it is when the pruned
    CSV cannot be read, the query returns nothing and no file is
    downloaded. *)
Theorem crawl_file_nodes (t t1 : NodeTable) (task_id : Z)
    (nodes : list PyNode) (pruned_indices : list Z) :
  batch_insert_nodes t task_id nodes = Some t1 →
  (∀ idx, nt_rows t !! (task_id, idx) = None) →
  let found :=
    get_file_nodes (mark_nodes_pruned t1 task_id pruned_indices) task_id true in
  (pruned_indices ≠ [] →
   ∀ idx, idx ∈ nr_node_index <$> found
          ↔ idx ∈ pruned_indices
            ∧ ∃ n, Spec.last_with_index idx nodes = Some n
                   ∧ Spec.is_document_url (node_url_val n))
  ∧ (∀ nr, nr ∈ found →
       ∃ n, Spec.last_with_index (nr_node_index nr) nodes = Some n
            ∧ n_url (nr_row nr) = node_url_val n
            ∧ n_title (nr_row nr) = k_title n)
  ∧ (pruned_indices = [] → found = []).
Proof.
  intros Hins Hfresh found. rewrite batch_insert_nodes_upsert in Hins.
  assert (Hrow : ∀ idx,
            match Spec.last_with_index idx nodes with
            | Some n => ∃ base, nt_rows t1 !! (task_id, idx) = Some (overwrite n base)
                                ∧ n_is_pruned base = false
            | None => nt_rows t1 !! (task_id, idx) = None
            end).
  { intros idx.
    pose proof (upsert_nodes_lookup task_id nodes t t1 (task_id, idx) Hins) as H.
    cbn [fst snd] in H. rewrite decide_True in H by done.
    destruct (Spec.last_with_index idx nodes) as [n|].
    - destruct H as (base & Hb & _ & Hp). exists base. split; [done|].
      by apply Hp.
    - by rewrite H. }
  split; [|split].
  - intros Hne idx. rewrite list_elem_of_fmap. split.
    + intros (nr & -> & Hin). apply get_file_nodes_elem in Hin as (Ht & Hr & Hf & Hp).
      rewrite mark_nodes_pruned_lookup in Hr by done. cbn [fst snd] in Hr.
      destruct (decide (task_id = task_id)) as [_|]; [|done]. specialize (Hrow (nr_node_index nr)).
      destruct (Spec.last_with_index (nr_node_index nr) nodes) as [n|].
      * destruct Hrow as (base & Hb & _). rewrite Hb in Hr. simpl in Hr.
        injection Hr as Hr. rewrite <- Hr in Hf, Hp. simpl in Hf, Hp.
        specialize (Hp eq_refl). apply bool_decide_eq_true in Hp.
        split; [done|]. exists n. split; [done|]. by apply detect_is_file_spec.
      * by rewrite Hrow in Hr.
    + intros (HS & n & Hn & Hdoc). specialize (Hrow idx). rewrite Hn in Hrow.
      destruct Hrow as (base & Hb & _).
      exists (mkNodeRecord task_id idx
                (set_pruned (bool_decide (idx ∈ pruned_indices)) (overwrite n base))).
      split; [done|]. apply get_file_nodes_elem. cbn.
      split; [done|]. split.
      { rewrite mark_nodes_pruned_lookup by done. cbn [fst snd].
        destruct (decide (task_id = task_id)) as [_|]; [|done]. by rewrite Hb. }
      split; [by apply detect_is_file_spec|].
      intros _. by apply bool_decide_eq_true.
  - intros nr Hin. apply get_file_nodes_elem in Hin as (Ht & Hr & Hf & Hp).
    specialize (Hrow (nr_node_index nr)).
    destruct pruned_indices as [|i0 S'].
    + cbn [mark_nodes_pruned] in Hr.
      destruct (Spec.last_with_index (nr_node_index nr) nodes) as [n|].
      * destruct Hrow as (base & Hb & _). rewrite Hb in Hr. injection Hr as Hr.
        exists n. rewrite <- Hr. done.
      * by rewrite Hrow in Hr.
    + rewrite mark_nodes_pruned_lookup in Hr by done. cbn [fst snd] in Hr.
      destruct (decide (task_id = task_id)) as [_|]; [|done].
      destruct (Spec.last_with_index (nr_node_index nr) nodes) as [n|].
      * destruct Hrow as (base & Hb & _). rewrite Hb in Hr. simpl in Hr.
        injection Hr as Hr. exists n. rewrite <- Hr. done.
      * by rewrite Hrow in Hr.
  - intros ->. apply nil_no_elem. intros nr Hin.
    apply get_file_nodes_elem in Hin as (Ht & Hr & Hf & Hp).
    cbn [mark_nodes_pruned] in Hr. specialize (Hrow (nr_node_index nr)).
    destruct (Spec.last_with_index (nr_node_index nr) nodes) as [n|].
    + destruct Hrow as (base & Hb & Hbp). rewrite Hb in Hr. injection Hr as Hr.
      specialize (Hp eq_refl). rewrite <- Hr in Hp. simpl in Hp. congruence.
    + by rewrite Hrow in Hr.
Qed.

End FileNodeFacts.

(** A crawl that finds the seed page (index 0) and one PDF (index 1) and
    keeps both: the PDF is a file to download, the page is not. *)
Lemma crawl_file_nodes_witness :
  ∃ t1,
    TargetDb.batch_insert_nodes (TargetDb.mkNodeTable ∅ 1) 1
      (MainV3.seek_nodes (Examples.crawl_env None)) = Some t1
    ∧ 1 ∈ TargetDb.nr_node_index
            <$> TargetDb.get_file_nodes
                  (TargetDb.mark_nodes_pruned t1 1 [0; 1]) 1 true
    ∧ 0 ∉ TargetDb.nr_node_index
            <$> TargetDb.get_file_nodes
                  (TargetDb.mark_nodes_pruned t1 1 [0; 1]) 1 true.
Proof.
  destruct (TargetDb.batch_insert_nodes (TargetDb.mkNodeTable ∅ 1) 1
              (MainV3.seek_nodes (Examples.crawl_env None))) as [t1|] eqn:E;
    [|vm_compute in E; discriminate].
  exists t1. split; [done|].
  destruct (crawl_file_nodes (TargetDb.mkNodeTable ∅ 1) t1 1
              (MainV3.seek_nodes (Examples.crawl_env None)) [0; 1] E)
    as (H & _); [done|].
  specialize (H ltac:(discriminate)). split.
  - apply H. split; [right; by left|].
    exists (Examples.py_node 1 (L "http://u.example/guide.pdf")).
    split; [vm_compute; reflexivity|]. apply detect_is_file_spec.
    vm_compute. reflexivity.
  - intros (_ & n & Hn & Hdoc)%H. vm_compute in Hn. injection Hn as <-.
    apply detect_is_file_spec in Hdoc. vm_compute in Hdoc. discriminate.
Defined.

(** ** The phases of a task *)

Section PhaseFacts.

Import TargetDb Downloader MainV3 Inv.

Variable lib : Lib.t.

(** What [download_file] returns does not depend on the disk. *)
Lemma download_file_any_disk self net disk disk' url save_name task_folder :
  (download_file lib self net disk url save_name task_folder).1.1
  = (download_file lib self net disk' url save_name task_folder).1.1.
Proof. unfold download_file. repeat case_match; reflexivity. Qed.

Lemma download_one_files cfg env task_id w node :
  let t := files w in
  let t' := files (download_one lib cfg env task_id w node) in
  ft_next_id t' = ft_next_id t + 1
  ∧ (∀ j, j ≠ ft_next_id t → ft_rows t' !! j = ft_rows t !! j)
  ∧ (∃ r, ft_rows t' !! ft_next_id t = Some r
          ∧ downloaded_row lib cfg env task_id node r)
  ∧ nodes (download_one lib cfg env task_id w node) = nodes w
  ∧ next_task_id (download_one lib cfg env task_id w node) = next_task_id w.
Proof.
  intros t t'. subst t t'. unfold download_one, downloaded_row.
  cbn [create_file_record set_files files disk].
  rewrite (download_file_any_disk (downloader cfg) (net env) ∅ (disk w)).
  destruct (download_file lib (downloader cfg) (net env) (disk w)
              (n_url (nr_row node)) None (Some (task_folder lib task_id)))
    as [[result d] l]. cbn [fst].
  assert (Htr : ∀ x, truthy (Some (bucket env ++ L "/" ++ x)) = true)
    by (intros x; by destruct (bucket env)).
  destruct (Downloader.success result) eqn:Hs.
  - destruct (upload_ok env _) eqn:Hu;
      cbn [set_files set_disk set_blob files disk nodes next_task_id
           ft_next_id ft_rows update_file_download].
    + split; [done|]. split; [intros j Hj; rewrite lookup_alter_ne by done;
                              by rewrite lookup_insert_ne|].
      split; [|done]. eexists. rewrite lookup_alter_eq, lookup_insert_eq.
      split; [reflexivity|]. unfold update_file_download_row.
      cbn [f_task_id f_node_id f_original_url f_original_name f_process_status
           f_llm_processed f_download_status f_storage_path f_file_size].
      rewrite Htr. unfold Storage.get_storage_path.
      repeat split; try done.
    + split; [done|]. split; [intros j Hj; by rewrite lookup_insert_ne|].
      split; [|done]. eexists. rewrite lookup_insert_eq.
      split; [reflexivity|]. done.
  - cbn [set_files set_disk set_blob files disk nodes next_task_id
         ft_next_id ft_rows update_file_download].
    split; [done|]. split; [intros j Hj; rewrite lookup_alter_ne by done;
                            by rewrite lookup_insert_ne|].
    split; [|done]. eexists. rewrite lookup_alter_eq, lookup_insert_eq.
    split; [reflexivity|]. done.
Qed.

Lemma foldl_download_one cfg env task_id file_nodes w :
  let w' := foldl (download_one lib cfg env task_id) w file_nodes in
  ft_next_id (files w') = ft_next_id (files w) + Z.of_nat (length file_nodes)
  ∧ (∀ j, j < ft_next_id (files w) →
          ft_rows (files w') !! j = ft_rows (files w) !! j)
  ∧ (∀ k node, file_nodes !! k = Some node →
       ∃ r, ft_rows (files w') !! (ft_next_id (files w) + Z.of_nat k) = Some r
            ∧ downloaded_row lib cfg env task_id node r)
  ∧ nodes w' = nodes w
  ∧ next_task_id w' = next_task_id w.
Proof.
  revert w. induction file_nodes as [|n ns IH]; intros w w'.
  - subst w'. simpl. split; [lia|]. split; [done|]. split; [|done].
    by intros k node ?.
  - subst w'. cbn [foldl].
    destruct (download_one_files cfg env task_id w n) as (Hn & Ho & (r & Hr & Hd) & Hnd & Hnt).
    destruct (IH (download_one lib cfg env task_id w n)) as (IH1 & IH2 & IH3 & IH4 & IH5).
    split; [rewrite IH1, Hn; cbn [length]; lia|]. split.
    { intros j Hj. rewrite IH2 by lia. apply Ho. lia. }
    split; [|split; congruence].
    intros [|k] node Hk.
    + injection Hk as <-. exists r. rewrite Z.add_0_r, IH2 by lia. done.
    + simpl in Hk. destruct (IH3 k node Hk) as (r' & Hr' & Hd').
      exists r'. split; [|done]. rewrite <- Hr'. f_equal. lia.
Qed.

(** [download_files] with downloads enabled: every file node of the task
    that pruning kept gets one new file row, under consecutive new ids in
    the order of the node indices.  The row holds the node's id, URL and
    title, is pending for the rename phase, and its download status is
    [completed] when the download and the upload succeeded (with the storage
    path of the upload), [failed] when the download failed, and still
    [pending] when the upload raised.  Older file rows and the nodes are
    untouched, and with at least one file node the task ends [completed]
    with [file_count] the number of file nodes, whatever happened to them. *)
Theorem download_files_records (cfg : Config) (env : Env) (task_id : Z)
    (w : World) :
  enable_download cfg = true →
  let file_nodes := get_file_nodes (nodes w) task_id true in
  let w' := download_files lib cfg env task_id w in
  ft_next_id (files w')
  = ft_next_id (files w) + Z.of_nat (length file_nodes)
  ∧ (∀ j, j < ft_next_id (files w) →
          ft_rows (files w') !! j = ft_rows (files w) !! j)
  ∧ (∀ k node, file_nodes !! k = Some node →
       ∃ r, ft_rows (files w') !! (ft_next_id (files w) + Z.of_nat k) = Some r
            ∧ downloaded_row lib cfg env task_id node r)
  ∧ nodes w' = nodes w
  ∧ (file_nodes = [] → w' = w)
  ∧ (file_nodes ≠ [] →
     ∀ r0, tasks w !! task_id = Some r0 →
     ∃ r', tasks w' !! task_id = Some r'
           ∧ t_status r' = L "completed"
           ∧ t_file_count r' = Z.of_nat (length file_nodes)
           ∧ t_error_message r' = t_error_message r0)
  ∧ (∀ j, j ≠ task_id → tasks w' !! j = tasks w !! j).
Proof.
  intros Hen file_nodes w'. subst w'. unfold download_files. rewrite Hen.
  fold file_nodes.
  destruct (foldl_download_one cfg env task_id file_nodes w)
    as (H1 & H2 & H3 & H4 & H5).
  assert (Ht : tasks (foldl (download_one lib cfg env task_id) w file_nodes)
               = tasks w).
  { apply foldl_tasks. intros; apply download_one_tasks. }
  destruct file_nodes as [|n ns] eqn:E.
  - simpl in *. split; [lia|]. split; [done|]. split; [by intros k node ?|].
    done.
  - rewrite <- E in *. cbn [set_tasks files nodes tasks].
    split; [done|]. split; [done|]. split; [done|]. split; [done|].
    split; [by rewrite E|]. split.
    + intros _ r0 Hr0. rewrite Ht, update_task_status_lookup, Hr0. simpl.
      eexists. split; [reflexivity|]. simpl. done.
    + intros j Hj. rewrite Ht. unfold update_task_status.
      by rewrite lookup_alter_ne.
Qed.






End PhaseFacts.

(** One pruned PDF node, a server that answers with one byte and an upload
    that succeeds: the node gets file record 2, which is [completed]. *)
Lemma download_files_records_witness :
  let env := Examples.env_of (Examples.response Downloader.CLAbsent [Examples.b 1])
               None in
  let w' := MainV3.download_files Examples.lib0 Examples.cfg0 env 1
              MoreExamples.w2 in
  TargetDb.ft_next_id (MainV3.files w') = 3
  ∧ ∃ r, TargetDb.ft_rows (MainV3.files w') !! 2 = Some r
         ∧ TargetDb.f_download_status r = L "completed"
         ∧ TargetDb.f_storage_path r
           = Some (L "university-files/task_1/raw/guide.pdf").
Proof.
  intros env w'.
  destruct (download_files_records Examples.lib0 Examples.cfg0 env 1
              MoreExamples.w2 eq_refl) as (Hn & _ & Hrow & _).
  fold w' in Hn, Hrow.
  assert (TargetDb.get_file_nodes (MainV3.nodes MoreExamples.w2) 1 true
          = [Examples.pdf_node]) as Hfn by (vm_compute; reflexivity).
  rewrite Hfn in Hn, Hrow. split; [exact Hn|].
  destruct (Hrow 0%nat Examples.pdf_node eq_refl) as (r & Hr & Hd).
  exists r. split; [exact Hr|].
  destruct Hd as (_ & _ & _ & _ & _ & _ & Hd).
  assert (Hres : Downloader.success
            (Downloader.download_file Examples.lib0
               (MainV3.downloader Examples.cfg0) (MainV3.net env) ∅
               (TargetDb.n_url (TargetDb.nr_row Examples.pdf_node)) None
               (Some (MainV3.task_folder Examples.lib0 1))).1.1 = true)
    by (vm_compute; reflexivity).
  rewrite Hres in Hd. cbn [MainV3.upload_ok env Examples.env_of] in Hd.
  destruct Hd as (Hst & Hsp & _). split; [exact Hst|]. rewrite Hsp.
  vm_compute. reflexivity.
Defined.


(** ** A run over the pending links *)

Section RunFacts.

Import TargetDb Downloader MainV3 Inv Tasks Controller.

Variable lib : Lib.t.

Lemma only_task_refl task_id (t : gmap Z TaskRow) : only_task task_id t t.
Proof.
  exists (λ r, r). split; [|done]. symmetry. apply map_eq. intros j.
  destruct (decide (j = task_id)) as [->|Hj].
  - rewrite lookup_alter_eq. by destruct (t !! task_id).
  - by rewrite lookup_alter_ne.
Qed.

Lemma only_task_trans task_id (t1 t2 t3 : gmap Z TaskRow) :
  only_task task_id t1 t2 → only_task task_id t2 t3 → only_task task_id t1 t3.
Proof.
  intros (f & -> & Hf) (g & -> & Hg). exists (g ∘ f). split.
  - apply map_eq. intros j. destruct (decide (j = task_id)) as [->|Hj].
    + rewrite !lookup_alter_eq. by destruct (t1 !! task_id).
    + by rewrite !lookup_alter_ne.
  - intros r. destruct (Hf r) as (? & ? & ? & ?).
    destruct (Hg (f r)) as (? & ? & ? & ?).
    unfold same_source. simpl. repeat split; congruence.
Qed.

Lemma only_task_update task_id (t : gmap Z TaskRow) status kw :
  only_task task_id t (update_task_status t task_id status kw).
Proof. exists (update_task_row status kw). by split. Qed.

Ltac only_task_steps :=
  repeat (eapply only_task_trans; [|apply only_task_update]);
  apply only_task_refl.

Lemma crawl_single_link_tasks ce task_id w :
  only_task task_id (tasks w) (tasks (crawl_single_link ce task_id w))
  ∧ next_task_id (crawl_single_link ce task_id w) = next_task_id w.
Proof.
  unfold crawl_single_link, crawl_try, bind, may_raise, modify, ret, raise.
  destruct (fault ce) as [[s msg]|]; [destruct s|]; cbn;
    repeat first [rewrite decide_True by done | rewrite decide_False by done];
    cbn;
    repeat (destruct (batch_insert_nodes _ _ _); cbn);
    (split; [only_task_steps | reflexivity]).
Qed.

Lemma download_files_next cfg env task_id w :
  next_task_id (download_files lib cfg env task_id w) = next_task_id w.
Proof.
  unfold download_files. destruct (enable_download cfg); [|done].
  destruct (get_file_nodes (nodes w) task_id true) as [|n ns] eqn:E; [done|].
  cbn [set_tasks next_task_id].
  by destruct (foldl_download_one lib cfg env task_id (n :: ns) w)
    as (_ & _ & _ & _ & ->).
Qed.

Lemma process_files_next cfg env task_id w :
  next_task_id (process_files cfg env task_id w) = next_task_id w.
Proof.
  unfold process_files. destruct (enable_rename cfg); [|done].
  generalize (get_pending_process_files (files w) (Some task_id)). intros l.
  revert w. induction l as [|a l IH]; intros w; [done|]. cbn [foldl]. rewrite IH.
  unfold _process_single_file. repeat case_match; reflexivity.
Qed.

Lemma run_phases_tasks cfg env task_id w :
  only_task task_id (tasks w) (tasks (run_phases lib cfg env task_id w))
  ∧ next_task_id (run_phases lib cfg env task_id w) = next_task_id w.
Proof.
  unfold run_phases.
  destruct (crawl_single_link_tasks (crawl env) task_id w) as [H1 N1].
  set (w1 := crawl_single_link (crawl env) task_id w) in *.
  set (w2 := if enable_download cfg then download_files lib cfg env task_id w1
             else w1).
  assert (only_task task_id (tasks w1) (tasks w2)
          ∧ next_task_id w2 = next_task_id w1) as [H2 N2].
  { subst w2. destruct (enable_download cfg); [|split; [apply only_task_refl|done]].
    split; [|apply download_files_next].
    destruct (download_files_tasks lib cfg env task_id w1) as [-> | (kw & _ & ->)].
    - apply only_task_refl.
    - apply only_task_update. }
  set (w3 := if enable_rename cfg
             then set_files (λ t, fill_unknown_names lib t task_id)
                    (process_files cfg env task_id w2)
             else w2).
  assert (tasks w3 = tasks w2 ∧ next_task_id w3 = next_task_id w2) as [H3 N3].
  { subst w3. destruct (enable_rename cfg); [|done]. cbn [set_files tasks next_task_id].
    split; [apply process_files_tasks | apply process_files_next]. }
  cbn [cleanup_task_temp_files set_disk tasks next_task_id].
  split; [|congruence]. rewrite H3. by eapply only_task_trans.
Qed.

Lemma only_task_lookup task_id (t t' : gmap Z TaskRow) :
  only_task task_id t t' →
  (∀ j, j ≠ task_id → t' !! j = t !! j)
  ∧ (∀ r, t !! task_id = Some r →
       ∃ r', t' !! task_id = Some r' ∧ same_source r r')
  ∧ (∀ j, is_Some (t' !! j) ↔ is_Some (t !! j)).
Proof.
  intros (f & -> & Hf). split; [|split].
  - intros j Hj. by rewrite lookup_alter_ne.
  - intros r Hr. exists (f r). by rewrite lookup_alter_eq, Hr.
  - intros j. destruct (decide (j = task_id)) as [->|Hj].
    + rewrite lookup_alter_eq. destruct (t !! task_id); simpl; split;
        intros [? ?]; by eexists.
    + by rewrite lookup_alter_ne.
Qed.

Lemma only_task_unique task_id (t t' : gmap Z TaskRow) :
  only_task task_id t t' → unique_source_ids t → unique_source_ids t'.
Proof.
  intros (f & -> & Hf) Hu a b ra rb Ha Hb Hab.
  assert (∀ j r', alter f task_id t !! j = Some r' →
            ∃ r, t !! j = Some r ∧ t_source_link_id r' = t_source_link_id r) as Hback.
  { intros j r' Hr'. destruct (decide (j = task_id)) as [->|Hj].
    - rewrite lookup_alter_eq in Hr'. destruct (t !! task_id) as [r|]; [|done].
      injection Hr' as <-. exists r. split; [done|]. by destruct (Hf r).
    - rewrite lookup_alter_ne in Hr' by done. by exists r'. }
  destruct (Hback a ra Ha) as (ra0 & Ha0 & Hsa).
  destruct (Hback b rb Hb) as (rb0 & Hb0 & Hsb).
  apply (Hu a b ra0 rb0); congruence.
Qed.

(** The rows after [run_task]. *)
Lemma run_task_rows cfg env link school_name w :
  unique_source_ids (tasks w) → task_ids_fresh w →
  let '(w', i) := run_task lib cfg env link school_name w in
  i = next_task_id w
  ∧ (∃ r', tasks w' !! i = Some r'
       ∧ t_source_link_id r' = Sync.id link
       ∧ t_source_url r' = Sync.url link
       ∧ t_url_hash r' = Lib.md5_hexdigest lib (Sync.url link)
       ∧ terminal (t_status r')
       ∧ (t_status r' = L "failed" → is_Some (t_error_message r'))
       ∧ (t_error_message r' = None → t_status r' = L "completed"))
  ∧ (∀ j r, j ≠ i →
       tasks w' !! j = Some r
       ↔ tasks w !! j = Some r ∧ t_source_link_id r ≠ Sync.id link)
  ∧ unique_source_ids (tasks w') ∧ task_ids_fresh w'.
Proof.
  intros Hu Hf. unfold run_task.
  pose proof (prepare_task_for_link_rows lib w link school_name Hu Hf) as Hp.
  destruct (prepare_task_for_link lib w link school_name) as [w1 i].
  destruct Hp as (Hi & Hnx & Hrow & Hothers & _ & Hu1 & Hf1).
  destruct (run_phases_tasks cfg env i w1) as [Hon Hn].
  destruct (only_task_lookup _ _ _ Hon) as (Ho & Hr & Hdom).
  destruct (run_phases_task_row lib cfg env i w1 _ Hrow) as (r' & Hr' & Hst).
  destruct (Hr _ Hrow) as (r'' & Hr'' & Hss). rewrite Hr' in Hr''.
  injection Hr'' as <-. destruct Hss as (S1 & S2 & S3 & S4).
  cbn [t_source_link_id t_source_url t_url_hash t_school_name t_error_message]
    in S1, S2, S3, S4, Hst.
  split; [done|]. split.
  { exists r'. split; [done|]. split; [done|]. split; [done|]. split; [done|].
    destruct (crawl_failed (crawl env) i w1).
    - destruct Hst as [[e He] Hs]. split; [destruct Hs; [by right | by left]|].
      split; [by rewrite He; eexists | by rewrite He].
    - destruct Hst as [Hs He]. split; [by left|]. split; [|done].
      rewrite Hs. discriminate. }
  split.
  { intros j r Hj. rewrite Ho by done. by apply Hothers. }
  split; [by eapply only_task_unique|].
  intros j Hj. rewrite Hn. apply Hf1. by apply Hdom.
Qed.

(** [run_task]: a link that has been worked on has exactly one task, under
    a new id, and the task is left [completed] or [failed], never [pending]
    or [crawling]; a [failed] task carries an error text, a task without one
    is [completed], and the tasks of other links are as before. *)
Theorem run_task_terminal (cfg : Config) (env : Env) (link : Sync.LinkRecord)
    (school_name : option str) (w : World) :
  unique_source_ids (tasks w) → task_ids_fresh w →
  let '(w', i) := run_task lib cfg env link school_name w in
  tasks w !! i = None
  ∧ (∃ r', get_task_by_source_id (tasks w') (Sync.id link) = Some (i, r')
       ∧ t_source_url r' = Sync.url link
       ∧ t_url_hash r' = Lib.md5_hexdigest lib (Sync.url link)
       ∧ (t_status r' = L "completed" ∨ t_status r' = L "failed")
       ∧ (t_status r' = L "failed" → is_Some (t_error_message r'))
       ∧ (t_error_message r' = None → t_status r' = L "completed"))
  ∧ (∀ j r, t_source_link_id r ≠ Sync.id link →
       get_task_by_id (tasks w') j = Some (j, r)
       ↔ get_task_by_id (tasks w) j = Some (j, r)).
Proof.
  intros Hu Hf. pose proof (run_task_rows cfg env link school_name w Hu Hf) as H.
  destruct (run_task lib cfg env link school_name w) as [w' i].
  destruct H as (Hi & (r' & Hr' & Hs & Hurl & Hh & Ht & Hfl & Hok) & Ho & Hu' & Hf').
  assert (tasks w !! i = None) as Hnone.
  { destruct (tasks w !! i) eqn:E; [|done].
    specialize (Hf i ltac:(by eexists)). lia. }
  split; [done|]. split.
  - exists r'. split; [by apply get_task_by_source_id_Some|]. done.
  - intros j r Hne. unfold get_task_by_id. destruct (decide (j = i)) as [->|Hj].
    + rewrite Hr', Hnone. simpl. split; [|done]. intros [= <-]. done.
    + split.
      * destruct (tasks w' !! j) as [r0|] eqn:E; [|done]. simpl.
        intros [= ->]. apply (Ho j r Hj) in E as [-> _]. done.
      * destruct (tasks w !! j) as [r0|] eqn:E; [|done]. simpl.
        intros [= ->].
        assert (tasks w' !! j = Some r) as -> by (by apply (Ho j r Hj)). done.
Qed.

(** The loop of [run] over links with distinct ids: when it ends, every
    link it went through has a task that holds the link's URL and is
    [completed] or [failed]; no task is left [pending] or [crawling] by the
    loop. *)
Theorem run_loop_terminal (cfg : Config) (env_of : Sync.LinkRecord → Env)
    (school_of : Sync.LinkRecord → option str)
    (pending_links : list Sync.LinkRecord) (w : World) :
  unique_source_ids (tasks w) → task_ids_fresh w →
  NoDup (Sync.id <$> pending_links) →
  let w' := run_loop lib cfg env_of school_of pending_links w in
  (∀ link, link ∈ pending_links →
     ∃ i r, get_task_by_source_id (tasks w') (Sync.id link) = Some (i, r)
            ∧ t_source_url r = Sync.url link
            ∧ (t_status r = L "completed" ∨ t_status r = L "failed"))
  ∧ (∀ j r, t_source_link_id r ∉ Sync.id <$> pending_links →
       tasks w' !! j = Some r ↔ tasks w !! j = Some r)
  ∧ unique_source_ids (tasks w') ∧ task_ids_fresh w'.
Proof.
  revert w. induction pending_links as [|link links IH]; intros w Hu Hf Hnd w'.
  - subst w'. simpl. split; [by intros ? ?%elem_of_nil|]. done.
  - subst w'. cbn [run_loop foldl]. rewrite fmap_cons in Hnd.
    apply NoDup_cons in Hnd as [Hl Hnd].
    pose proof (run_task_rows cfg (env_of link) link (school_of link) w Hu Hf) as H.
    destruct (run_task lib cfg (env_of link) link (school_of link) w) as [w1 i].
    destruct H as (Hi & (r1 & Hr1 & Hs1 & Hurl1 & _ & Ht1 & _) & Ho & Hu1 & Hf1).
    cbn [fst]. fold (run_loop lib cfg env_of school_of links w1).
    destruct (IH w1 Hu1 Hf1 Hnd) as (IH1 & IH2 & IH3 & IH4).
    split; [|split; [|done]].
    + intros x [->|Hx]%elem_of_cons; [|by apply IH1].
      exists i, r1. split; [|done].
      apply get_task_by_source_id_Some; [done| |done].
      apply IH2; [by rewrite Hs1 | done].
    + intros j r Hnot. rewrite fmap_cons in Hnot.
      apply not_elem_of_cons in Hnot as [Hne Hnot]. rewrite IH2 by done.
      destruct (decide (j = i)) as [->|Hj].
      * split.
        -- intros Hr. rewrite Hr1 in Hr. injection Hr as <-. done.
        -- intros Hr. specialize (Hf i ltac:(by eexists)). lia.
      * rewrite (Ho j r Hj). tauto.
Qed.

End RunFacts.

Lemma w0_fresh : Inv.task_ids_fresh Examples.w0.
Proof. intros i [r Hr]. vm_compute in Hr. discriminate. Qed.

(** The seed link on an empty catalog: its task is task 1 and is left in a
    final status. *)
Lemma run_task_terminal_witness :
  let env := Examples.env_of (Examples.response Downloader.CLAbsent [Examples.b 1])
               None in
  let res := MainV3.run_task Examples.lib0 Examples.cfg0 env Examples.seed None
               Examples.w0 in
  ∃ r', Tasks.get_task_by_source_id (MainV3.tasks res.1) 1 = Some (res.2, r')
        ∧ TargetDb.t_source_url r' = L "http://u.example/admissions"
        ∧ (TargetDb.t_status r' = L "completed"
           ∨ TargetDb.t_status r' = L "failed").
Proof.
  intros env res.
  pose proof (run_task_terminal Examples.lib0 Examples.cfg0 env Examples.seed
                None Examples.w0 (unique_source_ids_empty) w0_fresh) as H.
  fold res in H. destruct res as [w' i].
  destruct H as (_ & (r' & Hg & Hurl & _ & Hst & _) & _).
  exists r'. split; [exact Hg|]. split; [exact Hurl | exact Hst].
Defined.

(** Two upstream rows of one URL, worked on in turn on an empty catalog:
    each has its own task in a final status. *)
Lemma run_loop_terminal_witness :
  let env := Examples.env_of (Examples.response Downloader.CLAbsent [Examples.b 1])
               None in
  let w' := Controller.run_loop Examples.lib0 Examples.cfg0 (λ _, env)
              (λ _, None) Examples.two_rows Examples.w0 in
  (∃ i r, Tasks.get_task_by_source_id (MainV3.tasks w') 2 = Some (i, r)
          ∧ TargetDb.t_source_url r = L "http://u.example/admissions"
          ∧ (TargetDb.t_status r = L "completed"
             ∨ TargetDb.t_status r = L "failed"))
  ∧ (∃ i r, Tasks.get_task_by_source_id (MainV3.tasks w') 5 = Some (i, r)
            ∧ TargetDb.t_source_url r = L "http://u.example/admissions"
            ∧ (TargetDb.t_status r = L "completed"
               ∨ TargetDb.t_status r = L "failed")).
Proof.
  intros env w'.
  assert (NoDup (Sync.id <$> Examples.two_rows)) as Hnd.
  { change (NoDup [2; 5]). apply NoDup_cons. split; [|apply NoDup_singleton].
    intros [=]%list_elem_of_singleton. }
  destruct (run_loop_terminal Examples.lib0 Examples.cfg0 (λ _, env)
              (λ _, None) Examples.two_rows Examples.w0
              unique_source_ids_empty w0_fresh Hnd) as (H & _).
  fold w' in H. split.
  - apply (H (Examples.link 2 (L "graduate") (L "http://u.example/admissions"))).
    left.
  - apply (H (Examples.link 5 (L "undergraduate")
                (L "http://u.example/admissions"))).
    right. left.
Defined.

(** ** The links a run works on *)

Section ControllerFacts.

Import TargetDb MainV3 Controller.

Lemma slice_to_prefix {A} (n : Z) (l : list A) : ∃ k, slice_to n l = take k l.
Proof. unfold slice_to. destruct (decide (n < 0)); eexists; reflexivity. Qed.

(** [run(link_type, max_tasks)] works on a prefix of the pending links of
    the requested kind, in their order.  A positive [max_tasks] caps their
    number; [max_tasks = 0] does not mean "none" but, like [None], "all";
    a negative [max_tasks] leaves out that many links at the end. *)
Theorem select_links_prefix (link_type : option str) (max_tasks : option Z)
    (pending_links : list Sync.LinkRecord) :
  let kept := Sync.filter_by_type link_type pending_links in
  let sel := select_links link_type max_tasks pending_links in
  (∃ k, sel = take k kept)
  ∧ (∀ x, x ∈ sel → x ∈ pending_links ∧ Spec.kind_ok link_type x)
  ∧ match max_tasks with
    | None => sel = kept
    | Some n =>
        (n = 0 → sel = kept)
        ∧ (0 < n → length sel = Nat.min (Z.to_nat n) (length kept))
        ∧ (n < 0 → length sel = (length kept - Z.to_nat (- n))%nat)
    end.
Proof.
  intros kept sel.
  assert (∃ k, sel = take k kept) as Hpre.
  { subst sel kept. unfold select_links. destruct max_tasks as [n|].
    - destruct (decide (n = 0)); [|apply slice_to_prefix].
      exists (length (Sync.filter_by_type link_type pending_links)).
      by rewrite firstn_all.
    - exists (length (Sync.filter_by_type link_type pending_links)).
      by rewrite firstn_all. }
  split; [done|]. split.
  - destruct Hpre as [k ->]. intros x Hx.
    assert (x ∈ kept) as Hk.
    { eapply elem_of_sublist; [exact Hx|]. apply sublist_take. }
    apply filter_by_type_elem in Hk. tauto.
  - subst sel kept. unfold select_links. destruct max_tasks as [n|]; [|done].
    unfold slice_to. split; [|split]; intros Hn.
    + by rewrite decide_True.
    + rewrite decide_False by lia. rewrite decide_False by lia.
      by rewrite length_take.
    + rewrite decide_False by lia. rewrite decide_True by lia.
      rewrite length_take. lia.
Qed.

End ControllerFacts.
